(** * OHIF dental extension and backend: a shallow embedding

    The development follows the repository layout:
    - [JS]: the few JavaScript value conventions the code relies on
      (strict equality on numbers, truthiness of strings, nullish values);
    - [Manager]: [dentalMeasurementsManager.ts], the measurement metadata
      enricher with its module-level state and the host calls it issues;
    - [Panel]: the export of [DentalMeasurementsPanel.tsx];
    - [Annotations]: [models/Annotation.js] and [routes/annotations.js];
    - [Http]: what a route answers, and what a database call throws;
    - [ViewerStates]: [models/ViewerState.js] and the viewer-state routes.

    An absent JavaScript value ([undefined] or [null]) is [None]. *)

From Stdlib Require Import ZArith QArith Bool List String Ascii Lia.
From Stdlib Require Import Permutation Sorted DecimalString.
Import ListNotations.
Local Open Scope list_scope.
Local Open Scope string_scope.

(** ** JavaScript conventions *)

Module JS.

(** A JavaScript number: either [NaN] or a value. *)
Inductive number : Type :=
| NaN
| Fin (q : Q).

(** [a === b] on numbers: [NaN] is not equal to anything, itself included. *)
Definition strict_eq_number (a b : number) : bool :=
  match a, b with
  | Fin x, Fin y => Qeq_bool x y
  | _, _ => false
  end.

(** [a === b] on possibly absent values. *)
Definition strict_eq_opt {A : Type} (eq : A -> A -> bool) (a b : option A) : bool :=
  match a, b with
  | None, None => true
  | Some x, Some y => eq x y
  | _, _ => false
  end.

(** Truthiness of a possibly absent string: absent and [''] are falsy. *)
Definition truthy_string (s : option string) : bool :=
  match s with
  | None => false
  | Some s => negb (String.eqb s "")
  end.

(** Truthiness of a possibly absent object. *)
Definition truthy_object {A : Type} (o : option A) : bool :=
  match o with
  | None => false
  | Some _ => true
  end.

(** [a ?? b] *)
Definition nullish {A : Type} (a b : option A) : option A :=
  match a with
  | Some _ => a
  | None => b
  end.

(** [a || b] on possibly absent strings. *)
Definition or_string (a b : option string) : option string :=
  if truthy_string a then a else b.

(** [a || b] on possibly absent objects. *)
Definition or_object {A : Type} (a b : option A) : option A :=
  match a with
  | Some _ => a
  | None => b
  end.

(** Canonicalisation of a character under the [i] flag of a regular
    expression without the [u] flag: ASCII letters fold to upper case,
    everything else is left alone. *)
Definition canonicalize (c : ascii) : ascii :=
  let n := nat_of_ascii c in
  if (97 <=? n)%nat && (n <=? 122)%nat then ascii_of_nat (n - 32) else c.

Definition char_eq_ci (a b : ascii) : bool :=
  Ascii.eqb (canonicalize a) (canonicalize b).

(** [s] starts with [p], ignoring case. *)
Fixpoint prefix_ci (p s : string) : bool :=
  match p, s with
  | EmptyString, _ => true
  | String a p', String b s' => char_eq_ci a b && prefix_ci p' s'
  | String _ _, EmptyString => false
  end.

(** [/p/i.test(s)] for a pattern [p] made of literal characters. *)
Fixpoint test_ci (p s : string) : bool :=
  prefix_ci p s ||
  match s with
  | EmptyString => false
  | String _ s' => test_ci p s'
  end.

Definition is_digit (c : ascii) : bool :=
  let n := nat_of_ascii c in (48 <=? n)%nat && (n <=? 57)%nat.

(** The longest run of digits at the head of [s], and what follows it. *)
Fixpoint span_digits (s : string) : string * string :=
  match s with
  | String c s' =>
      if is_digit c
      then let '(ds, rest) := span_digits s' in (String c ds, rest)
      else (EmptyString, s)
  | EmptyString => (EmptyString, EmptyString)
  end.

(** [s] with its first [n] characters removed. *)
Fixpoint drop (n : nat) (s : string) : string :=
  match n, s with
  | O, _ => s
  | S n', String _ s' => drop n' s'
  | S _, EmptyString => EmptyString
  end.

(** A match of [/\(NAME (\d+)\)/i] anchored at the head of [s]: the
    captured digits.  The digit run is greedy and [)] is not a digit, so
    backtracking never finds a match that the longest run misses. *)
Definition match_paren_digits_here (name s : string) : option string :=
  let opening := "(" ++ name ++ " " in
  if prefix_ci opening s
  then
    let '(ds, rest) := span_digits (drop (String.length opening) s) in
    match ds, rest with
    | String _ _, String ")"%char _ => Some ds
    | _, _ => None
    end
  else None.

(** [s.match(/\(NAME (\d+)\)/i)]: the first capture group of the leftmost
    match. *)
Fixpoint match_paren_digits (name s : string) : option string :=
  match match_paren_digits_here name s with
  | Some ds => Some ds
  | None =>
      match s with
      | EmptyString => None
      | String _ s' => match_paren_digits name s'
      end
  end.

(** [String.prototype.trim].  A string is the sequence of the bytes of its
    UTF-8 form.  White space and line terminators are the code points 9
    to 13 and 32, one byte each; 160 (bytes 194 160); 5760 (225 154 128);
    8192 to 8202, 8232, 8233 and 8239 (226 128 and 128 to 138, 168, 169
    or 175); 8287 (226 129 159); 12288 (227 128 128); and 65279
    (239 187 191). *)
Definition space1 (a : nat) : bool :=
  (a =? 32)%nat || ((9 <=? a)%nat && (a <=? 13)%nat).

Definition space2 (a b : nat) : bool :=
  (a =? 194)%nat && (b =? 160)%nat.

Definition space3 (a b c : nat) : bool :=
  ((a =? 225)%nat && (b =? 154)%nat && (c =? 128)%nat)
  || ((a =? 226)%nat && (b =? 128)%nat
      && (((128 <=? c)%nat && (c <=? 138)%nat)
          || (c =? 168)%nat || (c =? 169)%nat || (c =? 175)%nat))
  || ((a =? 226)%nat && (b =? 129)%nat && (c =? 159)%nat)
  || ((a =? 227)%nat && (b =? 128)%nat && (c =? 128)%nat)
  || ((a =? 239)%nat && (b =? 187)%nat && (c =? 191)%nat).

(** The bytes left once the white space in front is gone; [backwards]
    for bytes listed from the end of the string. *)
Fixpoint stripSpaces (backwards : bool) (l : list ascii) : list ascii :=
  match l with
  | [] => []
  | a :: l1 =>
      if space1 (nat_of_ascii a) then stripSpaces backwards l1
      else
        match l1 with
        | [] => l
        | b :: l2 =>
            if (if backwards
                then space2 (nat_of_ascii b) (nat_of_ascii a)
                else space2 (nat_of_ascii a) (nat_of_ascii b))
            then stripSpaces backwards l2
            else
              match l2 with
              | [] => l
              | c :: l3 =>
                  if (if backwards
                      then space3 (nat_of_ascii c) (nat_of_ascii b) (nat_of_ascii a)
                      else space3 (nat_of_ascii a) (nat_of_ascii b) (nat_of_ascii c))
                  then stripSpaces backwards l3
                  else l
              end
        end
  end.

Definition trim (s : string) : string :=
  string_of_list_ascii
    (rev (stripSpaces true (rev (stripSpaces false (list_ascii_of_string s))))).

End JS.

(** ** dentalMeasurementsManager.ts *)

Module Tooth.
(** [DentalToothSelection] *)
Record t : Type := mk { system : string; value : string }.

Definition FDI : string := "FDI".
Definition UNIVERSAL : string := "UNIVERSAL".
End Tooth.

Module Stats.
(** The cached statistics the value accessor falls back to. *)
Record t : Type := mk {
  angle : option JS.number;
  mean : option JS.number;
  longestDiameter : option JS.number;
  length : option JS.number;
  maxDiameter : option JS.number
}.
End Stats.

Module DataEntry.
(** One value of [measurement.data] (one per image id). *)
Record t : Type := mk {
  angle : option JS.number;
  length : option JS.number;
  value : option JS.number
}.
End DataEntry.

Module Metadata.
(** [measurement.metadata]; [others] are the keys the enricher never
    names, kept by the object spread. *)
Record t : Type := mk {
  dentalPresetId : option string;
  dentalPresetLabel : option string;
  dentalUnit : option string;
  dentalValue : option JS.number;
  dentalTooth : option Tooth.t;
  dentalCreatedAt : option Z;
  cachedStats : option Stats.t;
  length : option JS.number;
  others : list (string * string)
}.

(** [{}] *)
Definition empty : t :=
  mk None None None None None None None None [].
End Metadata.

Module Measurement.
(** A measurement of the host's measurement service. *)
Record t : Type := mk {
  uid : string;
  label : option string;
  metadata : option Metadata.t;
  data : option (list (string * option DataEntry.t));
  cachedStats : option Stats.t;
  length : option JS.number;
  angle : option JS.number
}.
End Measurement.

Module Preset.
(** [DentalMeasurementPreset] *)
Record t : Type := mk {
  id : string;
  label : string;
  toolName : string;
  unit : string;
  description : string;
  valueAccessor : option (Measurement.t -> option JS.number)
}.
End Preset.

Module Manager.

Definition DENTAL_MEASUREMENT_PRESETS : list Preset.t :=
  [ Preset.mk "periapical-length" "PA length" "Length" "mm"
      "Standard periapical length measurement." None;
    Preset.mk "canal-angle" "Canal angle" "Angle" "°"
      "Measure the canal angulation in degrees." None;
    Preset.mk "crown-width" "Crown width" "Length" "mm"
      "Buccolingual crown width measurement." None;
    Preset.mk "root-length" "Root length" "Length" "mm"
      "Root apex to CEJ linear measurement." None ].

(** [presetId] is the id of a preset of the table. *)
Definition known (presetId : string) : Prop :=
  exists p, In p DENTAL_MEASUREMENT_PRESETS /\ Preset.id p = presetId.

(** The host objects, as far as the manager looks into them. *)
Record MeasurementService : Type := {
  getMeasurements : list Measurement.t
}.

Record ServicesManager : Type := {
  measurementService : option MeasurementService
}.

Inductive CommandsManager : Type :=
| hostCommandsManager.

Record IntegrationContext : Type := {
  servicesManager : ServicesManager;
  commandsManager : CommandsManager;
  toolGroupIds : list string
}.

Inductive Event : Type :=
| MEASUREMENT_ADDED
| MEASUREMENT_UPDATED
| MEASUREMENTS_CLEARED.

(** The three listeners the manager hands to the host; the one for
    [MEASUREMENTS_CLEARED] is a closure over the id of the
    initialization that created it. *)
Inductive Listener : Type :=
| ListenAdded
| ListenUpdated
| ListenCleared (uniqueListenerId : string).

Record Subscription : Type := {
  sub_event : Event;
  sub_listener : Listener
}.

(** Calls on host services, in the order they are issued. *)
Inductive HostCall : Type :=
| update (uid : string) (m : Measurement.t) (notify : bool)
| runCommand (name toolName : string) (groups : list string) (context : string)
| subscribe (event : Event) (listener : Listener)
| unsubscribe (s : Subscription).

(** The module-level variables. *)
Record ModuleState : Type := {
  integration : option IntegrationContext;
  activePresetId : option string;
  activeTooth : option Tooth.t;
  subscriptions : list Subscription;
  lastInitializationId : option string
}.

Definition initial : ModuleState :=
  {| integration := None;
     activePresetId := None;
     activeTooth := None;
     subscriptions := [];
     lastInitializationId := None |}.

Definition getMeasurementService (st : ModuleState) : option MeasurementService :=
  match integration st with
  | Some ctx => measurementService (servicesManager ctx)
  | None => None
  end.

Definition metadata_field {A : Type} (f : Metadata.t -> option A)
    (md : option Metadata.t) : option A :=
  match md with
  | Some md => f md
  | None => None
  end.

Definition measurementHasDentalMetadata (measurement : Measurement.t) : bool :=
  let md := Measurement.metadata measurement in
  JS.truthy_string
    (JS.or_string (metadata_field Metadata.dentalPresetId md)
                  (metadata_field Metadata.dentalPresetLabel md)).

Definition isAngle (preset : Preset.t) : bool :=
  String.eqb (Preset.toolName preset) "Angle" || String.eqb (Preset.unit preset) "°".

Definition computeMeasurementValue (preset : Preset.t)
    (measurement : option Measurement.t) : option JS.number :=
  match measurement with
  | None => None
  | Some m =>
      match Preset.valueAccessor preset with
      | Some accessor => accessor m
      | None =>
          let fromStats :=
            let stats :=
              JS.or_object (Measurement.cachedStats m)
                (metadata_field Metadata.cachedStats (Measurement.metadata m)) in
            let stat {A} (f : Stats.t -> option A) : option A :=
              match stats with Some s => f s | None => None end in
            if isAngle preset
            then JS.nullish (Measurement.angle m)
                   (JS.nullish (stat Stats.angle) (stat Stats.mean))
            else JS.nullish (Measurement.length m)
                   (JS.nullish (stat Stats.longestDiameter)
                      (JS.nullish (stat Stats.length)
                         (JS.nullish (stat Stats.maxDiameter)
                            (metadata_field Metadata.length (Measurement.metadata m))))) in
          match Measurement.data m with
          | Some ((_, dataEntry) :: _) =>
              let field {A} (f : DataEntry.t -> option A) : option A :=
                match dataEntry with Some e => f e | None => None end in
              if isAngle preset
              then JS.nullish (field DataEntry.angle) (field DataEntry.value)
              else JS.nullish (field DataEntry.length) (field DataEntry.value)
          | _ => fromStats
          end
      end
  end.

Definition metadataChanged (currentMetadata nextMetadata : option Metadata.t) : bool :=
  let current := match currentMetadata with Some md => md | None => Metadata.empty end in
  let next := match nextMetadata with Some md => md | None => Metadata.empty end in
  if negb (JS.strict_eq_opt String.eqb
             (Metadata.dentalPresetId current) (Metadata.dentalPresetId next)) then true
  else if negb (JS.strict_eq_opt String.eqb
             (Metadata.dentalPresetLabel current) (Metadata.dentalPresetLabel next)) then true
  else if negb (JS.strict_eq_opt String.eqb
             (Metadata.dentalUnit current) (Metadata.dentalUnit next)) then true
  else if negb (JS.strict_eq_opt JS.strict_eq_number
             (Metadata.dentalValue current) (Metadata.dentalValue next)) then true
  else
    let currentTooth := Metadata.dentalTooth current in
    let nextTooth := Metadata.dentalTooth next in
    if negb (JS.strict_eq_opt String.eqb
               (option_map Tooth.system currentTooth) (option_map Tooth.system nextTooth))
       || negb (JS.strict_eq_opt String.eqb
               (option_map Tooth.value currentTooth) (option_map Tooth.value nextTooth))
    then true
    else false.

Definition findPreset (presetId : option string) : option Preset.t :=
  find (fun p => JS.strict_eq_opt String.eqb (Some (Preset.id p)) presetId)
    DENTAL_MEASUREMENT_PRESETS.

(** The metadata [applyDentalMetadata] builds, before the tooth is
    attached. *)
Definition stampMetadata (now : Z) (preset : Preset.t) (m : Measurement.t)
    : Metadata.t :=
  let md := match Measurement.metadata m with
            | Some md => md
            | None => Metadata.empty
            end in
  {| Metadata.dentalPresetId := Some (Preset.id preset);
     Metadata.dentalPresetLabel := Some (Preset.label preset);
     Metadata.dentalUnit := Some (Preset.unit preset);
     Metadata.dentalValue := computeMeasurementValue preset (Some m);
     Metadata.dentalTooth := Metadata.dentalTooth md;
     Metadata.dentalCreatedAt :=
       JS.nullish (Metadata.dentalCreatedAt md) (Some now);
     Metadata.cachedStats := Metadata.cachedStats md;
     Metadata.length := Metadata.length md;
     Metadata.others := Metadata.others md |}.

Definition withTooth (tooth : option Tooth.t) (md : Metadata.t) : Metadata.t :=
  {| Metadata.dentalPresetId := Metadata.dentalPresetId md;
     Metadata.dentalPresetLabel := Metadata.dentalPresetLabel md;
     Metadata.dentalUnit := Metadata.dentalUnit md;
     Metadata.dentalValue := Metadata.dentalValue md;
     Metadata.dentalTooth := tooth;
     Metadata.dentalCreatedAt := Metadata.dentalCreatedAt md;
     Metadata.cachedStats := Metadata.cachedStats md;
     Metadata.length := Metadata.length md;
     Metadata.others := Metadata.others md |}.

Definition withLabelAndMetadata (label : option string) (md : Metadata.t)
    (m : Measurement.t) : Measurement.t :=
  {| Measurement.uid := Measurement.uid m;
     Measurement.label := label;
     Measurement.metadata := Some md;
     Measurement.data := Measurement.data m;
     Measurement.cachedStats := Measurement.cachedStats m;
     Measurement.length := Measurement.length m;
     Measurement.angle := Measurement.angle m |}.

Definition labelSuffix (preset : Preset.t) (tooth : option Tooth.t) : string :=
  match tooth with
  | Some t =>
      Preset.label preset ++ " (" ++ Tooth.system t ++ " " ++ Tooth.value t ++ ")"
  | None => Preset.label preset
  end.

(** The preset [applyDentalMetadata] settles on: the one it is given, or
    else the one the measurement records, or else the active one. *)
Definition presetToApply (st : ModuleState) (m : Measurement.t)
    (preset : option Preset.t) : option Preset.t :=
  match preset with
  | Some p => Some p
  | None =>
      let presetId :=
        metadata_field Metadata.dentalPresetId (Measurement.metadata m) in
      find (fun p =>
              if JS.truthy_string presetId
              then JS.strict_eq_opt String.eqb (Some (Preset.id p)) presetId
              else JS.strict_eq_opt String.eqb (Some (Preset.id p))
                     (activePresetId st))
        DENTAL_MEASUREMENT_PRESETS
  end.

(** [nextMetadata], once the active tooth is attached where the
    measurement has none; [now] is what [Date.now()] returns. *)
Definition nextMetadata (st : ModuleState) (now : Z) (p : Preset.t)
    (m : Measurement.t) : Metadata.t :=
  let stamped := stampMetadata now p m in
  if negb (JS.truthy_object (Metadata.dentalTooth stamped))
     && JS.truthy_object (activeTooth st)
  then withTooth (activeTooth st) stamped
  else stamped.

Definition applyDentalMetadata (st : ModuleState) (now : Z)
    (measurement : option Measurement.t) (preset : option Preset.t)
    : list HostCall :=
  match measurement with
  | None => []
  | Some m =>
      match getMeasurementService st with
      | None => []
      | Some _ =>
          match presetToApply st m preset with
          | None => []
          | Some p =>
              let next := nextMetadata st now p m in
              let suffix := labelSuffix p (Metadata.dentalTooth next) in
              if negb (metadataChanged (Measurement.metadata m) (Some next))
                 && JS.strict_eq_opt String.eqb (Measurement.label m) (Some suffix)
              then []
              else [update (Measurement.uid m)
                      (withLabelAndMetadata (Some suffix) next m) true]
          end
      end
  end.

Definition handleMeasurementAdded (st : ModuleState) (now : Z)
    (measurement : option Measurement.t) : list HostCall :=
  match measurement with
  | None => []
  | Some m =>
      if JS.truthy_string (activePresetId st)
      then applyDentalMetadata st now (Some m) (findPreset (activePresetId st))
      else if measurementHasDentalMetadata m
      then applyDentalMetadata st now (Some m) None
      else []
  end.

(** The handler reads [measurement.metadata] right after the guard, so an
    absent measurement falls out at the guard. *)
Definition handleMeasurementUpdated (st : ModuleState) (now : Z)
    (measurement : option Measurement.t) : list HostCall :=
  match measurement with
  | None => []
  | Some m =>
      if negb (measurementHasDentalMetadata m) then []
      else
        let presetId :=
          metadata_field Metadata.dentalPresetId (Measurement.metadata m) in
        applyDentalMetadata st now (Some m) (findPreset presetId)
  end.

Definition withActivePresetId (presetId : option string) (st : ModuleState)
    : ModuleState :=
  {| integration := integration st;
     activePresetId := presetId;
     activeTooth := activeTooth st;
     subscriptions := subscriptions st;
     lastInitializationId := lastInitializationId st |}.

(** The listener subscribed to [MEASUREMENTS_CLEARED]. *)
Definition handleMeasurementsCleared (uniqueListenerId : string)
    (st : ModuleState) : ModuleState :=
  if negb (JS.strict_eq_opt String.eqb (lastInitializationId st)
             (Some uniqueListenerId))
  then st
  else withActivePresetId None st.

(** Unsubscribes every recorded subscription; returns the calls made. *)
Definition clearSubscriptions (st : ModuleState) : ModuleState * list HostCall :=
  ({| integration := integration st;
      activePresetId := activePresetId st;
      activeTooth := activeTooth st;
      subscriptions := [];
      lastInitializationId := lastInitializationId st |},
   map unsubscribe (subscriptions st)).

(** [uuid] is what [uuidv4()] returns. *)
Definition initializeDentalMeasurements (sm : option ServicesManager)
    (cm : option CommandsManager) (groups : list string) (uuid : string)
    (st : ModuleState) : ModuleState * list HostCall :=
  match sm, cm with
  | Some sm', Some cm' =>
      match measurementService sm' with
      | None => (st, [])
      | Some _ =>
          let '(cleared, calls) := clearSubscriptions st in
          let uniqueListenerId := "dental-measurements-" ++ uuid in
          let subs :=
            [ {| sub_event := MEASUREMENT_ADDED; sub_listener := ListenAdded |};
              {| sub_event := MEASUREMENT_UPDATED; sub_listener := ListenUpdated |};
              {| sub_event := MEASUREMENTS_CLEARED;
                 sub_listener := ListenCleared uniqueListenerId |} ] in
          ({| integration :=
                Some {| servicesManager := sm';
                        commandsManager := cm';
                        toolGroupIds := groups |};
              activePresetId := activePresetId cleared;
              activeTooth := activeTooth cleared;
              subscriptions := subs;
              lastInitializationId := Some uniqueListenerId |},
           (calls ++ map (fun s => subscribe (sub_event s) (sub_listener s)) subs)%list)
      end
  | _, _ => (st, [])
  end.

Definition teardownDentalMeasurements (st : ModuleState)
    : ModuleState * list HostCall :=
  let '(cleared, calls) := clearSubscriptions st in
  ({| integration := None;
      activePresetId := None;
      activeTooth := activeTooth cleared;
      subscriptions := subscriptions cleared;
      lastInitializationId := lastInitializationId cleared |},
   calls).

Definition selectDentalMeasurementPreset (presetId : string) (st : ModuleState)
    : ModuleState * list HostCall :=
  let st' := withActivePresetId (Some presetId) st in
  match findPreset (Some presetId), integration st' with
  | Some preset, Some ctx =>
      (st', [runCommand "setToolActive" (Preset.toolName preset)
               (toolGroupIds ctx) "CORNERSTONE"])
  | _, _ => (st', [])
  end.

Definition getActiveDentalPresetId (st : ModuleState) : option string :=
  activePresetId st.

Definition setActiveDentalTooth (selection : option Tooth.t) (st : ModuleState)
    : ModuleState :=
  {| integration := integration st;
     activePresetId := activePresetId st;
     activeTooth := selection;
     subscriptions := subscriptions st;
     lastInitializationId := lastInitializationId st |}.

Definition getActiveDentalTooth (st : ModuleState) : option Tooth.t :=
  activeTooth st.

(** The preset the re-scan infers from a display label: the first of the
    four patterns, tried in the order of the source, that the label
    contains. *)
Definition matchPresetByLabel (label : string) : option Preset.t :=
  if JS.test_ci "PA length" label then findPreset (Some "periapical-length")
  else if JS.test_ci "Canal angle" label then findPreset (Some "canal-angle")
  else if JS.test_ci "Crown width" label then findPreset (Some "crown-width")
  else if JS.test_ci "Root length" label then findPreset (Some "root-length")
  else None.

(** The tooth the re-scan reads out of a display label.  The Palmer match
    of the source is computed and never used. *)
Definition toothFromLabel (label : string) : option Tooth.t :=
  match JS.match_paren_digits "FDI" label with
  | Some digits => Some (Tooth.mk "FDI" digits)
  | None =>
      match JS.match_paren_digits "Universal" label with
      | Some digits => Some (Tooth.mk "UNIVERSAL" digits)
      | None => None
      end
  end.

Definition withMetadata (md : Metadata.t) (m : Measurement.t) : Measurement.t :=
  {| Measurement.uid := Measurement.uid m;
     Measurement.label := Measurement.label m;
     Measurement.metadata := Some md;
     Measurement.data := Measurement.data m;
     Measurement.cachedStats := Measurement.cachedStats m;
     Measurement.length := Measurement.length m;
     Measurement.angle := Measurement.angle m |}.

(** The display label the re-scan reads, [measurement?.label || '']. *)
Definition labelOf (measurement : Measurement.t) : string :=
  match JS.or_string (Measurement.label measurement) (Some "") with
  | Some l => l
  | None => ""
  end.

(** The body of the [forEach] of [enhanceExistingMeasurements]. *)
Definition enhanceMeasurement (now : Z) (measurement : Measurement.t)
    : list HostCall :=
  if measurementHasDentalMetadata measurement then []
  else
    let label := labelOf measurement in
    match matchPresetByLabel label with
    | None => []
    | Some matchedPreset =>
        let toothInfo := toothFromLabel label in
        let stamped := stampMetadata now matchedPreset measurement in
        let nextMetadata :=
          match toothInfo with
          | Some _ => withTooth toothInfo stamped
          | None => stamped
          end in
        [update (Measurement.uid measurement)
           (withMetadata nextMetadata measurement) true]
    end.

Definition enhanceExistingMeasurements (st : ModuleState) (now : Z)
    : list HostCall :=
  match getMeasurementService st with
  | None => []
  | Some service => flat_map (enhanceMeasurement now) (getMeasurements service)
  end.

(** What [measurementService.update(uid, m)] does to the measurements the
    host holds: the one with that uid is replaced. *)
Definition hostUpdate (store : list Measurement.t) (call : HostCall)
    : list Measurement.t :=
  match call with
  | update uid m _ =>
      map (fun x => if String.eqb (Measurement.uid x) uid then m else x) store
  | _ => store
  end.

Definition hostUpdates (calls : list HostCall) (store : list Measurement.t)
    : list Measurement.t :=
  fold_left hostUpdate calls store.

(** *** The manager as a machine

    What the host and the user interface can do to the module, one
    operation at a time.  [Emit] is the host calling a listener it was
    handed, current or stale. *)
Inductive Op : Type :=
| Initialize (sm : option ServicesManager) (cm : option CommandsManager)
    (groups : list string) (uuid : string)
| Teardown
| SelectPreset (presetId : string)
| SetTooth (selection : option Tooth.t)
| Enhance (now : Z)
| Emit (listener : Listener) (now : Z) (measurement : option Measurement.t).

Definition runListener (listener : Listener) (now : Z)
    (measurement : option Measurement.t) (st : ModuleState)
    : ModuleState * list HostCall :=
  match listener with
  | ListenAdded => (st, handleMeasurementAdded st now measurement)
  | ListenUpdated => (st, handleMeasurementUpdated st now measurement)
  | ListenCleared uniqueListenerId => (handleMeasurementsCleared uniqueListenerId st, [])
  end.

(** The host's side of an update: the update API of the measurement
    service "is expected to re-emit update notifications".
    [notify fuel st now listener m] is the calls issued when the host
    delivers [m] to [listener] and then, for every update it receives,
    delivers the updated measurement to the updated-listener, for at most
    [fuel] rounds. *)
Fixpoint notify (fuel : nat) (st : ModuleState) (now : Z) (listener : Listener)
    (m : Measurement.t) : list HostCall :=
  match fuel with
  | O => []
  | S fuel' =>
      let calls := snd (runListener listener now (Some m) st) in
      (calls ++
       flat_map (fun call =>
                   match call with
                   | update _ m' _ => notify fuel' st now ListenUpdated m'
                   | _ => []
                   end) calls)%list
  end.

Definition step (op : Op) (st : ModuleState) : ModuleState * list HostCall :=
  match op with
  | Initialize sm cm groups uuid => initializeDentalMeasurements sm cm groups uuid st
  | Teardown => teardownDentalMeasurements st
  | SelectPreset presetId => selectDentalMeasurementPreset presetId st
  | SetTooth selection => (setActiveDentalTooth selection st, [])
  | Enhance now => (st, enhanceExistingMeasurements st now)
  | Emit listener now measurement => runListener listener now measurement st
  end.

Fixpoint run (ops : list Op) (st : ModuleState) : ModuleState * list HostCall :=
  match ops with
  | [] => (st, [])
  | op :: ops' =>
      let '(st1, calls1) := step op st in
      let '(st2, calls2) := run ops' st1 in
      (st2, (calls1 ++ calls2)%list)
  end.

(** Whether [initializeDentalMeasurements] gets past its guard. *)
Definition initializes (sm : option ServicesManager) (cm : option CommandsManager)
    : bool :=
  match sm, cm with
  | Some sm', Some _ => JS.truthy_object (measurementService sm')
  | _, _ => false
  end.

(** The listener id of the last initialization of [ops] that got past its
    guard, [start] if there is none. *)
Fixpoint lastInitialization (ops : list Op) (start : option string) : option string :=
  match ops with
  | [] => start
  | Initialize sm cm _ uuid :: ops' =>
      lastInitialization ops'
        (if initializes sm cm then Some ("dental-measurements-" ++ uuid) else start)
  | _ :: ops' => lastInitialization ops' start
  end.

(** Whether an integration context is installed after [ops]: the last of
    the initializations that got past their guard and of the teardowns
    was an initialization. *)
Fixpoint installed (ops : list Op) (start : bool) : bool :=
  match ops with
  | [] => start
  | Initialize sm cm _ _ :: ops' => installed ops' (initializes sm cm || start)
  | Teardown :: ops' => installed ops' false
  | _ :: ops' => installed ops' start
  end.

(** The three subscriptions an initialization records, for the listener
    id it drew. *)
Definition listenersOf (uniqueListenerId : string) : list Subscription :=
  [ {| sub_event := MEASUREMENT_ADDED; sub_listener := ListenAdded |};
    {| sub_event := MEASUREMENT_UPDATED; sub_listener := ListenUpdated |};
    {| sub_event := MEASUREMENTS_CLEARED;
       sub_listener := ListenCleared uniqueListenerId |} ].

(** The subscriptions the module records are none, or the three of the
    initialization whose listener id it remembers. *)
Definition recordsCurrent (st : ModuleState) : Prop :=
  subscriptions st = []
  \/ exists id, lastInitializationId st = Some id /\ subscriptions st = listenersOf id.

Definition isSubscribe (call : HostCall) : bool :=
  match call with
  | subscribe _ _ => true
  | _ => false
  end.

Definition isUnsubscribe (call : HostCall) : bool :=
  match call with
  | unsubscribe _ => true
  | _ => false
  end.

(** A non-empty run of decimal digits, what [\d+] matches in full. *)
Fixpoint allDigits (s : string) : bool :=
  match s with
  | EmptyString => true
  | String c s' => JS.is_digit c && allDigits s'
  end.

Definition isNumeral (s : string) : bool :=
  negb (String.eqb s "") && allDigits s.

(** A tooth as the selector of the header produces them, or none: one of
    the two numbering systems and a numeral. *)
Definition selectable (tooth : option Tooth.t) : Prop :=
  match tooth with
  | Some t =>
      (Tooth.system t = "FDI" \/ Tooth.system t = "UNIVERSAL")
      /\ isNumeral (Tooth.value t) = true
  | None => True
  end.

End Manager.

(** ** DentalMeasurementsPanel.tsx *)

Module Panel.

(** One entry of the exported array.  In [value], [unit], [tooth] and
    [source] an absent value is the [null] the source writes. *)
Record ExportEntry : Type := {
  uid : string;
  label : option string;
  value : option JS.number;
  unit : option string;
  tooth : option Tooth.t;
  source : option string
}.

Definition exportEntry (measurement : Measurement.t) : ExportEntry :=
  let md := Measurement.metadata measurement in
  {| uid := Measurement.uid measurement;
     label := JS.or_string (Manager.metadata_field Metadata.dentalPresetLabel md)
                (Measurement.label measurement);
     value := JS.nullish (Manager.metadata_field Metadata.dentalValue md) None;
     unit := JS.nullish (Manager.metadata_field Metadata.dentalUnit md) None;
     tooth := JS.nullish (Manager.metadata_field Metadata.dentalTooth md) None;
     source := JS.nullish (Manager.metadata_field Metadata.dentalPresetId md) None |}.

(** The payload [handleExport] serialises, from the sorted measurements the
    panel shows. *)
Definition exportPayload (sortedMeasurements : list Measurement.t)
    : list ExportEntry :=
  map exportEntry sortedMeasurements.

(** The label patterns of the panel's filter, each as its [test]. *)
Definition dentalPatterns : list (string -> bool) :=
  [ JS.test_ci "PA length";
    JS.test_ci "Canal angle";
    JS.test_ci "Crown width";
    JS.test_ci "Root length";
    fun label => JS.truthy_object (JS.match_paren_digits "FDI" label);
    fun label => JS.truthy_object (JS.match_paren_digits "Universal" label) ].

(** The [measurementFilter] the panel hands to [useMeasurements]. *)
Definition measurementFilter (measurement : Measurement.t) : bool :=
  if JS.truthy_string
       (Manager.metadata_field Metadata.dentalPresetId
          (Measurement.metadata measurement))
  then true
  else
    let label := Manager.labelOf measurement in
    existsb (fun pattern => pattern label) dentalPatterns.

(** [filteredMeasurements], for the value of the preset select.  The
    regular expression built from the preset label is the label with
    every special character escaped, so it matches the label literally,
    case ignored. *)
Definition filteredMeasurements (presetFilter : string)
    (measurements : list Measurement.t) : list Measurement.t :=
  if String.eqb presetFilter "all" then measurements
  else
    filter
      (fun measurement =>
         if JS.strict_eq_opt String.eqb
              (Manager.metadata_field Metadata.dentalPresetId
                 (Measurement.metadata measurement))
              (Some presetFilter)
         then true
         else
           let label := Manager.labelOf measurement in
           match Manager.findPreset (Some presetFilter) with
           | Some preset => JS.test_ci (Preset.label preset) label
           | None => false
           end)
      measurements.

(** [aMeta.dentalCreatedAt || 0] *)
Definition createdAtOr0 (measurement : Measurement.t) : Z :=
  match Manager.metadata_field Metadata.dentalCreatedAt
          (Measurement.metadata measurement) with
  | Some t => t
  | None => 0
  end.

(** [aMeta.dentalValue || 0]: [NaN] is falsy. *)
Definition valueOr0 (measurement : Measurement.t) : Q :=
  match Manager.metadata_field Metadata.dentalValue
          (Measurement.metadata measurement) with
  | Some (JS.Fin q) => q
  | _ => 0
  end.

(** The comparator of [sortedMeasurements] for the value of the sort
    select; [localeCompare] is the host's string comparison. *)
Definition compareFn (localeCompare : string -> string -> Z) (sortOrder : string)
    (a b : Measurement.t) : Q :=
  if String.eqb sortOrder "oldest"
  then inject_Z (createdAtOr0 a - createdAtOr0 b)
  else if String.eqb sortOrder "label"
  then inject_Z (localeCompare (Manager.labelOf a) (Manager.labelOf b))
  else if String.eqb sortOrder "value"
  then (valueOr0 a - valueOr0 b)%Q
  else inject_Z (createdAtOr0 b - createdAtOr0 a).

Definition negative (q : Q) : bool := negb (Qle_bool 0 q).

(** [Array.prototype.sort] is stable: an element goes behind the ones the
    comparator puts strictly before it, and ahead of the rest of those
    that followed it. *)
Fixpoint insertBy {A : Type} (compare : A -> A -> Q) (x : A) (l : list A)
    : list A :=
  match l with
  | [] => [x]
  | y :: l' => if negative (compare y x) then y :: insertBy compare x l' else x :: l
  end.

Definition sortBy {A : Type} (compare : A -> A -> Q) (items : list A) : list A :=
  fold_right (insertBy compare) [] items.

Definition sortedMeasurements (localeCompare : string -> string -> Z)
    (sortOrder : string) (filtered : list Measurement.t) : list Measurement.t :=
  sortBy (compareFn localeCompare sortOrder) filtered.

(** A JSON value, as [JSON.stringify] writes one. *)
#[warnings="-register-all"]
Inductive Json : Type :=
| JNull
| JNumber (q : Q)
| JString (s : string)
| JObject (members : list (string * Json))
| JArray (elements : list Json).

(** [JSON.stringify] of a number or [null]: [NaN] has no JSON form and is
    written [null]. *)
Definition jsonNumber (v : option JS.number) : Json :=
  match v with
  | Some (JS.Fin q) => JNumber q
  | _ => JNull
  end.

Definition jsonString (v : option string) : Json :=
  match v with
  | Some s => JString s
  | None => JNull
  end.

Definition jsonTooth (v : option Tooth.t) : Json :=
  match v with
  | Some t =>
      JObject [("system", JString (Tooth.system t)); ("value", JString (Tooth.value t))]
  | None => JNull
  end.

(** [JSON.stringify] of an entry of the payload.  A property whose value
    is [undefined] is left out: that can be [label], which has no
    [?? null], when the measurement has neither a preset label nor a
    display label; the four properties with [?? null] are written
    [null] where absent. *)
Definition stringify (e : ExportEntry) : Json :=
  JObject
    ([("uid", JString (uid e))]
     ++ match label e with
        | Some l => [("label", JString l)]
        | None => []
        end
     ++ [("value", jsonNumber (value e));
         ("unit", jsonString (unit e));
         ("tooth", jsonTooth (tooth e));
         ("source", jsonString (source e))])%list.

(** The file the browser is made to download. *)
Record File : Type := {
  file_name : string;
  file_type : string;
  file_content : Json
}.

(** What [handleExport] writes for the measurements the hook returned and
    the two selects: the content of the file is the value whose text
    [JSON.stringify(exportPayload, null, 2)] is. *)
Definition handleExport (localeCompare : string -> string -> Z)
    (presetFilter sortOrder : string) (measurements : list Measurement.t)
    : File :=
  {| file_name := "dental-measurements.json";
     file_type := "application/json";
     file_content :=
       JArray
         (map stringify
            (exportPayload
               (sortedMeasurements localeCompare sortOrder
                  (filteredMeasurements presetFilter measurements)))) |}.

(** The elements of an array and a member of an object. *)
Definition elements (j : Json) : list Json :=
  match j with
  | JArray l => l
  | _ => []
  end.

Definition member (key : string) (j : Json) : option Json :=
  match j with
  | JObject members =>
      option_map snd (find (fun kv => String.eqb (fst kv) key) members)
  | _ => None
  end.

End Panel.

(** ** ToothSelector.tsx and the tooth state of DentalPracticeHeader.tsx *)

Module Selector.

Definition FDI_VALUES : list string :=
  [ "11"; "12"; "13"; "14"; "15"; "16"; "17"; "18";
    "21"; "22"; "23"; "24"; "25"; "26"; "27"; "28";
    "31"; "32"; "33"; "34"; "35"; "36"; "37"; "38";
    "41"; "42"; "43"; "44"; "45"; "46"; "47"; "48" ].

(** [Array.from({ length: 32 }).map((_, index) => `${index + 1}`)] *)
Definition UNIVERSAL_VALUES : list string :=
  map (fun index => NilEmpty.string_of_uint (Nat.to_uint (index + 1))) (seq 0 32).

(** [numberingSystems[system]], absent for a key the record does not
    have. *)
Definition numberingSystems (system : string) : option (list string) :=
  if String.eqb system "FDI" then Some FDI_VALUES
  else if String.eqb system "UNIVERSAL" then Some UNIVERSAL_VALUES
  else None.

(** What the selector can be asked for: a numbering system, or a tooth of
    the current one. *)
Inductive Pick : Type :=
| PickSystem (system : string)
| PickValue (value : string).

(** The two [onChange] handlers; reading the first tooth of a system the
    record does not have is a [TypeError], [None] here. *)
Definition onChange (selection : Tooth.t) (pick : Pick) : option Tooth.t :=
  match pick with
  | PickSystem system =>
      match numberingSystems system with
      | Some (first :: _) => Some (Tooth.mk system first)
      | _ => None
      end
  | PickValue value => Some (Tooth.mk (Tooth.system selection) value)
  end.

(** What the two select elements offer: the two systems, and the teeth of
    the system of the selection. *)
Definition offered (selection : Tooth.t) (pick : Pick) : bool :=
  match pick with
  | PickSystem system => existsb (String.eqb system) ["FDI"; "UNIVERSAL"]
  | PickValue value =>
      match numberingSystems (Tooth.system selection) with
      | Some options => existsb (String.eqb value) options
      | None => false
      end
  end.

(** The initial state of the header,
    [getActiveDentalTooth() || { system: 'FDI', value: '11' }]. *)
Definition initialSelection (st : Manager.ModuleState) : Tooth.t :=
  match Manager.getActiveDentalTooth st with
  | Some tooth => tooth
  | None => Tooth.mk "FDI" "11"
  end.

(** The effect of the header: the selection is published to the manager
    whenever it changes, and once at mount. *)
Definition publish (selection : Tooth.t) (st : Manager.ModuleState)
    : Manager.ModuleState :=
  Manager.setActiveDentalTooth (Some selection) st.

(** The header over a sequence of picks: the selection it ends with and
    the module state it leaves; a pick that throws leaves both. *)
Fixpoint picks (l : list Pick) (selection : Tooth.t) (st : Manager.ModuleState)
    : Tooth.t * Manager.ModuleState :=
  match l with
  | [] => (selection, st)
  | pick :: l' =>
      match onChange selection pick with
      | Some selection' => picks l' selection' (publish selection' st)
      | None => picks l' selection st
      end
  end.

(** The header mounted over the module state [st], then used. *)
Definition header (l : list Pick) (st : Manager.ModuleState)
    : Tooth.t * Manager.ModuleState :=
  picks l (initialSelection st) (publish (initialSelection st) st).

(** Every pick of [l] is one the selects offer at the time. *)
Fixpoint allOffered (l : list Pick) (selection : Tooth.t) : bool :=
  match l with
  | [] => true
  | pick :: l' =>
      offered selection pick
      && match onChange selection pick with
         | Some selection' => allOffered l' selection'
         | None => false
         end
  end.

End Selector.

(** ** The backend *)

(** Object ids in their [toString()] form. *)
Definition ObjectId : Type := string.

(** The cast of a string to an object id, which the schema does to an id
    a query or a document is given: 24 hexadecimal digits, read without
    regard to case and printed in lower case; any other string is a
    [CastError]. *)
Definition hexDigit (c : ascii) : option ascii :=
  let n := nat_of_ascii c in
  if ((48 <=? n)%nat && (n <=? 57)%nat) || ((97 <=? n)%nat && (n <=? 102)%nat)
  then Some c
  else if (65 <=? n)%nat && (n <=? 70)%nat then Some (ascii_of_nat (n + 32))
  else None.

Fixpoint hexDigits (s : string) : option string :=
  match s with
  | EmptyString => Some EmptyString
  | String c s' =>
      match hexDigit c, hexDigits s' with
      | Some c', Some t => Some (String c' t)
      | _, _ => None
      end
  end.

Definition castObjectId (s : string) : option ObjectId :=
  if (String.length s =? 24)%nat then hexDigits s else None.

(** What a route answers: the HTTP status and the JSON body. *)
Module Http.

Inductive Body : Type :=
| Error (error : string)
| ValidationFailed
| AnnotationBody (message : option string) (annotationId : ObjectId)
| AudioFile (filename : string)
| SharedBody (message : string) (grants : list (ObjectId * string))
| StateSaved (message : string) (stateId : ObjectId) (version : Z) (timestamp : Z)
| AutoSaveDone (success : bool) (stateId : ObjectId) (version : Z)
| AutoSaveFailed (success : bool) (error : string).

Record Response : Type := {
  status : nat;
  body : Body
}.

(** The [version] a body reports, where it reports one. *)
Definition versionOf (b : Body) : option Z :=
  match b with
  | StateSaved _ _ v _ => Some v
  | AutoSaveDone _ _ v => Some v
  | _ => None
  end.

(** [res.json(b)] leaves the status at its default. *)
Definition json (b : Body) : Response := {| status := 200; body := b |}.

(** A rejected promise or a thrown error; [code] is the driver's error
    code, 11000 for a duplicate key. *)
Inductive Result (A : Type) : Type :=
| Ok (a : A)
| Throw (code : option Z).
Arguments Ok {A} a.
Arguments Throw {A} code.

Definition bind {A B : Type} (r : Result A) (k : A -> Result B) : Result B :=
  match r with
  | Ok a => k a
  | Throw c => Throw c
  end.

(** The JSON body of the routes that answer an error, a bare message or
    data of their own, [A]. *)
Inductive Answer (A : Type) : Type :=
| Failed (error : string)
| Invalid
| Message (message : string)
| Data (data : A).
Arguments Failed {A} error.
Arguments Invalid {A}.
Arguments Message {A} message.
Arguments Data {A} data.

Record Reply (A : Type) : Type := {
  code : nat;
  answer : Answer A
}.
Arguments code {A} r.
Arguments answer {A} r.

(** [res.status(n).json(b)] *)
Definition reply {A : Type} (n : nat) (b : Answer A) : Reply A :=
  {| code := n; answer := b |}.

End Http.

Notation "x <- r ;; k" := (Http.bind r (fun x => k))
  (at level 61, r at next level, right associativity).

Module Annotations.

Inductive Permission : Type := read | write.

Definition permission_name (p : Permission) : string :=
  match p with read => "read" | write => "write" end.

(** The fields of a user that the routes select when they populate. *)
Record User : Type := {
  user_id : ObjectId;
  firstName : string;
  lastName : string
}.

(** A reference to a user, as a document in memory holds it: the id the
    collection stores, or, once [populate] has run, the user document it
    found, or [null] where it found none. *)
Inductive UserRef : Type :=
| Unpopulated (id : ObjectId)
| Populated (user : User)
| Missing (id : ObjectId).

Definition refId (r : UserRef) : ObjectId :=
  match r with
  | Unpopulated id => id
  | Populated user => user_id user
  | Missing id => id
  end.

(** [toString()] of a user document is the inspection string of the
    document, not its id.  The layout is that of [util.inspect]; all that
    matters of it is that it opens with a brace. *)
Definition inspect (user : User) : string :=
  "{ _id: new ObjectId('" ++ user_id user ++ "'), profile: { firstName: '"
  ++ firstName user ++ "', lastName: '" ++ lastName user ++ "' } }".

(** [r.toString()]: the id of an id, the inspection string of a document,
    a [TypeError] on [null]. *)
Definition toString (r : UserRef) : Http.Result string :=
  match r with
  | Unpopulated id => Http.Ok id
  | Populated user => Http.Ok (inspect user)
  | Missing _ => Http.Throw None
  end.

Record SharedEntry : Type := {
  share_userId : UserRef;
  permission : Permission;
  sharedAt : Z
}.

Record Content : Type := {
  text : option string;
  audioFilename : option string
}.

(** An annotation, with the fields the access rule, the hook and the
    validators of the routes look at; the tooth, the instance ids, the
    metadata and the review are left out. *)
Record Annotation : Type := {
  _id : ObjectId;
  userId : UserRef;
  studyInstanceUID : string;
  content : Content;
  category : string;
  status : string;
  priority : string;
  tags : list string;
  isPrivate : bool;
  sharedWith : list SharedEntry
}.

(** [sharedWith.find(entry => entry.userId.toString() === userId.toString())] *)
Fixpoint findEntry (user : ObjectId) (l : list SharedEntry)
    : Http.Result (option SharedEntry) :=
  match l with
  | [] => Http.Ok None
  | entry :: l' =>
      s <- toString (share_userId entry) ;;
      if String.eqb s user then Http.Ok (Some entry) else findEntry user l'
  end.

Definition canAccess (this : Annotation) (user : ObjectId) (perm : Permission)
    : Http.Result bool :=
  owner <- toString (userId this) ;;
  if String.eqb owner user then Http.Ok true
  else if isPrivate this then Http.Ok false
  else
    sharedEntry <- findEntry user (sharedWith this) ;;
    match sharedEntry with
    | None => Http.Ok false
    | Some entry =>
        match perm with
        | write =>
            Http.Ok (match permission entry with write => true | read => false end)
        | read => Http.Ok true
        end
    end.

(** [user] has an entry with permission [perm] in the share list. *)
Definition holdsGrant (this : Annotation) (user : ObjectId) (perm : Permission)
    : Prop :=
  exists entry,
    In entry (sharedWith this)
    /\ refId (share_userId entry) = user /\ permission entry = perm.

(** The share list has one entry per user at most. *)
Definition perUser (this : Annotation) : Prop :=
  NoDup (map (fun entry => refId (share_userId entry)) (sharedWith this)).

(** Object ids print as 24 hexadecimal digits. *)
Definition isHex (c : ascii) : bool :=
  let n := nat_of_ascii c in
  ((48 <=? n)%nat && (n <=? 57)%nat) || ((97 <=? n)%nat && (n <=? 102)%nat).

Fixpoint allHex (s : string) : bool :=
  match s with
  | EmptyString => true
  | String c s' => isHex c && allHex s'
  end.

Definition isObjectId (s : string) : bool :=
  (String.length s =? 24)%nat && allHex s.

Definition isIn (allowed : list string) (s : string) : bool :=
  existsb (String.eqb s) allowed.

Definition categories : list string := ["diagnosis"; "treatment"; "observation"; "note"].
Definition statuses : list string := ["draft"; "final"; "reviewed"; "archived"].
Definition priorities : list string := ["low"; "normal"; "high"; "urgent"].

(** A string of ASCII characters takes one byte per character, and its
    length in bytes is its length for JavaScript and for the validators. *)
Definition isAscii (s : string) : bool :=
  forallb (fun c => (nat_of_ascii c <? 128)%nat) (list_ascii_of_string s).

(** The length check of the validators, on the length in bytes. *)
Definition lengthBetween (lo hi : nat) (s : string) : bool :=
  (lo <=? String.length s)%nat && (String.length s <=? hi)%nat.

(** The schema's validators, run by [save()]: [content.text] is
    required and has a maximal length, three fields are enumerated, and a
    tag has a maximal length. *)
Definition schemaValid (a : Annotation) : bool :=
  match text (content a) with
  | Some t => lengthBetween 1 2000 t
  | None => false
  end
  && isIn categories (category a)
  && isIn statuses (status a)
  && isIn priorities (priority a)
  && forallb (fun tag => (String.length tag <=? 50)%nat) (tags a).

(** [String.prototype.toLowerCase], as far as ASCII goes. *)
Definition toLowerChar (c : ascii) : ascii :=
  let n := nat_of_ascii c in
  if (65 <=? n)%nat && (n <=? 90)%nat then ascii_of_nat (n + 32) else c.

Fixpoint toLowerCase (s : string) : string :=
  match s with
  | EmptyString => EmptyString
  | String c s' => String (toLowerChar c) (toLowerCase s')
  end.

(** [[...new Set(l)]]: first occurrences, in order. *)
Fixpoint unique (seen l : list string) : list string :=
  match l with
  | [] => []
  | x :: l' =>
      if existsb (String.eqb x) seen then unique seen l'
      else x :: unique (x :: seen) l'
  end.

Definition withTags (ts : list string) (a : Annotation) : Annotation :=
  {| _id := _id a; userId := userId a; studyInstanceUID := studyInstanceUID a;
     content := content a; category := category a; status := status a;
     priority := priority a; tags := ts; isPrivate := isPrivate a;
     sharedWith := sharedWith a |}.

(** The [pre('save')] hook: the tags it assigns go through the [trim]
    setter of the schema, as every tag that is assigned does. *)
Definition preSave (a : Annotation) : Annotation :=
  withTags (map JS.trim (unique [] (map toLowerCase (tags a)))) a.

Definition depopulateEntry (entry : SharedEntry) : SharedEntry :=
  {| share_userId := Unpopulated (refId (share_userId entry));
     permission := permission entry;
     sharedAt := sharedAt entry |}.

(** A document as the collection holds it: every reference is an id. *)
Definition depopulate (a : Annotation) : Annotation :=
  {| _id := _id a; userId := Unpopulated (refId (userId a));
     studyInstanceUID := studyInstanceUID a;
     content := content a; category := category a; status := status a;
     priority := priority a; tags := tags a; isPrivate := isPrivate a;
     sharedWith := map depopulateEntry (sharedWith a) |}.

(** The two collections; [online] is false when the database cannot be
    reached. *)
Record Db : Type := {
  annotations : list Annotation;
  users : list User;
  online : bool
}.

(** A database that is reached can still fail one operation of a
    request: the write of [save()], the query of a [populate] that runs
    after the write, or the deletion. *)
Inductive Fault : Type :=
| NoFault
| SaveFails
| PopulateFails
| DeleteFails.

(** [Annotation.findById(id)]: the id is cast to an object id, and one
    that is none makes the query throw. *)
Definition findById (db : Db) (id : ObjectId) : Http.Result (option Annotation) :=
  if online db
  then
    match castObjectId id with
    | Some id' =>
        Http.Ok (option_map depopulate
                   (find (fun a => String.eqb (_id a) id') (annotations db)))
    | None => Http.Throw None
    end
  else Http.Throw None.

(** [.populate(path, 'profile.firstName profile.lastName')] on one
    reference. *)
Definition populateRef (db : Db) (r : UserRef) : UserRef :=
  match find (fun u => String.eqb (user_id u) (refId r)) (users db) with
  | Some user => Populated user
  | None => Missing (refId r)
  end.

Definition populateEntry (db : Db) (entry : SharedEntry) : SharedEntry :=
  {| share_userId := populateRef db (share_userId entry);
     permission := permission entry;
     sharedAt := sharedAt entry |}.

(** [.populate('userId', ...).populate('sharedWith.userId', ...)] *)
Definition populate (db : Db) (a : Annotation) : Annotation :=
  {| _id := _id a; userId := populateRef db (userId a);
     studyInstanceUID := studyInstanceUID a;
     content := content a; category := category a; status := status a;
     priority := priority a; tags := tags a; isPrivate := isPrivate a;
     sharedWith := map (populateEntry db) (sharedWith a) |}.

Fixpoint replace (a : Annotation) (l : list Annotation) : list Annotation :=
  match l with
  | [] => []
  | b :: l' => if String.eqb (_id b) (_id a) then a :: l' else b :: replace a l'
  end.

(** [annotation.save()] on a document that was read from the collection:
    the validators, the hook, then the write. *)
Definition save (fault : Fault) (db : Db) (a : Annotation)
    : Http.Result (Db * Annotation) :=
  match fault with
  | SaveFails => Http.Throw None
  | _ =>
      if online db && schemaValid a
      then
        let saved := depopulate (preSave a) in
        Http.Ok ({| annotations := replace saved (annotations db);
                    users := users db; online := online db |},
                 saved)
      else Http.Throw None
  end.

(** [annotation.populate('userId', ...)] on the document just saved: a
    query, whose result goes into the answer only. *)
Definition populated (fault : Fault) : Http.Result unit :=
  match fault with
  | PopulateFails => Http.Throw None
  | _ => Http.Ok tt
  end.

(** The fields of the body of [PUT /:id] that the route looks at. *)
Record UpdateBody : Type := {
  new_content : option Content;
  new_category : option string;
  new_status : option string;
  new_priority : option string;
  new_tags : option (list string);
  new_isPrivate : option bool
}.

Definition optional {A : Type} (check : A -> bool) (v : option A) : bool :=
  match v with
  | Some x => check x
  | None => true
  end.

(** [updateAnnotationValidation] *)
Definition updateAnnotationValidation (b : UpdateBody) : bool :=
  optional (lengthBetween 1 2000)
    (match new_content b with Some c => text c | None => None end)
  && optional (isIn categories) (new_category b)
  && optional (isIn statuses) (new_status b)
  && optional (isIn priorities) (new_priority b).

Definition orElse {A : Type} (v : option A) (d : A) : A :=
  match v with Some x => x | None => d end.

(** [content.text] goes through the [trim] setter of the schema when a
    content is assigned. *)
Definition trimmed (c : Content) : Content :=
  {| text := option_map JS.trim (text c); audioFilename := audioFilename c |}.

(** [Object.assign(annotation, updates)], with the setters of the schema:
    an assigned content replaces the content, and its text and the
    assigned tags are trimmed. *)
Definition assign (b : UpdateBody) (a : Annotation) : Annotation :=
  {| _id := _id a; userId := userId a; studyInstanceUID := studyInstanceUID a;
     content := orElse (option_map trimmed (new_content b)) (content a);
     category := orElse (new_category b) (category a);
     status := orElse (new_status b) (status a);
     priority := orElse (new_priority b) (priority a);
     tags := orElse (option_map (map JS.trim) (new_tags b)) (tags a);
     isPrivate := orElse (new_isPrivate b) (isPrivate a);
     sharedWith := sharedWith a |}.

(** The [catch] of a route: whatever was thrown, the answer is 500 and the
    collection is as it was. *)
Definition caught {A : Type} (r : Http.Result (A * Http.Response)) (fallback : A)
    (message : string) : A * Http.Response :=
  match r with
  | Http.Ok out => out
  | Http.Throw _ => (fallback, {| Http.status := 500; Http.body := Http.Error message |})
  end.

(** [GET /api/annotations/:id], for the authenticated [user]: the access
    check runs on the populated document. *)
Definition getAnnotation (db : Db) (user id : ObjectId) : Http.Response :=
  snd (caught
    (found <- findById db id ;;
     match option_map (populate db) found with
     | None =>
         Http.Ok (tt, {| Http.status := 404;
                         Http.body := Http.Error "Annotation not found" |})
     | Some annotation =>
         allowed <- canAccess annotation user read ;;
         if negb allowed
         then Http.Ok (tt, {| Http.status := 403;
                              Http.body := Http.Error "Access denied" |})
         else Http.Ok (tt, Http.json (Http.AnnotationBody None (_id annotation)))
     end)
    tt "Failed to retrieve annotation").

(** [PUT /api/annotations/:id], for the authenticated [user]: the access
    check runs on the document as it was read.  The document is saved,
    then populated for the answer; what is thrown then is answered with
    500 as well, with the document written. *)
Definition putAnnotationWhen (fault : Fault) (db : Db) (user id : ObjectId)
    (b : UpdateBody) : Db * Http.Response :=
  caught
    (if negb (updateAnnotationValidation b)
     then Http.Ok (db, {| Http.status := 400; Http.body := Http.ValidationFailed |})
     else
       found <- findById db id ;;
       match found with
       | None =>
           Http.Ok (db, {| Http.status := 404;
                           Http.body := Http.Error "Annotation not found" |})
       | Some annotation =>
           allowed <- canAccess annotation user write ;;
           if negb allowed
           then Http.Ok (db, {| Http.status := 403;
                                Http.body := Http.Error "Access denied" |})
           else
             saved <- save fault db (assign b annotation) ;;
             match populated fault with
             | Http.Throw _ =>
                 Http.Ok (fst saved,
                          {| Http.status := 500;
                             Http.body := Http.Error "Failed to update annotation" |})
             | Http.Ok _ =>
                 Http.Ok (fst saved,
                          Http.json (Http.AnnotationBody
                                       (Some "Annotation updated successfully")
                                       (_id (snd saved))))
             end
       end)
    db "Failed to update annotation".

(** The route on a database that fails no operation. *)
Definition putAnnotation (db : Db) (user id : ObjectId) (b : UpdateBody)
    : Db * Http.Response :=
  putAnnotationWhen NoFault db user id b.

(** [GET /api/annotations/audio/:filename], for the authenticated [user]:
    the annotation is found by the file name and is not populated;
    [onDisk] is whether the file is there. *)
Definition getAudio (db : Db) (onDisk : bool) (user : ObjectId) (filename : string)
    : Http.Response :=
  snd (caught
    (if online db
     then
       match option_map depopulate
               (find (fun a => match audioFilename (content a) with
                               | Some f => String.eqb f filename
                               | None => false
                               end) (annotations db)) with
       | None =>
           Http.Ok (tt, {| Http.status := 404;
                           Http.body := Http.Error "Audio file not found" |})
       | Some annotation =>
           allowed <- canAccess annotation user read ;;
           if negb allowed
           then Http.Ok (tt, {| Http.status := 403;
                                Http.body := Http.Error "Access denied" |})
           else if negb onDisk
           then Http.Ok (tt, {| Http.status := 404;
                                Http.body := Http.Error "Audio file not found on disk" |})
           else Http.Ok (tt, Http.json (Http.AudioFile filename))
       end
     else Http.Throw None)
    tt "Failed to serve audio file").

Definition withSharedWith (l : list SharedEntry) (a : Annotation) : Annotation :=
  {| _id := _id a; userId := userId a; studyInstanceUID := studyInstanceUID a;
     content := content a; category := category a; status := status a;
     priority := priority a; tags := tags a; isPrivate := isPrivate a;
     sharedWith := l |}.

(** One round of the [forEach] of the share route: the entry whose user
    prints as [target] is overwritten where there is one; otherwise an
    entry is appended, whose user is [target] cast to an object id.  A
    target that is none makes the save throw, and the request with it. *)
Fixpoint grant (target : string) (perm : Permission) (now : Z)
    (l : list SharedEntry) : Http.Result (list SharedEntry) :=
  match l with
  | [] =>
      match castObjectId target with
      | Some id =>
          Http.Ok [ {| share_userId := Unpopulated id; permission := perm;
                       sharedAt := now |} ]
      | None => Http.Throw None
      end
  | share :: l' =>
      s <- toString (share_userId share) ;;
      if String.eqb s target
      then Http.Ok ({| share_userId := share_userId share; permission := perm;
                       sharedAt := sharedAt share |} :: l')
      else rest <- grant target perm now l' ;; Http.Ok (share :: rest)
  end.

Fixpoint grantAll (userIds : list string) (perm : Permission) (now : Z)
    (l : list SharedEntry) : Http.Result (list SharedEntry) :=
  match userIds with
  | [] => Http.Ok l
  | target :: rest =>
      l' <- grant target perm now l ;; grantAll rest perm now l'
  end.

(** [POST /api/annotations/:id/share] with a body that passed validation. *)
Definition shareAnnotationWhen (fault : Fault) (db : Db) (now : Z)
    (user id : ObjectId) (userIds : list string) (perm : Permission)
    : Db * Http.Response :=
  caught
    (found <- findById db id ;;
     match found with
     | None =>
         Http.Ok (db, {| Http.status := 404;
                         Http.body := Http.Error "Annotation not found" |})
     | Some annotation =>
         owner <- toString (userId annotation) ;;
         if negb (String.eqb owner user)
         then Http.Ok (db, {| Http.status := 403;
                              Http.body := Http.Error
                                "Access denied. Only the owner can share this annotation." |})
         else
           shared <- grantAll userIds perm now (sharedWith annotation) ;;
           saved <- save fault db (withSharedWith shared annotation) ;;
           Http.Ok (fst saved,
                    Http.json (Http.SharedBody "Annotation shared successfully"
                      (map (fun e => (refId (share_userId e),
                                      permission_name (permission e)))
                         (sharedWith (snd saved)))))
     end)
    db "Failed to share annotation".

(** The route on a database that fails no operation. *)
Definition shareAnnotation (db : Db) (now : Z) (user id : ObjectId)
    (userIds : list string) (perm : Permission) : Db * Http.Response :=
  shareAnnotationWhen NoFault db now user id userIds perm.

(** The [catch] of a route that answers a [Reply]. *)
Definition rescued {A B : Type} (r : Http.Result (A * Http.Reply B)) (fallback : A)
    (message : string) : A * Http.Reply B :=
  match r with
  | Http.Ok out => out
  | Http.Throw _ => (fallback, Http.reply 500 (Http.Failed message))
  end.

(** [Annotation.deleteOne({ _id: id })]: the first document with the id
    goes. *)
Fixpoint deleteOne (id : ObjectId) (l : list Annotation) : list Annotation :=
  match l with
  | [] => []
  | a :: l' => if String.eqb (_id a) id then l' else a :: deleteOne id l'
  end.

(** The segments of a path, which [/] separates. *)
Fixpoint segments (current : string) (s : string) : list string :=
  match s with
  | EmptyString => [current]
  | String c s' =>
      if Ascii.eqb c "/"%char then current :: segments "" s'
      else segments (current ++ String c "") s'
  end.

(** [path.join] normalises: an empty segment and [.] go, and [..] takes
    the segment before it, or stays where none is before it. *)
Fixpoint normalised (done : list string) (todo : list string) : list string :=
  match todo with
  | [] => rev done
  | segment :: todo' =>
      if String.eqb segment "" || String.eqb segment "."
      then normalised done todo'
      else if String.eqb segment ".."
      then
        match done with
        | [] => normalised [".."] todo'
        | before :: done' =>
            if String.eqb before ".." then normalised (".." :: done) todo'
            else normalised done' todo'
        end
      else normalised (segment :: done) todo'
  end.

(** [path.join(uploads, filename)] as the path of a file, from the upload
    directory: none for the directory itself, for a directory above it
    and for a path that ends in a separator, which name no file. *)
Definition joined (filename : string) : option string :=
  let parts := segments "" filename in
  let path := normalised [] parts in
  match path with
  | [] => None
  | _ :: _ =>
      if String.eqb (last parts "") "" || String.eqb (last path "") ".."
      then None
      else Some (String.concat "/" path)
  end.

(** The files are listed by their paths from the upload directory, so
    that a file in the directory is listed by its name.
    [fs.unlink(path.join(uploads, filename)).catch(console.error)]: the
    file of that path goes if it is there, and a failure is logged and
    swallowed. *)
Definition unlink (filename : string) (disk : list string) : list string :=
  match joined filename with
  | Some file => filter (fun f => negb (String.eqb f file)) disk
  | None => disk
  end.

(** [DELETE /api/annotations/:id], for the authenticated [user]: the
    recording is unlinked, then the document is deleted, under the id of
    the request, which is cast as it was for the query and so is the id
    of the document found. *)
Definition deleteAnnotation (fault : Fault) (db : Db) (disk : list string)
    (user id : ObjectId) : (Db * list string) * Http.Reply unit :=
  rescued
    (found <- findById db id ;;
     match found with
     | None =>
         Http.Ok ((db, disk),
                  Http.reply 404 (Http.Failed "Annotation not found"))
     | Some annotation =>
         owner <- toString (userId annotation) ;;
         if negb (String.eqb owner user)
         then Http.Ok ((db, disk),
                       Http.reply 403
                         (Http.Failed
                            "Access denied. Only the owner can delete this annotation."))
         else
           let disk' :=
             match audioFilename (content annotation) with
             | Some filename =>
                 if JS.truthy_string (Some filename) then unlink filename disk
                 else disk
             | None => disk
             end in
           match fault with
           | DeleteFails =>
               Http.Ok ((db, disk'),
                        Http.reply 500 (Http.Failed "Failed to delete annotation"))
           | _ =>
               Http.Ok (({| annotations :=
                              deleteOne (_id annotation) (annotations db);
                            users := users db; online := online db |}, disk'),
                        Http.reply 200
                          (Http.Message "Annotation deleted successfully"))
           end
     end)
    (db, disk) "Failed to delete annotation".

(** [isPrivate] as a request body carries it: a string in a form, a
    boolean in JSON. *)
Inductive Flag : Type :=
| FlagString (s : string)
| FlagBool (b : bool).

(** The fields of the body of [POST /] that the route looks at, for a
    body whose [tooth], [content] and [tags] are objects. *)
Record CreateBody : Type := {
  create_studyInstanceUID : option string;
  create_toothSystem : option string;
  create_toothValue : option string;
  create_category : option string;
  create_content : option Content;
  create_priority : option string;
  create_tags : option (list string);
  create_isPrivate : option Flag
}.

Definition required (check : string -> bool) (v : option string) : bool :=
  match v with
  | Some x => check x
  | None => check ""
  end.

(** [createAnnotationValidation]: an absent field is validated as the
    empty string. *)
Definition createAnnotationValidation (b : CreateBody) : bool :=
  required (fun s => negb (String.eqb s "")) (create_studyInstanceUID b)
  && required (isIn ["FDI"; "Universal"]) (create_toothSystem b)
  && required (fun s => negb (String.eqb s "")) (create_toothValue b)
  && required (isIn categories) (create_category b)
  && required (lengthBetween 1 2000)
       (match create_content b with Some c => text c | None => None end)
  && optional (isIn priorities) (create_priority b)
  && optional (forallb (fun tag => (String.length tag <=? 50)%nat)) (create_tags b).

(** [isPrivate === 'true' || isPrivate === true] *)
Definition parsePrivate (flag : option Flag) : bool :=
  match flag with
  | Some (FlagString s) => String.eqb s "true"
  | Some (FlagBool b) => b
  | None => false
  end.

(** [new Annotation(annotationData)], with the setters and the defaults
    of the schema; [upload] is the name of the uploaded file. *)
Definition newAnnotation (freshId user : ObjectId) (upload : option string)
    (study category : string) (c : Content) (b : CreateBody) : Annotation :=
  {| _id := freshId;
     userId := Unpopulated user;
     studyInstanceUID := JS.trim study;
     content :=
       {| text := option_map JS.trim (text c);
          audioFilename :=
            match upload with
            | Some filename => Some filename
            | None => audioFilename c
            end |};
     category := category;
     status := "draft";
     priority := orElse (JS.or_string (create_priority b) (Some "normal")) "normal";
     tags := map JS.trim (orElse (create_tags b) []);
     isPrivate := parsePrivate (create_isPrivate b);
     sharedWith := [] |}.

(** [annotation.save()] on a new document: the validators of the schema,
    the hook, then the insertion, which the index on [_id] can refuse. *)
Definition insert (fault : Fault) (db : Db) (toothValue : string) (a : Annotation)
    : Http.Result (Db * Annotation) :=
  match fault with
  | SaveFails => Http.Throw None
  | _ =>
      if online db
         && schemaValid a
         && negb (String.eqb (studyInstanceUID a) "")
         && negb (String.eqb (JS.trim toothValue) "")
      then
        if existsb (fun x => String.eqb (_id x) (_id a)) (annotations db)
        then Http.Throw (Some 11000%Z)
        else
          let saved := depopulate (preSave a) in
          Http.Ok ({| annotations := (annotations db ++ [saved])%list;
                      users := users db; online := online db |},
                   saved)
      else Http.Throw None
  end.

(** [POST /api/annotations], for the authenticated [user]; [upload] is
    the name of the audio file the upload middleware has put in the
    upload directory, [freshId] the id the new document gets.  The
    document is saved, then populated for the answer; whatever is thrown,
    before the write or after it, the uploaded file is unlinked and the
    answer is 500. *)
Definition createAnnotation (fault : Fault) (db : Db) (disk : list string)
    (freshId user : ObjectId) (upload : option string) (b : CreateBody)
    : (Db * list string) * Http.Response :=
  let cleaned :=
    match upload with
    | Some filename => unlink filename disk
    | None => disk
    end in
  if negb (createAnnotationValidation b)
  then ((db, cleaned), {| Http.status := 400; Http.body := Http.ValidationFailed |})
  else
    match create_studyInstanceUID b, create_toothValue b, create_category b,
          create_content b with
    | Some study, Some toothValue, Some category, Some c =>
        match insert fault db toothValue
                (newAnnotation freshId user upload study category c b)
        with
        | Http.Ok (db', saved) =>
            match populated fault with
            | Http.Ok _ =>
                ((db', disk),
                 {| Http.status := 201;
                    Http.body := Http.AnnotationBody
                                   (Some "Annotation created successfully")
                                   (_id saved) |})
            | Http.Throw _ =>
                ((db', cleaned),
                 {| Http.status := 500;
                    Http.body := Http.Error "Failed to create annotation" |})
            end
        | Http.Throw _ =>
            ((db, cleaned),
             {| Http.status := 500;
                Http.body := Http.Error "Failed to create annotation" |})
        end
    | _, _, _, _ =>
        ((db, cleaned), {| Http.status := 400; Http.body := Http.ValidationFailed |})
    end.

(** The text and the tags of the body are ASCII, so that the validators
    measure them in bytes. *)
Definition asciiBody (b : CreateBody) : bool :=
  optional isAscii (match create_content b with Some c => text c | None => None end)
  && optional (forallb isAscii) (create_tags b).


(** The grants a document records: who, what, since when. *)
Definition grantsOf (a : Annotation) : list (ObjectId * Permission * Z) :=
  map (fun e => (refId (share_userId e), permission e, sharedAt e)) (sharedWith a).

(** [user] has an entry with permission [perm] in the list. *)
Definition granted (l : list SharedEntry) (user : ObjectId) (perm : Permission) : Prop :=
  exists e, In e l /\ refId (share_userId e) = user /\ permission e = perm.

End Annotations.

Module ViewerStates.

(** The [state] sub-document: the two enumerated fields the schema
    validates, the fields it gives a default (the theme, the numbering
    system of the selected tooth, the rows and columns of the layout, and
    the two arrays, which are empty by default), and the rest of the
    viewer state, which has neither validator nor default.  An element
    of an array and the rest are taken as the schema casts them. *)
Record State : Type := {
  theme : option string;
  toothSystem : option string;
  numRows : option Z;
  numCols : option Z;
  viewports : option (list string);
  measurements : option (list string);
  rest : string
}.

Definition orDefault {A : Type} (v : option A) (d : A) : option A :=
  match v with
  | Some x => Some x
  | None => Some d
  end.

(** The defaults of the schema, which a document gets when it is
    constructed, for the paths that have no value. *)
Definition withDefaults (st : State) : State :=
  {| theme := orDefault (theme st) "dental";
     toothSystem := orDefault (toothSystem st) "FDI";
     numRows := orDefault (numRows st) 2%Z;
     numCols := orDefault (numCols st) 2%Z;
     viewports := orDefault (viewports st) [];
     measurements := orDefault (measurements st) [];
     rest := rest st |}.

Record ViewerState : Type := {
  _id : ObjectId;
  userId : ObjectId;
  studyInstanceUID : string;
  sessionId : string;
  state : State;
  autoSaved : bool;
  version : Z;
  createdAt : Z;
  updatedAt : Z
}.

(** A document read from the collection: the document in memory is
    constructed with the defaults of the schema and then takes the stored
    values, so that a path the stored document lacks has its default. *)
Definition hydrate (d : ViewerState) : ViewerState :=
  {| _id := _id d; userId := userId d;
     studyInstanceUID := studyInstanceUID d; sessionId := sessionId d;
     state := withDefaults (state d); autoSaved := autoSaved d;
     version := version d; createdAt := createdAt d; updatedAt := updatedAt d |}.

(** The enum validators of the schema. *)
Definition stateValid (st : State) : bool :=
  Annotations.optional (Annotations.isIn ["standard"; "dental"]) (theme st)
  && Annotations.optional (Annotations.isIn ["FDI"; "Universal"]) (toothSystem st).

(** The [required] validators of the two strings of the key, which run
    on what the [trim] setter left. *)
Definition keysPresent (d : ViewerState) : bool :=
  negb (String.eqb (studyInstanceUID d) "") && negb (String.eqb (sessionId d) "").

(** A document in memory, with the change tracking of the ORM. *)
Record Document : Type := {
  doc : ViewerState;
  isNew : bool;
  isModified : bool
}.

(** The validation [save()] runs: every path of a new document, the
    modified paths of one that was read, which are those of the state and
    the flag. *)
Definition schemaValid (d : Document) : bool :=
  stateValid (state (doc d)) && (negb (isNew d) || keysPresent (doc d)).

(** What the database does to a request, as the environment decides it. *)
Inductive Fault : Type :=
| NoFault
| QueryFails
| WriteFails (code : option Z)
| CleanupFails.

Definition Db : Type := list ViewerState.

(** The document has this key. *)
Definition keyIs (user : ObjectId) (study session : string) (d : ViewerState)
    : bool :=
  String.eqb (userId d) user
  && String.eqb (studyInstanceUID d) study
  && String.eqb (sessionId d) session.

(** The filter [{ userId, studyInstanceUID, sessionId }] of a query: the
    schema casts the values of a filter, and its [trim] setter trims the
    two strings. *)
Definition hasKey (user : ObjectId) (study session : string) (d : ViewerState)
    : bool :=
  keyIs user (JS.trim study) (JS.trim session) d.

(** The filter [{ userId, studyInstanceUID }], cast likewise. *)
Definition ofStudy (user : ObjectId) (study : string) (d : ViewerState) : bool :=
  String.eqb (userId d) user && String.eqb (studyInstanceUID d) (JS.trim study).

Definition findOne (fault : Fault) (db : Db) (user : ObjectId)
    (study session : string) : Http.Result (option ViewerState) :=
  match fault with
  | QueryFails => Http.Throw None
  | _ => Http.Ok (option_map hydrate (find (hasKey user study session) db))
  end.

(** [viewerState.state = state; viewerState.autoSaved = autoSaved] on a
    document read from the collection.  The state is a nested path:
    assigning it replaces what the document held of it and marks it
    modified, whatever it holds. *)
Definition assign (st : State) (auto : bool) (d : ViewerState) : Document :=
  {| doc := {| _id := _id d; userId := userId d;
               studyInstanceUID := studyInstanceUID d; sessionId := sessionId d;
               state := st; autoSaved := auto; version := version d;
               createdAt := createdAt d; updatedAt := updatedAt d |};
     isNew := false;
     isModified := true |}.

(** [new ViewerState({...})]: the setters trim the two strings, [version]
    and the paths of the state that have no value take their defaults. *)
Definition create (freshId user : ObjectId) (study session : string) (st : State)
    (auto : bool) : Document :=
  {| doc := {| _id := freshId; userId := user;
               studyInstanceUID := JS.trim study; sessionId := JS.trim session;
               state := withDefaults st; autoSaved := auto; version := 1;
               createdAt := 0; updatedAt := 0 |};
     isNew := true;
     isModified := true |}.

Definition withVersion (v : Z) (d : ViewerState) : ViewerState :=
  {| _id := _id d; userId := userId d; studyInstanceUID := studyInstanceUID d;
     sessionId := sessionId d; state := state d; autoSaved := autoSaved d;
     version := v; createdAt := createdAt d; updatedAt := updatedAt d |}.

Definition withTimes (created updated : Z) (d : ViewerState) : ViewerState :=
  {| _id := _id d; userId := userId d; studyInstanceUID := studyInstanceUID d;
     sessionId := sessionId d; state := state d; autoSaved := autoSaved d;
     version := version d; createdAt := created; updatedAt := updated |}.

(** The [pre('save')] hook of the schema. *)
Definition preSave (d : Document) : ViewerState :=
  if isModified d && negb (isNew d)
  then withVersion (version (doc d) + 1) (doc d)
  else doc d.

(** The [timestamps] option of the schema. *)
Definition stamp (now : Z) (d : Document) (v : ViewerState) : ViewerState :=
  if isNew d then withTimes now now v
  else if isModified d then withTimes (createdAt v) now v
  else v.

Fixpoint replace (d : ViewerState) (l : Db) : Db :=
  match l with
  | [] => []
  | x :: l' => if String.eqb (_id x) (_id d) then d :: l' else x :: replace d l'
  end.

(** [viewerState.save()]: validation, hooks, then the write, which the
    unique index on (user, study, session) can refuse. *)
Definition save (fault : Fault) (now : Z) (db : Db) (d : Document)
    : Http.Result (Db * ViewerState) :=
  match fault with
  | WriteFails code => Http.Throw code
  | _ =>
      if negb (schemaValid d) then Http.Throw None
      else
        let saved := stamp now d (preSave d) in
        if isNew d then
          if existsb (keyIs (userId saved) (studyInstanceUID saved) (sessionId saved)) db
          then Http.Throw (Some 11000%Z)
          else Http.Ok ((db ++ [saved])%list, saved)
        else if isModified d then Http.Ok (replace saved db, saved)
        else Http.Ok (db, saved)
  end.

(** [sort({ updatedAt: -1 })], keeping the order of the collection among
    documents updated at the same time. *)
Fixpoint insertByUpdatedAt (d : ViewerState) (l : list ViewerState)
    : list ViewerState :=
  match l with
  | [] => [d]
  | x :: l' =>
      if (updatedAt x <=? updatedAt d)%Z then d :: l
      else x :: insertByUpdatedAt d l'
  end.

Definition sortByUpdatedAt (l : list ViewerState) : list ViewerState :=
  fold_right insertByUpdatedAt [] l.

(** The documents [cleanupOldStates] selects for deletion. *)
Definition oldStates (db : Db) (user : ObjectId) (study : string)
    : list ViewerState :=
  skipn 10 (sortByUpdatedAt (filter (ofStudy user study) db)).

Definition deleteMany (ids : list ObjectId) (db : Db) : Db :=
  filter (fun d => negb (existsb (String.eqb (_id d)) ids)) db.

Definition cleanupOldStates (fault : Fault) (db : Db) (user : ObjectId)
    (study : string) : Http.Result Db :=
  match fault with
  | CleanupFails => Http.Throw None
  | _ =>
      let states := oldStates db user study in
      match states with
      | [] => Http.Ok db
      | _ :: _ => Http.Ok (deleteMany (map _id states) db)
      end
  end.

(** The body of [POST /save] and of [POST /auto-save]; a [state] that is
    present is an object. *)
Record Body : Type := {
  body_studyInstanceUID : option string;
  body_sessionId : option string;
  body_state : option State;
  body_autoSaved : option bool
}.

(** [saveStateValidation] *)
Definition saveStateValidation (b : Body) : bool :=
  JS.truthy_string (body_studyInstanceUID b)
  && JS.truthy_string (body_sessionId b)
  && JS.truthy_object (body_state b).

(** The upsert of the save route: the document of the key is looked up,
    then assigned to or created, then saved.  [freshId] is the id a new
    document gets. *)
Definition upsertState (fault : Fault) (now : Z) (freshId user : ObjectId)
    (study session : string) (st : State) (auto : bool) (db : Db)
    : Http.Result (Db * ViewerState) :=
  found <- findOne fault db user study session ;;
  let viewerState :=
    match found with
    | Some existing => assign st auto existing
    | None => create freshId user study session st auto
    end in
  save fault now db viewerState.

(** [POST /api/viewer-state/save], for the authenticated [user]. *)
Definition saveRoute (fault : Fault) (now : Z) (freshId user : ObjectId)
    (b : Body) (db : Db) : Db * Http.Response :=
  match body_studyInstanceUID b, body_sessionId b, body_state b with
  | Some study, Some session, Some st =>
      if negb (saveStateValidation b)
      then (db, {| Http.status := 400; Http.body := Http.ValidationFailed |})
      else
        let auto := Annotations.orElse (body_autoSaved b) false in
        match upsertState fault now freshId user study session st auto db with
        | Http.Throw code =>
            (db,
             match code with
             | Some 11000%Z =>
                 {| Http.status := 409;
                    Http.body := Http.Error
                      "Concurrent modification detected. Please refresh and try again." |}
             | _ =>
                 {| Http.status := 500;
                    Http.body := Http.Error "Failed to save viewer state" |}
             end)
        | Http.Ok (db1, saved) =>
            match cleanupOldStates fault db1 user study with
            | Http.Throw _ =>
                (db1, {| Http.status := 500;
                         Http.body := Http.Error "Failed to save viewer state" |})
            | Http.Ok db2 =>
                (db2, Http.json (Http.StateSaved "Viewer state saved successfully"
                                   (_id saved) (version saved) (updatedAt saved)))
            end
        end
  | _, _, _ => (db, {| Http.status := 400; Http.body := Http.ValidationFailed |})
  end.

Fixpoint updateFirst (matches : ViewerState -> bool)
    (f : ViewerState -> ViewerState) (l : Db) : Db :=
  match l with
  | [] => []
  | x :: l' => if matches x then f x :: l' else x :: updateFirst matches f l'
  end.

(** [ViewerState.findOneAndUpdate(key, { state, autoSaved: true,
    $inc: { version: 1 } }, { upsert: true, new: true, runValidators: false })]:
    the first document the filter matches is updated where it is; without
    one, a document is inserted with the values of the filter, as it was
    cast, and those of the update, so that its [version] is the
    increment.  The state is written as it is given; the document the
    call returns is the one written, as it is read back. *)
Definition findOneAndUpdate (fault : Fault) (now : Z) (freshId user : ObjectId)
    (study session : string) (st : State) (db : Db)
    : Http.Result (Db * ViewerState) :=
  let modify existing :=
    {| _id := _id existing; userId := userId existing;
       studyInstanceUID := studyInstanceUID existing;
       sessionId := sessionId existing;
       state := st; autoSaved := true; version := version existing + 1;
       createdAt := createdAt existing; updatedAt := now |} in
  match fault with
  | QueryFails => Http.Throw None
  | WriteFails code => Http.Throw code
  | _ =>
      match find (hasKey user study session) db with
      | Some existing =>
          Http.Ok (updateFirst (hasKey user study session) modify db,
                   hydrate (modify existing))
      | None =>
          let inserted :=
            {| _id := freshId; userId := user;
               studyInstanceUID := JS.trim study; sessionId := JS.trim session;
               state := st; autoSaved := true; version := 1;
               createdAt := now; updatedAt := now |} in
          Http.Ok ((db ++ [inserted])%list, hydrate inserted)
      end
  end.

(** [POST /api/viewer-state/auto-save], for the authenticated [user]. *)
Definition autoSaveRoute (fault : Fault) (now : Z) (freshId user : ObjectId)
    (b : Body) (db : Db) : Db * Http.Response :=
  if negb (JS.truthy_string (body_studyInstanceUID b))
     || negb (JS.truthy_string (body_sessionId b))
     || negb (JS.truthy_object (body_state b))
  then (db, {| Http.status := 400;
               Http.body := Http.Error "Missing required fields for auto-save" |})
  else
    match body_studyInstanceUID b, body_sessionId b, body_state b with
    | Some study, Some session, Some st =>
        match findOneAndUpdate fault now freshId user study session st db with
        | Http.Ok (db1, result) =>
            (db1, Http.json (Http.AutoSaveDone true (_id result) (version result)))
        | Http.Throw _ =>
            (db, Http.json (Http.AutoSaveFailed false "Auto-save failed"))
        end
    | _, _, _ =>
        (db, {| Http.status := 400;
                Http.body := Http.Error "Missing required fields for auto-save" |})
    end.

(** A request to the save route, as the scenarios of the retention rule
    need it: the session, the state, the flag, the time of the request
    and the id a new document would get. *)
Record Request : Type := {
  req_session : string;
  req_state : State;
  req_autoSaved : bool;
  req_now : Z;
  req_freshId : ObjectId
}.



(** The document that a request creates. *)
Definition created (user : ObjectId) (study : string) (r : Request) : ViewerState :=
  {| _id := req_freshId r; userId := user; studyInstanceUID := JS.trim study;
     sessionId := JS.trim (req_session r); state := withDefaults (req_state r);
     autoSaved := req_autoSaved r; version := 1;
     createdAt := req_now r; updatedAt := req_now r |}.

(** [a] was updated no earlier than [b]. *)
Definition newerFirst (a b : ViewerState) : Prop :=
  (updatedAt b <= updatedAt a)%Z.

(** Times strictly increasing along the list. *)
Fixpoint increasing (times : list Z) : Prop :=
  match times with
  | [] => True
  | t :: rest => (forall t', In t' rest -> (t < t')%Z) /\ increasing rest
  end.

(** The last ten elements of a list. *)
Definition lastTen {A : Type} (l : list A) : list A :=
  skipn (List.length l - 10) l.

(** Requests that pass validation, for sessions that differ from one
    another once trimmed, served at strictly increasing times, with ids
    that differ from one another for the documents they may create. *)
Definition orderly (study : string) (requests : list Request) : Prop :=
  JS.trim study <> ""
  /\ (forall r, In r requests ->
                JS.trim (req_session r) <> "" /\ stateValid (req_state r) = true)
  /\ NoDup (map (fun r => JS.trim (req_session r)) requests)
  /\ NoDup (map req_freshId requests)
  /\ increasing (map req_now requests).


(** The key of the unique index. *)
Definition keyOf (d : ViewerState) : ObjectId * string * string :=
  (userId d, studyInstanceUID d, sessionId d).

(** [findOne(query).sort({ updatedAt: -1 })]: the first, in that order,
    of the documents the query matches. *)
Definition latest (matches : ViewerState -> bool) (db : Db) : option ViewerState :=
  hd_error (sortByUpdatedAt (filter matches db)).

(** The static [findLatestForStudy]. *)
Definition findLatestForStudy (fault : Fault) (db : Db) (user : ObjectId)
    (study : string) : Http.Result (option ViewerState) :=
  match fault with
  | QueryFails => Http.Throw None
  | _ => Http.Ok (option_map hydrate (latest (ofStudy user study) db))
  end.

(** What [GET /] answers with. *)
Record Loaded : Type := {
  loaded_state : State;
  loaded_stateId : ObjectId;
  loaded_version : Z;
  loaded_sessionId : string;
  loaded_autoSaved : bool;
  loaded_createdAt : Z;
  loaded_updatedAt : Z
}.

Definition load (viewerState : ViewerState) : Loaded :=
  {| loaded_state := state viewerState;
     loaded_stateId := _id viewerState;
     loaded_version := version viewerState;
     loaded_sessionId := sessionId viewerState;
     loaded_autoSaved := autoSaved viewerState;
     loaded_createdAt := createdAt viewerState;
     loaded_updatedAt := updatedAt viewerState |}.

(** The query of [GET /]: the study of the user, and the session where
    the request names one; the schema casts the filter, so that the two
    strings are trimmed. *)
Definition queried (user : ObjectId) (study : string) (session : option string)
    (d : ViewerState) : bool :=
  ofStudy user study d
  && match session with
     | Some s =>
         if JS.truthy_string session then String.eqb (sessionId d) (JS.trim s)
         else true
     | None => true
     end.

(** [GET /api/viewer-state], for the authenticated [user]; [study] and
    [session] are the two parameters of the query string. *)
Definition getRoute (fault : Fault) (user : ObjectId) (study session : option string)
    (db : Db) : Http.Reply Loaded :=
  match study with
  | Some study' =>
      if negb (JS.truthy_string study) then Http.reply 400 Http.Invalid
      else
        match fault with
        | QueryFails =>
            Http.reply 500 (Http.Failed "Failed to retrieve viewer state")
        | _ =>
            match latest (queried user study' session) db with
            | None => Http.reply 404 (Http.Failed "Viewer state not found")
            | Some viewerState =>
                Http.reply 200 (Http.Data (load (hydrate viewerState)))
            end
        end
  | None => Http.reply 400 Http.Invalid
  end.

(** One entry of the history: the fields the query selects. *)
Record Entry : Type := {
  entry_id : ObjectId;
  entry_sessionId : string;
  entry_version : Z;
  entry_autoSaved : bool;
  entry_createdAt : Z;
  entry_updatedAt : Z
}.

Definition entry (d : ViewerState) : Entry :=
  {| entry_id := _id d;
     entry_sessionId := sessionId d;
     entry_version := version d;
     entry_autoSaved := autoSaved d;
     entry_createdAt := createdAt d;
     entry_updatedAt := updatedAt d |}.

Record Page : Type := {
  page_states : list Entry;
  page_total : nat;
  page_limit : Z;
  page_skip : Z;
  page_hasMore : bool
}.

(** [parseInt(req.query.limit) || 10] and [parseInt(req.query.skip) || 0],
    for what [parseInt] makes of the parameter: an integer, or [NaN]
    ([None]) where it is absent or does not start with one.  A negative
    integer is truthy and is kept. *)
Definition limitOr10 (limit : option Z) : Z :=
  match limit with
  | Some 0%Z => 10
  | Some n => n
  | None => 10
  end.

Definition skipOr0 (skip : option Z) : Z :=
  match skip with
  | Some n => n
  | None => 0
  end.

(** The integers the database takes for a limit or a skip: those of 64
    bits. *)
Definition int64 (n : Z) : bool :=
  (- 2 ^ 63 <=? n)%Z && (n <? 2 ^ 63)%Z.

(** The documents a cursor of that limit returns: as many as the limit
    says, or, for a negative limit, as many as its absolute value says
    and the single batch the cursor is then closed after holds, which are
    101 where no batch size is set. *)
Definition limited (limit : Z) (l : list ViewerState) : list ViewerState :=
  if (limit <? 0)%Z then firstn (Nat.min (Z.abs_nat limit) 101) l
  else firstn (Z.to_nat limit) l.

(** [GET /api/viewer-state/history], for the authenticated [user]: the
    cursor skips, then limits.  The database refuses a negative skip, and
    a limit or a skip that is out of range. *)
Definition historyRoute (fault : Fault) (user : ObjectId) (study : option string)
    (limit skip : option Z) (db : Db) : Http.Reply Page :=
  match study with
  | Some study' =>
      if negb (JS.truthy_string study) then Http.reply 400 Http.Invalid
      else
        match fault with
        | QueryFails =>
            Http.reply 500 (Http.Failed "Failed to retrieve state history")
        | _ =>
            if (skipOr0 skip <? 0)%Z
               || negb (int64 (skipOr0 skip)) || negb (int64 (limitOr10 limit))
            then Http.reply 500 (Http.Failed "Failed to retrieve state history")
            else
              let ofTheStudy := filter (ofStudy user study') db in
              let total := List.length ofTheStudy in
              Http.reply 200
                (Http.Data
                   {| page_states :=
                        map entry
                          (limited (limitOr10 limit)
                             (skipn (Z.to_nat (skipOr0 skip))
                                (sortByUpdatedAt ofTheStudy)));
                      page_total := total;
                      page_limit := limitOr10 limit;
                      page_skip := skipOr0 skip;
                      page_hasMore :=
                        (skipOr0 skip + limitOr10 limit <? Z.of_nat total)%Z |})
        end
  | None => Http.reply 400 Http.Invalid
  end.

(** [ViewerState.deleteOne({ _id: stateId })] *)
Fixpoint deleteOne (stateId : ObjectId) (l : Db) : Db :=
  match l with
  | [] => []
  | d :: l' => if String.eqb (_id d) stateId then l' else d :: deleteOne stateId l'
  end.

(** [DELETE /api/viewer-state/:stateId], for the authenticated [user].
    The parameter is cast to an object id when the filter is; one that
    is none makes the query throw. *)
Definition deleteRoute (fault : Fault) (user stateId : ObjectId) (db : Db)
    : Db * Http.Reply unit :=
  match castObjectId stateId, fault with
  | None, _ | _, QueryFails =>
      (db, Http.reply 500 (Http.Failed "Failed to delete viewer state"))
  | Some id, _ =>
      match find (fun d => String.eqb (_id d) id && String.eqb (userId d) user) db
      with
      | None => (db, Http.reply 404 (Http.Failed "Viewer state not found"))
      | Some _ =>
          match fault with
          | WriteFails _ =>
              (db, Http.reply 500 (Http.Failed "Failed to delete viewer state"))
          | _ =>
              (deleteOne id db,
               Http.reply 200 (Http.Message "Viewer state deleted successfully"))
          end
      end
  end.

(** The collection as the unique index and the ids keep it: one document
    per id, one per key. *)
Definition wellKeyed (db : Db) : Prop :=
  NoDup (map _id db) /\ NoDup (map keyOf db).

End ViewerStates.

(** * Properties *)

(** ** The preset registry *)

Section Registry.

Import Manager.

Lemma strict_eq_string_spec (a b : string) :
  JS.strict_eq_opt String.eqb (Some a) (Some b) = true <-> a = b.
Proof. simpl. apply String.eqb_eq. Qed.

Lemma strict_eq_string_refl (a : option string) :
  JS.strict_eq_opt String.eqb a a = true.
Proof. destruct a as [a|]; simpl; [apply String.eqb_refl | reflexivity]. Qed.

Lemma findPreset_Some (presetId : string) (p : Preset.t) :
  findPreset (Some presetId) = Some p ->
  In p DENTAL_MEASUREMENT_PRESETS /\ Preset.id p = presetId.
Proof.
  unfold findPreset. intros H. apply find_some in H. destruct H as [Hin Heq].
  split; [exact Hin | now apply strict_eq_string_spec].
Qed.

Lemma findPreset_None (presetId : option string) :
  findPreset presetId = None ->
  forall p, In p DENTAL_MEASUREMENT_PRESETS -> Some (Preset.id p) <> presetId.
Proof.
  unfold findPreset. intros H p Hin Heq.
  pose proof (find_none _ _ H p Hin) as Hno. simpl in Hno.
  rewrite <- Heq in Hno. simpl in Hno. rewrite String.eqb_refl in Hno. discriminate.
Qed.

Lemma findPreset_known (presetId : string) :
  known presetId <-> exists p, findPreset (Some presetId) = Some p.
Proof.
  split.
  - intros [p [Hin Hid]]. destruct (findPreset (Some presetId)) as [q|] eqn:E.
    + now exists q.
    + exfalso. apply (findPreset_None _ E p Hin). now rewrite Hid.
  - intros [p Hp]. exists p. now apply findPreset_Some.
Qed.

(** Ids are unique in the table, so looking a preset up by its own id
    finds that preset. *)
Lemma findPreset_id (p : Preset.t) :
  In p DENTAL_MEASUREMENT_PRESETS -> findPreset (Some (Preset.id p)) = Some p.
Proof.
  simpl. intros [H | [H | [H | [H | []]]]]; subst p; reflexivity.
Qed.

Lemma preset_id_truthy (p : Preset.t) :
  In p DENTAL_MEASUREMENT_PRESETS -> JS.truthy_string (Some (Preset.id p)) = true.
Proof.
  simpl. intros [H | [H | [H | [H | []]]]]; subst p; reflexivity.
Qed.

Lemma preset_no_accessor (p : Preset.t) :
  In p DENTAL_MEASUREMENT_PRESETS -> Preset.valueAccessor p = None.
Proof.
  simpl. intros [H | [H | [H | [H | []]]]]; subst p; reflexivity.
Qed.

End Registry.

(** ** Selecting a preset, tearing down, clearing *)

Section Lifecycle.

Import Manager.

(** C6. Selecting a preset stores the id whatever it is; a
    ['setToolActive'] command goes to the host exactly when the id is in
    the table and an integration context is installed, and then it is the
    single command for the tool of that preset and the tool groups of the
    context; otherwise nothing is issued.  Nothing else of the module
    state changes. *)
Theorem select_preset_stores_id_and_activates_known (presetId : string)
    (st : ModuleState) :
  let st' := fst (selectDentalMeasurementPreset presetId st) in
  let calls := snd (selectDentalMeasurementPreset presetId st) in
  getActiveDentalPresetId st' = Some presetId
  /\ st' = withActivePresetId (Some presetId) st
  /\ ((exists toolName groups context,
         In (runCommand "setToolActive" toolName groups context) calls)
      <-> (known presetId /\ integration st <> None))
  /\ (forall p ctx,
         findPreset (Some presetId) = Some p -> integration st = Some ctx ->
         calls = [runCommand "setToolActive" (Preset.toolName p)
                    (toolGroupIds ctx) "CORNERSTONE"])
  /\ (~ known presetId \/ integration st = None -> calls = []).
Proof.
  unfold selectDentalMeasurementPreset. cbn zeta.
  destruct (findPreset (Some presetId)) as [p|] eqn:Ef;
    destruct (integration (withActivePresetId (Some presetId) st)) as [ctx|] eqn:Ei;
    simpl in Ei; simpl; rewrite ?Ei;
    (split; [reflexivity | split; [reflexivity | ]]).
  - split; [| split].
    + split.
      * intros _. split; [apply findPreset_known; eauto | congruence].
      * intros _. do 3 eexists. left. reflexivity.
    + intros q c Hq Hc. now inversion Hq; inversion Hc; subst.
    + intros [Hk | Hn]; [| congruence].
      exfalso. apply Hk. apply findPreset_known. eauto.
  - split; [| split].
    + split; [intros [? [? [? []]]] | intros [_ H]; congruence].
    + intros q c _ Hc. congruence.
    + reflexivity.
  - split; [| split].
    + split; [intros [? [? [? []]]] |].
      intros [Hk _]. apply findPreset_known in Hk. destruct Hk as [q Hq]. congruence.
    + intros q c Hq. congruence.
    + reflexivity.
  - split; [| split].
    + split; [intros [? [? [? []]]] | intros [_ H]; congruence].
    + intros q c Hq. congruence.
    + reflexivity.
Qed.

(** C6 in the initialized module, on the id of a preset and on an id that
    is none. *)
Lemma select_preset_stores_id_and_activates_known_witness :
  let st :=
    fst (run [ Initialize
                 (Some {| measurementService := Some {| getMeasurements := [] |} |})
                 (Some hostCommandsManager) ["dental"] "0001" ]
           initial) in
  snd (selectDentalMeasurementPreset "canal-angle" st)
  = [runCommand "setToolActive" "Angle" ["dental"] "CORNERSTONE"]
  /\ snd (selectDentalMeasurementPreset "invalid-preset" st) = []
  /\ getActiveDentalPresetId (fst (selectDentalMeasurementPreset "invalid-preset" st))
     = Some "invalid-preset".
Proof.
  intros st.
  destruct (select_preset_stores_id_and_activates_known "canal-angle" st)
    as [_ [_ [_ [Hknown _]]]].
  destruct (select_preset_stores_id_and_activates_known "invalid-preset" st)
    as [Hstored [_ [_ [_ Hsilent]]]].
  split; [exact (Hknown _ _ eq_refl eq_refl) |].
  split; [| exact Hstored].
  apply Hsilent. left. intros Hk. apply findPreset_known in Hk.
  destruct Hk as [p Hp]. discriminate.
Defined.

(** C5 on a session like the one of the repository's test: an initialization,
    a tooth selection, a preset selection and the teardown, the preset is
    cleared and the tooth is still the selected one. *)
Lemma teardown_keeps_tooth_counterexample :
  let sm := Some {| measurementService := Some {| getMeasurements := [] |} |} in
  let cm := Some hostCommandsManager in
  let st := fst (run [ Initialize sm cm ["dental"] "0001";
                       SetTooth (Some (Tooth.mk "FDI" "11"));
                       SelectPreset "periapical-length";
                       Teardown ] initial) in
  getActiveDentalPresetId st = None
  /\ getActiveDentalTooth st = Some (Tooth.mk "FDI" "11")
  /\ ~ (getActiveDentalPresetId st = None /\ getActiveDentalTooth st = None).
Proof.
  cbv. split; [reflexivity |]. split; [reflexivity |].
  intros [_ H]. discriminate.
Qed.

(** C5. The code does not clear the tooth.  Teardown unsubscribes every
    recorded subscription and forgets them, drops the integration context
    and resets the active preset, as the specification has it; the active
    tooth selection, which the specification and the tests of the
    repository have cleared as well, is left as it was, whatever it
    was. *)
Theorem teardown_leaves_the_tooth_selected (st : ModuleState) :
  let st' := fst (teardownDentalMeasurements st) in
  let calls := snd (teardownDentalMeasurements st) in
  calls = map unsubscribe (subscriptions st)
  /\ subscriptions st' = []
  /\ integration st' = None
  /\ getActiveDentalPresetId st' = None
  /\ getActiveDentalTooth st' = getActiveDentalTooth st.
Proof. cbv [teardownDentalMeasurements clearSubscriptions]. simpl. tauto. Qed.

Lemma step_lastInitializationId (op : Op) (st : ModuleState) :
  lastInitializationId (fst (step op st))
  = lastInitialization [op] (lastInitializationId st).
Proof.
  destruct op as [sm cm groups uuid | | presetId | selection | now | listener now m];
    simpl; try reflexivity.
  - unfold initializeDentalMeasurements, initializes.
    destruct sm as [sm|]; [| reflexivity].
    destruct cm as [cm|]; [| reflexivity].
    destruct (measurementService sm); reflexivity.
  - unfold selectDentalMeasurementPreset.
    destruct (findPreset (Some presetId)); simpl; [| reflexivity].
    destruct (integration st); reflexivity.
  - destruct listener as [ | | id]; simpl; try reflexivity.
    unfold handleMeasurementsCleared.
    destruct (negb _); reflexivity.
Qed.

(** Only an initialization that gets past its guard renews the listener
    id the module remembers. *)
Lemma run_lastInitializationId (ops : list Op) :
  forall st, lastInitializationId (fst (run ops st))
             = lastInitialization ops (lastInitializationId st).
Proof.
  induction ops as [| op ops IH]; intros st; [reflexivity |].
  simpl run. pose proof (step_lastInitializationId op st) as Hs.
  destruct (step op st) as [st1 calls1]. simpl in Hs.
  specialize (IH st1). destruct (run ops st1) as [st2 calls2]. simpl in IH |- *.
  rewrite IH, Hs. destruct op; reflexivity.
Qed.

Lemma select_state (presetId : string) (st : ModuleState) :
  fst (selectDentalMeasurementPreset presetId st)
  = withActivePresetId (Some presetId) st.
Proof.
  unfold selectDentalMeasurementPreset.
  destruct (findPreset (Some presetId)); [| reflexivity].
  destruct (integration (withActivePresetId (Some presetId) st)); reflexivity.
Qed.

(** The integration context is there exactly between an initialization
    that got past its guard and the next teardown. *)
Lemma run_integration (ops : list Op) :
  forall st, JS.truthy_object (integration (fst (run ops st)))
             = installed ops (JS.truthy_object (integration st)).
Proof.
  induction ops as [| op ops IH]; intros st; [reflexivity |].
  simpl run. destruct (step op st) as [st1 calls1] eqn:Es.
  specialize (IH st1). destruct (run ops st1) as [st2 calls2]. simpl in IH |- *.
  rewrite IH. clear IH.
  destruct op as [sm cm groups uuid | | presetId | selection | now | listener now m];
    simpl in Es.
  - unfold initializeDentalMeasurements, initializes in *.
    destruct sm as [sm|]; [| injection Es as <- _; reflexivity].
    destruct cm as [cm|]; [| injection Es as <- _; reflexivity].
    destruct (measurementService sm); injection Es as <- _; reflexivity.
  - injection Es as <- _. reflexivity.
  - pose proof (select_state presetId st) as Hs. rewrite Es in Hs.
    simpl in Hs. now subst st1.
  - injection Es as <- _. reflexivity.
  - injection Es as <- _. reflexivity.
  - destruct listener as [ | | id]; simpl in Es; injection Es as <- _;
      try reflexivity.
    unfold handleMeasurementsCleared. destruct (negb _); reflexivity.
Qed.

(** Wherever the module holds subscriptions, it holds a measurement
    service: listeners are subscribed by an initialization that found
    one, and unsubscribed by the teardown that drops it. *)
Lemma subscribed_has_service (ops : list Op) :
  forall st,
    (subscriptions st <> [] -> getMeasurementService st <> None) ->
    subscriptions (fst (run ops st)) <> [] ->
    getMeasurementService (fst (run ops st)) <> None.
Proof.
  induction ops as [| op ops IH]; intros st Hinv; [exact Hinv |].
  simpl run. destruct (step op st) as [st1 calls1] eqn:Es.
  specialize (IH st1). destruct (run ops st1) as [st2 calls2]. simpl in IH |- *.
  apply IH. clear IH.
  destruct op as [sm cm groups uuid | | presetId | selection | now | listener now m];
    simpl in Es.
  - unfold initializeDentalMeasurements in Es.
    destruct sm as [sm|]; [| injection Es as <- _; exact Hinv].
    destruct cm as [cm|]; [| injection Es as <- _; exact Hinv].
    destruct (measurementService sm) as [svc|] eqn:Esvc;
      injection Es as <- _; [| exact Hinv].
    intros _. unfold getMeasurementService. simpl. rewrite Esvc. discriminate.
  - injection Es as <- _. simpl. congruence.
  - pose proof (select_state presetId st) as Hs. rewrite Es in Hs.
    simpl in Hs. subst st1. exact Hinv.
  - injection Es as <- _. exact Hinv.
  - injection Es as <- _. exact Hinv.
  - destruct listener as [ | | id]; simpl in Es; injection Es as <- _;
      try exact Hinv.
    unfold handleMeasurementsCleared. destruct (negb _); exact Hinv.
Qed.

(** C10. After any sequence of operations, the cleared-listener of the
    most recent initialization resets the active preset and touches
    nothing else (tooth, integration context, subscriptions), and the
    cleared-listener of any other initialization leaves the state as it
    is. *)
Theorem cleared_listener_resets_preset_only (ops : list Op)
    (st0 : ModuleState) (id : string) :
  lastInitialization ops (lastInitializationId st0) = Some id ->
  let st := fst (run ops st0) in
  (let st' := fst (runListener (ListenCleared id) 0 None st) in
   getActiveDentalPresetId st' = None
   /\ getActiveDentalTooth st' = getActiveDentalTooth st
   /\ integration st' = integration st
   /\ subscriptions st' = subscriptions st
   /\ snd (runListener (ListenCleared id) 0 None st) = [])
  /\ (forall stale, stale <> id ->
        runListener (ListenCleared stale) 0 None st = (st, [])).
Proof.
  intros Hlast st. pose proof (run_lastInitializationId ops st0) as Hrun.
  fold st in Hrun. rewrite Hlast in Hrun.
  simpl. unfold handleMeasurementsCleared. rewrite Hrun. split.
  - simpl. rewrite String.eqb_refl. simpl. tauto.
  - intros stale Hne. simpl.
    destruct (String.eqb id stale) eqn:E.
    + apply String.eqb_eq in E. congruence.
    + reflexivity.
Qed.

(** A run of C10: two initializations, a tooth and a preset selected
    after the second. *)
Lemma cleared_listener_resets_preset_only_witness :
  let sm := Some {| measurementService := Some {| getMeasurements := [] |} |} in
  let cm := Some hostCommandsManager in
  let ops := [ Initialize sm cm ["dental"] "0001";
               Initialize sm cm ["dental"] "0002";
               SetTooth (Some (Tooth.mk "FDI" "11"));
               SelectPreset "canal-angle" ] in
  let st := fst (run ops initial) in
  getActiveDentalPresetId st = Some "canal-angle"
  /\ getActiveDentalPresetId
       (fst (runListener (ListenCleared "dental-measurements-0002") 0 None st)) = None
  /\ getActiveDentalTooth
       (fst (runListener (ListenCleared "dental-measurements-0002") 0 None st))
     = Some (Tooth.mk "FDI" "11")
  /\ runListener (ListenCleared "dental-measurements-0001") 0 None st = (st, []).
Proof.
  intros sm cm ops st.
  destruct (cleared_listener_resets_preset_only ops initial
              "dental-measurements-0002" eq_refl) as [[Hp [Ht _]] Hstale].
  split; [reflexivity |].
  split; [exact Hp |].
  split; [etransitivity; [exact Ht | reflexivity] |].
  apply Hstale. discriminate.
Defined.

End Lifecycle.

(** ** Enrichment *)

Section Enrichment.

Import Manager.

Lemma metadataChanged_tooth_added (cur : option Metadata.t) (next : Metadata.t)
    (t : Tooth.t) :
  metadata_field Metadata.dentalTooth cur = None ->
  Metadata.dentalTooth next = Some t ->
  metadataChanged cur (Some next) = true.
Proof.
  intros Hcur Hnext. unfold metadataChanged.
  assert (Hc : Metadata.dentalTooth
                 (match cur with Some md => md | None => Metadata.empty end) = None).
  { destruct cur as [md|]; [exact Hcur | reflexivity]. }
  rewrite Hc, Hnext. simpl.
  repeat match goal with |- context [if negb ?c then _ else _] => destruct (negb c) end;
    reflexivity.
Qed.

(** C2. With the preset ['periapical-length'] and the tooth FDI 11 active,
    the added-listener answers a measurement that has no tooth in its
    metadata with one update of that measurement.  The measurement it
    writes has the label ["PA length (FDI 11)"]; its metadata carry the
    id, label and unit of the preset, the value computed for the preset,
    the active tooth and a creation time; and its uid, data, cached
    statistics, length and angle are those of the measurement added. *)
Theorem added_measurement_is_stamped_with_preset_and_tooth (st : ModuleState)
    (service : MeasurementService) (now : Z) (m : Measurement.t) :
  getMeasurementService st = Some service ->
  activePresetId st = Some "periapical-length" ->
  activeTooth st = Some (Tooth.mk "FDI" "11") ->
  metadata_field Metadata.dentalTooth (Measurement.metadata m) = None ->
  exists (p : Preset.t) (m' : Measurement.t) (md : Metadata.t),
    findPreset (Some "periapical-length") = Some p
    /\ runListener ListenAdded now (Some m) st
       = (st, [update (Measurement.uid m) m' true])
    /\ Measurement.label m' = Some "PA length (FDI 11)"
    /\ Measurement.metadata m' = Some md
    /\ Measurement.uid m' = Measurement.uid m
    /\ Measurement.data m' = Measurement.data m
    /\ Measurement.cachedStats m' = Measurement.cachedStats m
    /\ Measurement.length m' = Measurement.length m
    /\ Measurement.angle m' = Measurement.angle m
    /\ Metadata.dentalPresetId md = Some "periapical-length"
    /\ Metadata.dentalPresetLabel md = Some "PA length"
    /\ Metadata.dentalUnit md = Some "mm"
    /\ Metadata.dentalValue md = computeMeasurementValue p (Some m)
    /\ Metadata.dentalTooth md = Some (Tooth.mk "FDI" "11")
    /\ Metadata.dentalCreatedAt md
       = JS.nullish (metadata_field Metadata.dentalCreatedAt (Measurement.metadata m))
           (Some now)
    /\ Metadata.cachedStats md
       = metadata_field Metadata.cachedStats (Measurement.metadata m)
    /\ Metadata.length md = metadata_field Metadata.length (Measurement.metadata m).
Proof.
  intros Hsvc Hpreset Htooth Hnone.
  destruct (findPreset (Some "periapical-length")) as [p|] eqn:Ep; [| discriminate].
  exists p,
    (withLabelAndMetadata (Some "PA length (FDI 11)") (nextMetadata st now p m) m),
    (nextMetadata st now p m).
  assert (Hstamped : Metadata.dentalTooth (stampMetadata now p m) = None).
  { unfold stampMetadata. simpl. destruct (Measurement.metadata m); [exact Hnone | reflexivity]. }
  assert (Hnext : nextMetadata st now p m
                  = withTooth (Some (Tooth.mk "FDI" "11")) (stampMetadata now p m)).
  { unfold nextMetadata. rewrite Hstamped, Htooth. reflexivity. }
  split; [reflexivity |].
  split.
  { simpl. unfold handleMeasurementAdded. rewrite Hpreset. simpl JS.truthy_string.
    cbv iota. rewrite Ep. unfold applyDentalMetadata. rewrite Hsvc.
    simpl presetToApply. cbv zeta iota beta.
    rewrite (metadataChanged_tooth_added (Measurement.metadata m)
               (nextMetadata st now p m) (Tooth.mk "FDI" "11") Hnone)
      by (rewrite Hnext; reflexivity).
    simpl negb. cbv iota. rewrite Hnext. simpl Metadata.dentalTooth.
    inversion Ep; subst p. reflexivity. }
  do 7 (split; [reflexivity |]).
  rewrite Hnext. inversion Ep; subst p. simpl.
  destruct (Measurement.metadata m); simpl; repeat split; reflexivity.
Qed.

(** C2 on a fresh length measurement. *)
Lemma added_measurement_is_stamped_with_preset_and_tooth_witness :
  let service := {| getMeasurements := [] |} in
  let st :=
    fst (run [ Initialize (Some {| measurementService := Some service |})
                 (Some hostCommandsManager) ["dental"] "0001";
               SetTooth (Some (Tooth.mk "FDI" "11"));
               SelectPreset "periapical-length" ] initial) in
  let data :=
    Some [("imageId:1", Some (DataEntry.mk None (Some (JS.Fin (31 # 2))) None))] in
  let m := Measurement.mk "uid-1" (Some "") None data None None None in
  exists m' md,
    runListener ListenAdded 1000 (Some m) st = (st, [update "uid-1" m' true])
    /\ Measurement.label m' = Some "PA length (FDI 11)"
    /\ Measurement.metadata m' = Some md
    /\ Measurement.data m' = data
    /\ Metadata.dentalPresetId md = Some "periapical-length"
    /\ Metadata.dentalValue md = Some (JS.Fin (31 # 2)).
Proof.
  intros service st data m.
  destruct (added_measurement_is_stamped_with_preset_and_tooth st service 1000 m
              eq_refl eq_refl eq_refl eq_refl)
    as [p [m' [md [Hp [Hrun [Hlabel [Hmd [_ [Hdata [_ [_ [_ [Hid [_ [_ [Hval _]]]]]]]]]]]]]]]].
  exists m', md. split; [exact Hrun |]. split; [exact Hlabel |].
  split; [exact Hmd |]. split; [exact Hdata |]. split; [exact Hid |].
  rewrite Hval. inversion Hp. reflexivity.
Defined.

Lemma strict_eq_number_refl (v : option JS.number) :
  v <> Some JS.NaN -> JS.strict_eq_opt JS.strict_eq_number v v = true.
Proof.
  destruct v as [[| q] |]; simpl; intros H.
  - congruence.
  - apply Qeq_bool_iff. reflexivity.
  - reflexivity.
Qed.

Lemma metadataChanged_same (md : Metadata.t) :
  Metadata.dentalValue md <> Some JS.NaN ->
  metadataChanged (Some md) (Some md) = false.
Proof.
  intros Hv. unfold metadataChanged.
  rewrite !strict_eq_string_refl, (strict_eq_number_refl _ Hv). reflexivity.
Qed.

Lemma metadataChanged_NaN (cur next : Metadata.t) :
  Metadata.dentalValue next = Some JS.NaN ->
  metadataChanged (Some cur) (Some next) = true.
Proof.
  intros Hv. unfold metadataChanged. rewrite Hv.
  repeat match goal with |- context [if negb ?c then _ else _] => destruct (negb c) eqn:? end;
    try reflexivity.
  destruct (Metadata.dentalValue cur) as [[|]|]; discriminate.
Qed.

(** The value accessor reads nothing that an update of label and dental
    metadata rewrites. *)
Lemma computeMeasurementValue_stable (p : Preset.t) (l : option string)
    (md : Metadata.t) (m : Measurement.t) :
  Preset.valueAccessor p = None ->
  Metadata.cachedStats md = metadata_field Metadata.cachedStats (Measurement.metadata m) ->
  Metadata.length md = metadata_field Metadata.length (Measurement.metadata m) ->
  computeMeasurementValue p (Some (withLabelAndMetadata l md m))
  = computeMeasurementValue p (Some m).
Proof.
  intros Hacc Hstats Hlen. unfold computeMeasurementValue. rewrite Hacc.
  simpl. rewrite Hstats, Hlen. reflexivity.
Qed.

Lemma nextMetadata_frame (st : ModuleState) (now : Z) (p : Preset.t)
    (m : Measurement.t) :
  Metadata.cachedStats (nextMetadata st now p m)
  = metadata_field Metadata.cachedStats (Measurement.metadata m)
  /\ Metadata.length (nextMetadata st now p m)
     = metadata_field Metadata.length (Measurement.metadata m)
  /\ Metadata.dentalValue (nextMetadata st now p m)
     = computeMeasurementValue p (Some m)
  /\ Metadata.dentalPresetId (nextMetadata st now p m) = Some (Preset.id p).
Proof.
  unfold nextMetadata, stampMetadata.
  destruct (negb _ && _); destruct (Measurement.metadata m); simpl; tauto.
Qed.

(** Enriching the measurement that an enrichment produced builds the very
    same metadata, whatever the clock says. *)
Lemma nextMetadata_fixed (st : ModuleState) (now now' : Z) (p : Preset.t)
    (l : option string) (m : Measurement.t) :
  Preset.valueAccessor p = None ->
  nextMetadata st now' p (withLabelAndMetadata l (nextMetadata st now p m) m)
  = nextMetadata st now p m.
Proof.
  intros Hacc.
  destruct (nextMetadata_frame st now p m) as [Hs [Hl _]].
  assert (Hst : stampMetadata now' p
                  (withLabelAndMetadata l (nextMetadata st now p m) m)
                = nextMetadata st now p m).
  { unfold stampMetadata at 1.
    rewrite (computeMeasurementValue_stable p l _ m Hacc Hs Hl).
    clear Hs Hl. simpl Measurement.metadata. cbv iota.
    unfold nextMetadata, stampMetadata.
    generalize (computeMeasurementValue p (Some m)). intros v.
    destruct (Measurement.metadata m) as [md|]; simpl;
      [destruct (Metadata.dentalTooth md) | ];
      destruct (activeTooth st); simpl;
      try destruct (Metadata.dentalCreatedAt md); reflexivity. }
  unfold nextMetadata at 1. rewrite Hst.
  unfold nextMetadata, stampMetadata.
  destruct (Measurement.metadata m) as [md|]; simpl;
    [destruct (Metadata.dentalTooth md) | ];
    destruct (activeTooth st); reflexivity.
Qed.

Lemma presetToApply_In (st : ModuleState) (m : Measurement.t)
    (presetId : option string) (p : Preset.t) :
  presetToApply st m (findPreset presetId) = Some p ->
  In p DENTAL_MEASUREMENT_PRESETS.
Proof.
  unfold presetToApply. destruct (findPreset presetId) as [q|] eqn:E.
  - intros H. inversion H; subst q. unfold findPreset in E.
    now apply find_some in E.
  - intros H. now apply find_some in H.
Qed.

Lemma applyDentalMetadata_update (st : ModuleState) (now : Z) (m : Measurement.t)
    (preset : option Preset.t) (call : HostCall) :
  In call (applyDentalMetadata st now (Some m) preset) ->
  exists p,
    presetToApply st m preset = Some p
    /\ getMeasurementService st <> None
    /\ call = update (Measurement.uid m)
                (withLabelAndMetadata
                   (Some (labelSuffix p (Metadata.dentalTooth (nextMetadata st now p m))))
                   (nextMetadata st now p m) m) true.
Proof.
  unfold applyDentalMetadata.
  destruct (getMeasurementService st); [| intros []].
  destruct (presetToApply st m preset) as [p|]; [| intros []].
  cbv zeta. destruct (negb _ && _); [intros [] |].
  intros [H | []]. exists p. split; [reflexivity |]. split; [discriminate | now symmetry].
Qed.

(** The measurement an enrichment writes back is a fixed point of the
    enrichment, provided the value it carries is not [NaN]. *)
Lemma applyDentalMetadata_settles (st : ModuleState) (now now' : Z)
    (m : Measurement.t) (p : Preset.t) :
  In p DENTAL_MEASUREMENT_PRESETS ->
  computeMeasurementValue p (Some m) <> Some JS.NaN ->
  let next := nextMetadata st now p m in
  let m' := withLabelAndMetadata
              (Some (labelSuffix p (Metadata.dentalTooth next))) next m in
  handleMeasurementUpdated st now' (Some m') = [].
Proof.
  intros Hin Hval next m'.
  destruct (nextMetadata_frame st now p m) as [_ [_ [Hv Hid]]].
  fold next in Hv, Hid.
  assert (Hhas : measurementHasDentalMetadata m' = true).
  { unfold measurementHasDentalMetadata, m'. simpl Measurement.metadata.
    simpl metadata_field. rewrite Hid. unfold JS.or_string.
    rewrite (preset_id_truthy p Hin). exact (preset_id_truthy p Hin). }
  unfold handleMeasurementUpdated. rewrite Hhas. simpl negb. cbv iota.
  replace (metadata_field Metadata.dentalPresetId (Measurement.metadata m'))
    with (Some (Preset.id p)) by (symmetry; exact Hid).
  rewrite (findPreset_id p Hin). unfold applyDentalMetadata.
  destruct (getMeasurementService st); [| reflexivity].
  simpl presetToApply. cbv zeta iota beta.
  unfold m', next.
  rewrite (nextMetadata_fixed st now now' p _ m (preset_no_accessor p Hin)).
  fold next. simpl Measurement.metadata. simpl Measurement.label.
  rewrite (metadataChanged_same next) by (rewrite Hv; exact Hval).
  rewrite strict_eq_string_refl. reflexivity.
Qed.

Lemma listener_calls_apply (listener : Listener) (st : ModuleState) (now : Z)
    (m : Measurement.t) (call : HostCall) :
  In call (snd (runListener listener now (Some m) st)) ->
  exists presetId,
    In call (applyDentalMetadata st now (Some m) (findPreset presetId)).
Proof.
  destruct listener as [| | id]; unfold runListener; cbv [snd].
  - unfold handleMeasurementAdded.
    destruct (JS.truthy_string (activePresetId st)); [eauto |].
    destruct (measurementHasDentalMetadata m); [| intros []].
    intros H. exists None. exact H.
  - unfold handleMeasurementUpdated.
    destruct (negb (measurementHasDentalMetadata m)); [intros [] | eauto].
  - intros [].
Qed.

Lemma listener_calls_length (listener : Listener) (st : ModuleState) (now : Z)
    (m : Measurement.t) :
  (List.length (snd (runListener listener now (Some m) st)) <= 1)%nat.
Proof.
  assert (Hlen : forall preset,
            (List.length (applyDentalMetadata st now (Some m) preset) <= 1)%nat).
  { intros preset. unfold applyDentalMetadata.
    destruct (getMeasurementService st); [| simpl; lia].
    destruct (presetToApply st m preset); [| simpl; lia].
    cbv zeta. destruct (negb _ && _); simpl; lia. }
  destruct listener as [| | id]; unfold runListener; cbv [snd].
  - unfold handleMeasurementAdded.
    destruct (JS.truthy_string (activePresetId st)); [apply Hlen |].
    destruct (measurementHasDentalMetadata m); [apply Hlen | simpl; lia].
  - unfold handleMeasurementUpdated.
    destruct (negb (measurementHasDentalMetadata m)); [simpl; lia | apply Hlen].
  - simpl; lia.
Qed.

Lemma notify_S (fuel : nat) (st : ModuleState) (now : Z) (listener : Listener)
    (m : Measurement.t) :
  notify (S fuel) st now listener m
  = (snd (runListener listener now (Some m) st)
     ++ flat_map (fun call =>
                    match call with
                    | update _ m' _ => notify fuel st now ListenUpdated m'
                    | _ => []
                    end) (snd (runListener listener now (Some m) st)))%list.
Proof. reflexivity. Qed.

Lemma notify_1 (st : ModuleState) (now : Z) (listener : Listener)
    (m : Measurement.t) :
  notify 1 st now listener m = snd (runListener listener now (Some m) st).
Proof.
  rewrite notify_S. generalize (snd (runListener listener now (Some m) st)).
  intros calls. rewrite <- (app_nil_r calls) at 3. f_equal.
  induction calls as [| [] calls IH]; simpl; auto.
Qed.

(** Whichever listener wrote the update, the notification the host
    re-emits for it is answered with no further update: the chain of
    notifications stops after one round, whatever the fuel, unless the
    value written is [NaN]. *)
Lemma notify_settles_unless_NaN (fuel : nat) (st : ModuleState) (now : Z)
    (listener : Listener) (m : Measurement.t) :
  (forall uid m' flag,
      In (update uid m' flag) (notify 1 st now listener m) ->
      metadata_field Metadata.dentalValue (Measurement.metadata m') <> Some JS.NaN) ->
  notify (S (S fuel)) st now listener m = notify 1 st now listener m
  /\ (List.length (notify (S (S fuel)) st now listener m) <= 1)%nat.
Proof.
  rewrite notify_1. intros Hval.
  assert (Heq : notify (S (S fuel)) st now listener m
                = snd (runListener listener now (Some m) st)).
  { rewrite notify_S.
    rewrite <- (app_nil_r (snd (runListener listener now (Some m) st))) at 3.
    f_equal.
    assert (Hall : forall call,
              In call (snd (runListener listener now (Some m) st)) ->
              match call with
              | update _ m' _ => notify (S fuel) st now ListenUpdated m'
              | _ => []
              end = []).
    { intros call Hin.
      destruct (listener_calls_apply _ _ _ _ _ Hin) as [presetId Happ].
      destruct (applyDentalMetadata_update _ _ _ _ _ Happ) as [p [Hp [_ Hcall]]].
      subst call. rewrite notify_S. unfold runListener. cbv [snd].
      pose proof (presetToApply_In _ _ _ _ Hp) as HinP.
      rewrite (applyDentalMetadata_settles st now now m p HinP); [reflexivity |].
      specialize (Hval _ _ _ Hin). simpl in Hval.
      destruct (nextMetadata_frame st now p m) as [_ [_ [Hv _]]].
      now rewrite Hv in Hval. }
    revert Hall. generalize (snd (runListener listener now (Some m) st)).
    induction l as [| c calls IH]; intros Hall; [reflexivity |].
    cbn [flat_map]. rewrite (Hall c (or_introl eq_refl)). cbn [app].
    apply IH. intros call Hc. apply Hall. now right. }
  rewrite Heq. split; [reflexivity | apply listener_calls_length].
Qed.

(** A measurement whose dental metadata and label are already the ones the
    enricher computes is answered with no update, provided its value is
    not [NaN]. *)
Lemma unchanged_measurement_no_update (st : ModuleState) (now : Z)
    (m : Measurement.t) (md : Metadata.t) (p : Preset.t) :
  Measurement.metadata m = Some md ->
  measurementHasDentalMetadata m = true ->
  presetToApply st m (findPreset (Metadata.dentalPresetId md)) = Some p ->
  Metadata.dentalPresetId md = Metadata.dentalPresetId (nextMetadata st now p m) ->
  Metadata.dentalPresetLabel md = Metadata.dentalPresetLabel (nextMetadata st now p m) ->
  Metadata.dentalUnit md = Metadata.dentalUnit (nextMetadata st now p m) ->
  Metadata.dentalValue md = Metadata.dentalValue (nextMetadata st now p m) ->
  Metadata.dentalTooth md = Metadata.dentalTooth (nextMetadata st now p m) ->
  Measurement.label m
  = Some (labelSuffix p (Metadata.dentalTooth (nextMetadata st now p m))) ->
  Metadata.dentalValue md <> Some JS.NaN ->
  handleMeasurementUpdated st now (Some m) = [].
Proof.
  intros Hmd Hhas Hp Hid Hlabel Hunit Hvalue Htooth Hl Hnan.
  unfold handleMeasurementUpdated. rewrite Hhas. simpl negb. cbv iota.
  rewrite Hmd. simpl metadata_field. unfold applyDentalMetadata.
  destruct (getMeasurementService st); [| reflexivity].
  rewrite Hp. cbv zeta. rewrite Hmd, Hl.
  assert (Hsame : metadataChanged (Some md) (Some (nextMetadata st now p m)) = false).
  { unfold metadataChanged.
    rewrite <- Hid, <- Hlabel, <- Hunit, <- Hvalue, <- Htooth.
    rewrite !strict_eq_string_refl, (strict_eq_number_refl _ Hnan). reflexivity. }
  rewrite Hsame, strict_eq_string_refl. reflexivity.
Qed.

(** C1 fails where the value of the measurement is [NaN].  A length
    measurement whose length is [NaN] is added while the preset
    ['periapical-length'] is active: the added-listener stamps it.  The
    stamped measurement carries exactly the metadata and the label the
    enricher computes for it; the updated-listener still answers it with
    an update, whose payload is the measurement itself, so that every
    notification the host re-emits is answered with one more update: with
    [fuel] rounds of notification there are [fuel] updates. *)
Theorem updated_listener_reissues_update_for_NaN_value :
  let st :=
    fst (run [ Initialize
                 (Some {| measurementService := Some {| getMeasurements := [] |} |})
                 (Some hostCommandsManager) ["dental"] "0001";
               SelectPreset "periapical-length" ]
           initial) in
  let data := Some [("imageId:1", Some (DataEntry.mk None (Some JS.NaN) None))] in
  let added := Measurement.mk "uid-1" (Some "") None data None None None in
  let md :=
    Metadata.mk (Some "periapical-length") (Some "PA length") (Some "mm")
      (Some JS.NaN) None (Some 1000%Z) None None [] in
  let m := Measurement.mk "uid-1" (Some "PA length") (Some md) data None None None in
  handleMeasurementAdded st 1000 (Some added) = [update "uid-1" m true]
  /\ measurementHasDentalMetadata m = true
  /\ (exists p, findPreset (Metadata.dentalPresetId md) = Some p
                /\ nextMetadata st 2000 p m = md
                /\ Measurement.label m
                   = Some (labelSuffix p (Metadata.dentalTooth md)))
  /\ handleMeasurementUpdated st 2000 (Some m) = [update "uid-1" m true]
  /\ (forall fuel, List.length (notify fuel st 2000 ListenUpdated m) = fuel)
  /\ (forall fuel, List.length (notify fuel st 1000 ListenAdded added) = fuel).
Proof.
  intros st data added md m.
  assert (Hone : forall now, handleMeasurementUpdated st now (Some m)
                             = [update "uid-1" m true])
    by reflexivity.
  assert (Hloop : forall now fuel,
            List.length (notify fuel st now ListenUpdated m) = fuel).
  { intros now. induction fuel as [| fuel IH]; [reflexivity |].
    rewrite notify_S. unfold runListener. cbv [snd]. rewrite Hone.
    cbn [flat_map app]. rewrite app_nil_r. cbn [List.length]. now rewrite IH. }
  split; [reflexivity |].
  split; [reflexivity |].
  split; [eexists; repeat split; reflexivity |].
  split; [apply Hone |].
  split; [apply Hloop |].
  intros [| fuel]; [reflexivity |].
  rewrite notify_S. unfold runListener. cbv [snd].
  change (handleMeasurementAdded st 1000 (Some added)) with [update "uid-1" m true].
  cbn [flat_map app]. rewrite app_nil_r. cbn [List.length]. now rewrite Hloop.
Qed.

(** *** The re-scan *)

Lemma matchPresetByLabel_find (label : string) :
  matchPresetByLabel label
  = find (fun p => JS.test_ci (Preset.label p) label) DENTAL_MEASUREMENT_PRESETS.
Proof.
  unfold matchPresetByLabel. cbn [find DENTAL_MEASUREMENT_PRESETS Preset.label].
  destruct (JS.test_ci "PA length" label); [reflexivity |].
  destruct (JS.test_ci "Canal angle" label); [reflexivity |].
  destruct (JS.test_ci "Crown width" label); [reflexivity |].
  destruct (JS.test_ci "Root length" label); reflexivity.
Qed.

Lemma enhanceMeasurement_calls (now : Z) (m : Measurement.t) (call : HostCall) :
  In call (enhanceMeasurement now m) ->
  measurementHasDentalMetadata m = false
  /\ exists p,
       In p DENTAL_MEASUREMENT_PRESETS
       /\ JS.test_ci (Preset.label p) (labelOf m) = true
       /\ exists md,
            call = update (Measurement.uid m) (withMetadata md m) true
            /\ Metadata.dentalPresetId md = Some (Preset.id p)
            /\ Metadata.dentalPresetLabel md = Some (Preset.label p)
            /\ Metadata.dentalUnit md = Some (Preset.unit p).
Proof.
  unfold enhanceMeasurement.
  destruct (measurementHasDentalMetadata m); [intros [] |].
  cbv zeta. rewrite matchPresetByLabel_find.
  destruct (find _ DENTAL_MEASUREMENT_PRESETS) as [p|] eqn:E; [| intros []].
  apply find_some in E. destruct E as [Hin Htest].
  intros [H | []]. split; [reflexivity |]. exists p. split; [exact Hin |].
  split; [exact Htest |]. eexists. split; [symmetry; exact H |].
  destruct (toothFromLabel (labelOf m)); simpl; tauto.
Qed.

Lemma enhanceMeasurement_matching (now : Z) (m : Measurement.t) (p : Preset.t) :
  measurementHasDentalMetadata m = false ->
  In p DENTAL_MEASUREMENT_PRESETS ->
  JS.test_ci (Preset.label p) (labelOf m) = true ->
  exists md, enhanceMeasurement now m
             = [update (Measurement.uid m) (withMetadata md m) true].
Proof.
  intros Hno Hin Htest. unfold enhanceMeasurement. rewrite Hno. cbv zeta.
  rewrite matchPresetByLabel_find.
  destruct (find _ DENTAL_MEASUREMENT_PRESETS) as [q|] eqn:E.
  - eexists. reflexivity.
  - pose proof (find_none _ _ E p Hin) as Hn. simpl in Hn. congruence.
Qed.

Lemma hostUpdates_other (calls : list HostCall) :
  forall (store : list Measurement.t) (m : Measurement.t),
    (forall uid m' flag, In (update uid m' flag) calls -> uid <> Measurement.uid m) ->
    In m store -> In m (hostUpdates calls store).
Proof.
  induction calls as [| call calls IH]; intros store m Hne Hin; [exact Hin |].
  unfold hostUpdates. cbn [fold_left]. apply IH.
  - intros uid m' flag H. apply (Hne uid m' flag). now right.
  - destruct call as [uid m' flag | | |]; try exact Hin.
    simpl. apply in_map_iff. exists m. split; [| exact Hin].
    destruct (String.eqb (Measurement.uid m) uid) eqn:E; [| reflexivity].
    apply String.eqb_eq in E. exfalso.
    apply (Hne uid m' flag); [now left | now symmetry].
Qed.

(** C9. The re-scan issues updates only for measurements that lack dental
    metadata and whose label contains the label of a preset, case
    ignored, one update for each of them, each rewriting the metadata and
    nothing else.  A measurement that carries dental metadata draws no
    update: the calls are those of the re-scan run without it, no call
    names its uid where uids are unique, and the measurement is still in
    the host's store, as it was, once the host has applied the calls. *)
Theorem rescan_leaves_tagged_measurements_untouched (st : ModuleState)
    (service : MeasurementService) (now : Z) :
  getMeasurementService st = Some service ->
  let ms := getMeasurements service in
  let calls := enhanceExistingMeasurements st now in
  (forall call, In call calls ->
     exists m p md,
       In m ms
       /\ measurementHasDentalMetadata m = false
       /\ In p DENTAL_MEASUREMENT_PRESETS
       /\ JS.test_ci (Preset.label p) (labelOf m) = true
       /\ call = update (Measurement.uid m) (withMetadata md m) true
       /\ Metadata.dentalPresetId md = Some (Preset.id p))
  /\ (forall m p,
        In m ms -> measurementHasDentalMetadata m = false ->
        In p DENTAL_MEASUREMENT_PRESETS ->
        JS.test_ci (Preset.label p) (labelOf m) = true ->
        exists md, In (update (Measurement.uid m) (withMetadata md m) true) calls)
  /\ calls = flat_map (enhanceMeasurement now)
               (filter (fun m => negb (measurementHasDentalMetadata m)) ms)
  /\ (forall m,
        In m ms -> measurementHasDentalMetadata m = true ->
        enhanceMeasurement now m = []
        /\ (NoDup (map Measurement.uid ms) ->
            (forall uid m' flag, In (update uid m' flag) calls ->
                                 uid <> Measurement.uid m)
            /\ In m (hostUpdates calls ms))).
Proof.
  intros Hsvc ms calls.
  assert (Hcalls : calls = flat_map (enhanceMeasurement now) ms).
  { unfold calls, enhanceExistingMeasurements. now rewrite Hsvc. }
  assert (Htagged : forall m, measurementHasDentalMetadata m = true ->
                              enhanceMeasurement now m = []).
  { intros m H. unfold enhanceMeasurement. now rewrite H. }
  split; [| split; [| split]].
  - intros call Hin. rewrite Hcalls in Hin. apply in_flat_map in Hin.
    destruct Hin as [m [Hm Hc]].
    destruct (enhanceMeasurement_calls _ _ _ Hc) as [Hno [p [Hp [Ht [md [Hu [Hid _]]]]]]].
    exists m, p, md. tauto.
  - intros m p Hm Hno Hp Ht.
    destruct (enhanceMeasurement_matching now m p Hno Hp Ht) as [md Hmd].
    exists md. rewrite Hcalls. apply in_flat_map. exists m. split; [exact Hm |].
    rewrite Hmd. now left.
  - rewrite Hcalls. clear Hcalls. induction ms as [| m ms' IH]; [reflexivity |].
    cbn [flat_map filter]. destruct (measurementHasDentalMetadata m) eqn:E.
    + rewrite (Htagged m E). simpl. exact IH.
    + simpl. now rewrite IH.
  - intros m Hm Hhas. split; [exact (Htagged m Hhas) |].
    intros Hnodup.
    assert (Hne : forall uid m' flag, In (update uid m' flag) calls ->
                                      uid <> Measurement.uid m).
    { intros uid m' flag Hin. rewrite Hcalls in Hin. apply in_flat_map in Hin.
      destruct Hin as [x [Hx Hc]].
      destruct (enhanceMeasurement_calls _ _ _ Hc) as [Hno [_ [_ [_ [md [Hu _]]]]]].
      inversion Hu; subst uid. intros Heq.
      assert (x = m); [| congruence].
      clear - Hnodup Hx Hm Heq. induction ms as [| y ms' IH]; [destruct Hx |].
      simpl in Hnodup. inversion Hnodup as [| ? ? Hnotin Hnd]; subst.
      destruct Hx as [-> | Hx], Hm as [-> | Hm]; auto.
      - exfalso. apply Hnotin. rewrite Heq. now apply in_map.
      - exfalso. apply Hnotin. rewrite <- Heq. now apply in_map. }
    split; [exact Hne |]. now apply hostUpdates_other.
Qed.

(** C9 on a store of three measurements: one tagged, one untagged with a
    preset label and a tooth in its display label, one unrelated. *)
Lemma rescan_leaves_tagged_measurements_untouched_witness :
  let tagged :=
    Measurement.mk "uid-1" (Some "PA length (FDI 11)")
      (Some (Metadata.mk (Some "periapical-length") (Some "PA length") (Some "mm")
               (Some (JS.Fin (31 # 2))) (Some (Tooth.mk "FDI" "11")) (Some 1000%Z)
               None None []))
      None None None None in
  let untagged :=
    Measurement.mk "uid-2" (Some "left canal ANGLE (fdi 36)") None None None None
      (Some (JS.Fin 12)) in
  let other := Measurement.mk "uid-3" (Some "Length") None None None None None in
  let service := {| getMeasurements := [tagged; untagged; other] |} in
  let st :=
    fst (run [ Initialize (Some {| measurementService := Some service |})
                 (Some hostCommandsManager) ["dental"] "0001" ]
           initial) in
  enhanceMeasurement 2000 tagged = []
  /\ In tagged (hostUpdates (enhanceExistingMeasurements st 2000)
                  [tagged; untagged; other])
  /\ List.length (enhanceExistingMeasurements st 2000) = 1%nat.
Proof.
  intros tagged untagged other service st.
  destruct (rescan_leaves_tagged_measurements_untouched st service 2000 eq_refl)
    as [_ [_ [_ Htagged]]].
  destruct (Htagged tagged (or_introl eq_refl) eq_refl) as [Hnone Hstore].
  split; [exact Hnone |].
  split; [| reflexivity].
  apply Hstore. simpl.
  repeat constructor; simpl; intuition discriminate.
Defined.

(** *** The export *)



End Enrichment.

(** ** Access to annotations *)

Section Access.

Import Annotations.

Lemma depopulate_idempotent (a : Annotation) :
  depopulate (depopulate a) = depopulate a.
Proof.
  unfold depopulate. simpl. f_equal. rewrite map_map. reflexivity.
Qed.

(** An object id as it prints is cast to itself. *)
Lemma hexDigits_canonical (s : string) : allHex s = true -> hexDigits s = Some s.
Proof.
  induction s as [| c s IH]; [reflexivity |].
  cbn [allHex hexDigits]. intros H. apply andb_true_iff in H.
  destruct H as [Hc Hs]. rewrite (IH Hs).
  unfold isHex in Hc. unfold hexDigit. cbv zeta in Hc |- *. now rewrite Hc.
Qed.

Lemma castObjectId_canonical (s : string) :
  isObjectId s = true -> castObjectId s = Some s.
Proof.
  unfold isObjectId, castObjectId. intros H. apply andb_true_iff in H.
  destruct H as [Hlen Hhex]. rewrite Hlen. now apply hexDigits_canonical.
Qed.

Lemma findById_Some (db : Db) (id : ObjectId) (a : Annotation) :
  findById db id = Http.Ok (Some a) ->
  online db = true
  /\ exists id' a0,
       castObjectId id = Some id'
       /\ find (fun x => String.eqb (_id x) id') (annotations db) = Some a0
       /\ a = depopulate a0.
Proof.
  unfold findById. destruct (online db); [| discriminate].
  destruct (castObjectId id) as [id'|]; [| discriminate].
  destruct (find _ (annotations db)) as [a0|] eqn:F; [| discriminate].
  intros H. injection H as <-. split; [reflexivity |]. now exists id', a0.
Qed.

(** On a document as the collection holds it, [find] over the share list
    compares ids. *)
Lemma findEntry_depopulated (user : ObjectId) (l : list SharedEntry) :
  findEntry user (map depopulateEntry l)
  = Http.Ok (find (fun entry => String.eqb (refId (share_userId entry)) user)
               (map depopulateEntry l)).
Proof.
  induction l as [| e l IH]; [reflexivity |].
  simpl. destruct (String.eqb (refId (share_userId e)) user); [reflexivity | exact IH].
Qed.

Lemma find_share_Some (user : ObjectId) (l : list SharedEntry) (e : SharedEntry) :
  find (fun entry => String.eqb (refId (share_userId entry)) user) l = Some e ->
  In e l /\ refId (share_userId e) = user.
Proof.
  intros H. apply find_some in H. destruct H as [Hin Heq].
  split; [exact Hin | now apply String.eqb_eq].
Qed.

Lemma find_share_None (user : ObjectId) (l : list SharedEntry) :
  find (fun entry => String.eqb (refId (share_userId entry)) user) l = None ->
  forall e, In e l -> refId (share_userId e) <> user.
Proof.
  intros H e Hin Heq. pose proof (find_none _ _ H e Hin) as Hn. simpl in Hn.
  apply String.eqb_eq in Heq. congruence.
Qed.

(** In a per-user share list, the entry [find] returns for a user is the
    only one that user has. *)
Lemma find_share_unique (user : ObjectId) (l : list SharedEntry)
    (e e' : SharedEntry) :
  NoDup (map (fun entry => refId (share_userId entry)) l) ->
  find (fun entry => String.eqb (refId (share_userId entry)) user) l = Some e ->
  In e' l -> refId (share_userId e') = user -> e' = e.
Proof.
  induction l as [| x l IH]; intros Hnd Hfind Hin Hu; [destruct Hin |].
  simpl in Hnd. apply NoDup_cons_iff in Hnd. destruct Hnd as [Hnotin Hnd'].
  simpl in Hfind. destruct (String.eqb (refId (share_userId x)) user) eqn:E.
  - inversion Hfind; subst x. destruct Hin as [-> | Hin]; [reflexivity |].
    exfalso. apply Hnotin. apply String.eqb_eq in E. rewrite E, <- Hu.
    now apply (in_map (fun entry => refId (share_userId entry))).
  - destruct Hin as [-> | Hin].
    + apply String.eqb_neq in E. congruence.
    + now apply IH.
Qed.

(** What [canAccess] answers on a document as the collection holds it:
    the owner passes, a private annotation stops everyone else, and
    otherwise the entry of the user in the share list decides. *)
Lemma canAccess_depopulated (a0 : Annotation) (user : ObjectId) (perm : Permission) :
  let a := depopulate a0 in
  exists allowed,
    canAccess a user perm = Http.Ok allowed
    /\ (user = refId (userId a) -> allowed = true)
    /\ (user <> refId (userId a) -> isPrivate a = true -> allowed = false)
    /\ (user <> refId (userId a) -> isPrivate a = false ->
        (perm = read -> (allowed = true <-> exists p, holdsGrant a user p))
        /\ (perm = write -> perUser a ->
            (allowed = true <-> holdsGrant a user write))).
Proof.
  intros a. unfold canAccess. simpl toString. simpl Http.bind.
  destruct (String.eqb (refId (userId a0)) user) eqn:E.
  { apply String.eqb_eq in E. exists true. split; [reflexivity |].
    split; [reflexivity |]. simpl. split; intros; congruence. }
  apply String.eqb_neq in E. simpl isPrivate.
  destruct (isPrivate a0) eqn:P.
  { exists false. split; [reflexivity |]. simpl.
    split; [intros; congruence |]. split; [reflexivity |]. intros; discriminate. }
  simpl sharedWith. rewrite findEntry_depopulated. simpl Http.bind.
  destruct (find _ (map depopulateEntry (sharedWith a0))) as [e|] eqn:F.
  - pose proof (find_share_Some _ _ _ F) as [Hin Hu].
    destruct perm.
    + exists true. split; [reflexivity |]. simpl.
      split; [reflexivity |]. split; [intros; discriminate |].
      intros _ _. split; [| intros; discriminate].
      intros _. split; [| reflexivity]. intros _. exists (permission e), e. tauto.
    + exists (match permission e with write => true | read => false end).
      split; [reflexivity |]. simpl.
      split; [intros; congruence |]. split; [intros; discriminate |].
      intros _ _. split; [intros; discriminate |].
      intros _ Hper. destruct (permission e) eqn:Pe.
      * split; [discriminate |]. intros [e' [Hin' [Hu' Hw]]].
        rewrite (find_share_unique _ _ _ _ Hper F Hin' Hu') in Hw. congruence.
      * split; [| reflexivity]. intros _. exists e. tauto.
  - exists false. split; [now destruct perm |]. simpl.
    split; [intros; congruence |]. split; [intros; discriminate |].
    intros _ _. split; intros _.
    + split; [discriminate |]. intros [p [e [Hin [Hu _]]]].
      exfalso. exact (find_share_None _ _ F e Hin Hu).
    + intros _. split; [discriminate |]. intros [e [Hin [Hu _]]].
      exfalso. exact (find_share_None _ _ F e Hin Hu).
Qed.

(** The update route applies the rule of the claim: for an annotation of
    the collection whose share list is per user, and a body that passes
    the validation of the route and of the schema, PUT answers 200 to the
    owner, 403 to everyone else on a private annotation, and otherwise 200
    exactly to the users with a ['write'] entry and 403 to the others. *)
Lemma put_access_is_owner_then_private_then_grants (db : Db) (a : Annotation)
    (id user : ObjectId) (b : UpdateBody) :
  findById db id = Http.Ok (Some a) ->
  perUser a ->
  updateAnnotationValidation b = true ->
  schemaValid (assign b a) = true ->
  let put := Http.status (snd (putAnnotation db user id b)) in
  (user = refId (userId a) -> put = 200%nat)
  /\ (user <> refId (userId a) -> isPrivate a = true -> put = 403%nat)
  /\ (user <> refId (userId a) -> isPrivate a = false ->
        (put = 200%nat <-> holdsGrant a user write)
        /\ (put <> 200%nat -> put = 403%nat)).
Proof.
  intros Hfind Hper Hvalid Hschema put.
  destruct (findById_Some _ _ _ Hfind) as [Honline [id' [a0 [_ [_ Ha]]]]].
  destruct (canAccess_depopulated a0 user write)
    as [allowed [Hcan [Howner [Hprivate Hshared]]]].
  rewrite <- Ha in Hcan, Howner, Hprivate, Hshared.
  assert (Hput : put = if allowed then 200%nat else 403%nat).
  { unfold put, putAnnotation, putAnnotationWhen.
    rewrite Hvalid, Hfind. simpl negb. cbv iota.
    simpl Http.bind. rewrite Hcan. simpl Http.bind.
    destruct allowed; [| reflexivity].
    simpl. unfold save. rewrite Honline, Hschema. reflexivity. }
  rewrite Hput. split; [| split].
  - intros Hu. now rewrite (Howner Hu).
  - intros Hne Hp. now rewrite (Hprivate Hne Hp).
  - intros Hne Hp. destruct (Hshared Hne Hp) as [_ Hw].
    specialize (Hw eq_refl Hper). destruct allowed.
    + split; [split; [intros _; now apply Hw | reflexivity] | congruence].
    + split; [split; [discriminate | intros H; apply Hw in H; discriminate]
             | reflexivity].
Qed.

(** So does the audio route, for reading. *)
Lemma audio_access_is_owner_then_private_then_grants (db : Db) (a0 : Annotation)
    (user : ObjectId) (filename : string) :
  online db = true ->
  find (fun a => match audioFilename (content a) with
                 | Some f => String.eqb f filename
                 | None => false
                 end) (annotations db) = Some a0 ->
  let get := Http.status (getAudio db true user filename) in
  (user = refId (userId a0) -> get = 200%nat)
  /\ (user <> refId (userId a0) -> isPrivate a0 = true -> get = 403%nat)
  /\ (user <> refId (userId a0) -> isPrivate a0 = false ->
        (get = 200%nat <-> exists p, holdsGrant (depopulate a0) user p)).
Proof.
  intros Honline Hfind get.
  destruct (canAccess_depopulated a0 user read)
    as [allowed [Hcan [Howner [Hprivate Hshared]]]].
  assert (Hget : get = if allowed then 200%nat else 403%nat).
  { unfold get, getAudio. rewrite Honline, Hfind. simpl option_map. cbv iota.
    simpl Http.bind. rewrite Hcan. simpl Http.bind. now destruct allowed. }
  rewrite Hget. simpl in Howner, Hprivate, Hshared. split; [| split].
  - intros Hu. now rewrite (Howner Hu).
  - intros Hne Hp. now rewrite (Hprivate Hne Hp).
  - intros Hne Hp. destruct (Hshared Hne Hp) as [Hr _]. specialize (Hr eq_refl).
    destruct allowed.
    + split; [intros _; now apply Hr | reflexivity].
    + split; [discriminate | intros H; apply Hr in H; discriminate].
Qed.

(** *** The populated document *)

Lemma inspect_is_no_objectId (u : User) (user : ObjectId) :
  isObjectId user = true -> String.eqb (inspect u) user = false.
Proof.
  unfold isObjectId. intros H. apply andb_true_iff in H. destruct H as [Hlen Hhex].
  destruct user as [| c user]; [discriminate |].
  simpl in Hhex. apply andb_true_iff in Hhex. destruct Hhex as [Hc _].
  unfold inspect.
  match goal with
  | |- String.eqb (_ ++ ?q) _ = _ =>
      change (String.eqb (String "{"%char (" _id: new ObjectId('" ++ q))
                (String c user) = false)
  end.
  cbn [String.eqb]. destruct (Ascii.eqb "{" c) eqn:E; [| reflexivity].
  apply Ascii.eqb_eq in E. subst c. discriminate.
Qed.

Lemma findEntry_populated (db : Db) (user : ObjectId) (l : list SharedEntry) :
  isObjectId user = true ->
  findEntry user (map (populateEntry db) l) = Http.Ok None
  \/ exists code, findEntry user (map (populateEntry db) l) = Http.Throw code.
Proof.
  intros Hid. induction l as [| e l IH]; [now left |].
  assert (Hstep : findEntry user (map (populateEntry db) (e :: l))
                  = match find (fun u => String.eqb (user_id u)
                                           (refId (share_userId e))) (users db) with
                    | Some _ => findEntry user (map (populateEntry db) l)
                    | None => Http.Throw None
                    end).
  { cbn [map findEntry]. unfold populateEntry at 1. cbn [share_userId].
    unfold populateRef.
    destruct (find _ (users db)) as [u|]; cbn [toString Http.bind];
      [| reflexivity].
    now rewrite (inspect_is_no_objectId u user Hid). }
  rewrite Hstep. destruct (find _ (users db)); [exact IH |].
  right. now exists None.
Qed.

(** Once populated, a document passes the access check for no one: the
    owner and the share entries print as documents, which no object id
    equals. *)
Lemma canAccess_populated (db : Db) (a : Annotation) (user : ObjectId)
    (perm : Permission) :
  isObjectId user = true ->
  canAccess (populate db a) user perm = Http.Ok false
  \/ exists code, canAccess (populate db a) user perm = Http.Throw code.
Proof.
  intros Hid. unfold canAccess. cbn [populate userId isPrivate sharedWith].
  unfold populateRef.
  destruct (find _ (users db)) as [u|]; cbn [toString Http.bind];
    [| right; now exists None].
  rewrite (inspect_is_no_objectId u user Hid).
  destruct (isPrivate a); [now left |].
  destruct (findEntry_populated db user (sharedWith a) Hid) as [-> | [code ->]];
    cbn [Http.bind]; [now left | right; now exists code].
Qed.

(** The read route answers 200 to no one. *)
Lemma get_never_grants (db : Db) (user id : ObjectId) :
  isObjectId user = true ->
  Http.status (getAnnotation db user id) <> 200%nat.
Proof.
  intros Hid. unfold getAnnotation.
  destruct (findById db id) as [[a|]|] eqn:F; simpl; try discriminate.
  destruct (canAccess_populated db a user read Hid) as [-> | [code ->]];
    simpl; discriminate.
Qed.

(** *** The share list stays per user *)

Lemma depopulateEntries_idempotent (l : list SharedEntry) :
  map depopulateEntry (map depopulateEntry l) = map depopulateEntry l.
Proof. rewrite map_map. reflexivity. Qed.

Lemma depopulateEntries_ids (l : list SharedEntry) :
  map (fun e => refId (share_userId e)) (map depopulateEntry l)
  = map (fun e => refId (share_userId e)) l.
Proof. rewrite map_map. reflexivity. Qed.

Lemma grant_users (target : ObjectId) (perm : Permission) (now : Z)
    (l : list SharedEntry) :
  isObjectId target = true ->
  exists l',
    grant target perm now (map depopulateEntry l) = Http.Ok l'
    /\ map depopulateEntry l' = l'
    /\ map (fun e => refId (share_userId e)) l'
       = if existsb (fun e => String.eqb (refId (share_userId e)) target) l
         then map (fun e => refId (share_userId e)) l
         else (map (fun e => refId (share_userId e)) l ++ [target])%list.
Proof.
  intros Hid. induction l as [| e l IH].
  - cbn [map grant]. rewrite (castObjectId_canonical _ Hid).
    eexists. split; [reflexivity |]. split; reflexivity.
  - destruct IH as [l' [Hrun [Hst Hids]]].
    cbn [map grant existsb]. unfold depopulateEntry at 1.
    cbn [share_userId toString Http.bind refId permission sharedAt].
    destruct (String.eqb (refId (share_userId e)) target) eqn:E; cbn [orb].
    + eexists. split; [reflexivity |]. split.
      * cbn [map]. unfold depopulateEntry at 1. cbn [share_userId refId
          permission sharedAt]. f_equal. apply depopulateEntries_idempotent.
      * cbn [map share_userId refId]. f_equal. apply depopulateEntries_ids.
    + rewrite Hrun. cbn [Http.bind]. eexists. split; [reflexivity |]. split.
      * cbn [map]. unfold depopulateEntry at 1. cbn [share_userId refId
          permission sharedAt]. now rewrite Hst.
      * cbn [map share_userId refId]. rewrite Hids.
        destruct (existsb _ l); reflexivity.
Qed.

Lemma grant_perUser (target : ObjectId) (perm : Permission) (now : Z)
    (l : list SharedEntry) :
  isObjectId target = true ->
  NoDup (map (fun e => refId (share_userId e)) l) ->
  exists l',
    grant target perm now (map depopulateEntry l) = Http.Ok l'
    /\ map depopulateEntry l' = l'
    /\ NoDup (map (fun e => refId (share_userId e)) l').
Proof.
  intros Hid Hnd.
  destruct (grant_users target perm now l Hid) as [l' [Hrun [Hst Hids]]].
  exists l'. split; [exact Hrun |]. split; [exact Hst |]. rewrite Hids.
  destruct (existsb _ l) eqn:E; [exact Hnd |].
  apply NoDup_app; [exact Hnd | repeat constructor; intros [] |].
  intros u Hu [Heq | []]. subst u.
  apply in_map_iff in Hu. destruct Hu as [e [He Hin]].
  assert (Ht : existsb (fun e => String.eqb (refId (share_userId e)) target) l = true).
  { apply existsb_exists. exists e. split; [exact Hin |]. rewrite He.
    apply String.eqb_refl. }
  congruence.
Qed.

Lemma grantAll_perUser (userIds : list ObjectId) (perm : Permission) (now : Z) :
  (forall target, In target userIds -> isObjectId target = true) ->
  forall l,
    map depopulateEntry l = l ->
    NoDup (map (fun e => refId (share_userId e)) l) ->
    exists l',
      grantAll userIds perm now l = Http.Ok l'
      /\ NoDup (map (fun e => refId (share_userId e)) l').
Proof.
  induction userIds as [| u us IH]; intros Hids l Hst Hnd.
  - now exists l.
  - destruct (grant_perUser u perm now l (Hids u (or_introl eq_refl)) Hnd)
      as [l' [Hrun [Hst' Hnd']]].
    simpl. rewrite <- Hst, Hrun. simpl. apply IH; try assumption.
    intros t Ht. apply Hids. now right.
Qed.

Lemma find_replace (id : ObjectId) (saved a : Annotation) (l : list Annotation) :
  find (fun x => String.eqb (_id x) id) l = Some a ->
  _id saved = _id a ->
  find (fun x => String.eqb (_id x) id) (replace saved l) = Some saved.
Proof.
  intros Hfind Hid.
  assert (Ha : _id a = id).
  { apply find_some in Hfind. now apply String.eqb_eq. }
  induction l as [| x l IH]; [discriminate |].
  simpl in Hfind |- *. rewrite Hid, Ha.
  destruct (String.eqb (_id x) id) eqn:E.
  - simpl. now rewrite Hid, Ha, String.eqb_refl.
  - simpl. rewrite E. now apply IH.
Qed.

(** The share route keeps the share list of the annotation per user, for
    targets named as object ids print. *)
Lemma shareAnnotation_perUser (db : Db) (now : Z) (user id : ObjectId)
    (userIds : list ObjectId) (perm : Permission) (a a' : Annotation) :
  (forall target, In target userIds -> isObjectId target = true) ->
  findById db id = Http.Ok (Some a) ->
  perUser a ->
  findById (fst (shareAnnotation db now user id userIds perm)) id
  = Http.Ok (Some a') ->
  perUser a'.
Proof.
  intros Hids Hfind Hper.
  destruct (findById_Some _ _ _ Hfind) as [Honline [id' [a0 [Hcast [Hf Ha]]]]].
  unfold shareAnnotation, shareAnnotationWhen. rewrite Hfind. simpl Http.bind.
  rewrite Ha at 1. simpl toString. simpl Http.bind.
  destruct (negb (String.eqb (refId (userId a0)) user)).
  { simpl. rewrite Hfind. intros H. injection H as <-. exact Hper. }
  assert (Hst : map depopulateEntry (sharedWith a) = sharedWith a).
  { rewrite Ha. simpl. rewrite map_map. apply map_ext. intros e. reflexivity. }
  destruct (grantAll_perUser userIds perm now Hids (sharedWith a) Hst Hper)
    as [shared [Hrun Hnd]].
  rewrite Hrun. simpl Http.bind. unfold save.
  destruct (online db && schemaValid _) eqn:E.
  - simpl. unfold findById. simpl. rewrite Honline, Hcast.
    rewrite (find_replace id' _ a0 _ Hf) by (rewrite Ha; reflexivity).
    simpl. intros H. injection H as <-. unfold perUser. simpl.
    rewrite !map_map. simpl. exact Hnd.
  - simpl. rewrite Hfind. intros H. injection H as <-. exact Hper.
Qed.

(** C3 fails on the read route.  User A owns an annotation that is not
    private and has shared it with user B for writing, through the share
    route.  The update route and the audio route, which check access on
    the document as read, let A and B through; the read route, which
    populates the owner and the share list before it checks, answers 403
    to A and to B alike. *)
Theorem get_denies_owner_and_grantee_once_populated :
  let a :=
    {| _id := "64b000000000000000000001";
       userId := Unpopulated "64a00000000000000000000a";
       studyInstanceUID := "1.2.3";
       content := {| text := Some "Caries"; audioFilename := Some "audio-1.wav" |};
       category := "diagnosis"; status := "draft"; priority := "normal";
       tags := []; isPrivate := false; sharedWith := [] |} in
  let userA := {| user_id := "64a00000000000000000000a";
                  firstName := "Ann"; lastName := "Owner" |} in
  let userB := {| user_id := "64a00000000000000000000b";
                  firstName := "Bob"; lastName := "Reader" |} in
  let db0 := {| annotations := [a]; users := [userA; userB]; online := true |} in
  let db := fst (shareAnnotation db0 100 (user_id userA) (_id a)
                   [user_id userB] write) in
  let b := {| new_content := None; new_category := None;
              new_status := Some "final"; new_priority := None;
              new_tags := None; new_isPrivate := None |} in
  Http.status (getAnnotation db (user_id userA) (_id a)) = 403%nat
  /\ Http.status (getAnnotation db (user_id userB) (_id a)) = 403%nat
  /\ Http.status (snd (putAnnotation db (user_id userA) (_id a) b)) = 200%nat
  /\ Http.status (snd (putAnnotation db (user_id userB) (_id a) b)) = 200%nat
  /\ Http.status (getAudio db true (user_id userA) "audio-1.wav") = 200%nat
  /\ Http.status (getAudio db true (user_id userB) "audio-1.wav") = 200%nat.
Proof. cbv zeta. repeat split; reflexivity. Qed.

End Access.

(** ** Viewer states *)

Section AutoSave.

Import ViewerStates.


Lemma find_app_None {A : Type} (f : A -> bool) (l l' : list A) :
  find f l = None -> find f (l ++ l')%list = find f l'.
Proof.
  induction l as [| x l IH]; [reflexivity |].
  simpl. destruct (f x); [discriminate | exact IH].
Qed.


Lemma ids_replace (d : ViewerState) (l : Db) :
  map _id (replace d l) = map _id l.
Proof.
  induction l as [| x l IH]; [reflexivity |].
  simpl. destruct (String.eqb (_id x) (_id d)) eqn:E; simpl.
  - apply String.eqb_eq in E. now rewrite E.
  - now rewrite IH.
Qed.

Lemma hasKey_refl (user : ObjectId) (study session : string) (d : ViewerState) :
  userId d = user -> studyInstanceUID d = JS.trim study ->
  sessionId d = JS.trim session ->
  hasKey user study session d = true.
Proof.
  intros <- Hstudy Hsession. unfold hasKey, keyIs.
  now rewrite Hstudy, Hsession, !String.eqb_refl.
Qed.

Lemma hasKey_fields (user : ObjectId) (study session : string) (d : ViewerState) :
  hasKey user study session d = true ->
  userId d = user /\ studyInstanceUID d = JS.trim study
  /\ sessionId d = JS.trim session.
Proof.
  unfold hasKey, keyIs. intros H.
  apply andb_true_iff in H. destruct H as [H H3].
  apply andb_true_iff in H. destruct H as [H1 H2].
  repeat split; now apply String.eqb_eq.
Qed.

Lemma hasKey_hydrate (user : ObjectId) (study session : string) (d : ViewerState) :
  hasKey user study session (hydrate d) = hasKey user study session d.
Proof. reflexivity. Qed.


Lemma withDefaults_twice (st : State) :
  withDefaults (withDefaults st) = withDefaults st.
Proof.
  destruct st as [[t|] [s|] [r|] [c|] [v|] [m|] x]; reflexivity.
Qed.

Lemma stateValid_withDefaults (st : State) :
  stateValid (withDefaults st) = stateValid st.
Proof.
  unfold stateValid.
  destruct st as [[t|] [s|] r c v m x]; reflexivity.
Qed.


Lemma find_existsb {A : Type} (f : A -> bool) (l : list A) :
  find f l = None -> existsb f l = false.
Proof.
  induction l as [| x l IH]; [reflexivity |].
  simpl. destruct (f x); [discriminate | exact IH].
Qed.

(** What the upsert of the save route writes on a document that exists:
    the document keeps its id, its key and its place, takes the state and
    the flag, and its version goes up by one. *)
Lemma upsertState_existing (fault : Fault) (now : Z) (freshId user : ObjectId)
    (study session : string) (st : State) (auto : bool) (db : Db)
    (existing : ViewerState) :
  fault = NoFault \/ fault = CleanupFails ->
  find (hasKey user study session) db = Some existing ->
  stateValid st = true ->
  exists d,
    upsertState fault now freshId user study session st auto db
    = Http.Ok (replace d db, d)
    /\ _id d = _id existing
    /\ hasKey user study session d = true
    /\ state d = st /\ autoSaved d = auto
    /\ version d = (version existing + 1)%Z
    /\ updatedAt d = now
    /\ createdAt d = createdAt existing.
Proof.
  intros Hfault Hfind Hvalid.
  pose proof (find_some _ _ Hfind) as [_ Hkey].
  assert (Hrun : upsertState fault now freshId user study session st auto db
                 = upsertState NoFault now freshId user study session st auto db).
  { destruct Hfault as [-> | ->]; reflexivity. }
  rewrite Hrun. unfold upsertState, findOne. rewrite Hfind.
  cbn [Http.bind option_map].
  unfold save, schemaValid, assign. cbn [doc state isNew isModified].
  rewrite Hvalid. cbn [negb andb orb].
  unfold stamp, preSave. cbn [doc isNew isModified negb andb].
  eexists. split; [reflexivity |]. cbn. tauto.
Qed.

(** What it writes where the key has no document. *)
Lemma upsertState_new (fault : Fault) (now : Z) (freshId user : ObjectId)
    (study session : string) (st : State) (auto : bool) (db : Db) :
  fault = NoFault \/ fault = CleanupFails ->
  find (hasKey user study session) db = None ->
  stateValid st = true ->
  JS.trim study <> "" -> JS.trim session <> "" ->
  let d := {| _id := freshId; userId := user; studyInstanceUID := JS.trim study;
              sessionId := JS.trim session; state := withDefaults st;
              autoSaved := auto; version := 1; createdAt := now;
              updatedAt := now |} in
  upsertState fault now freshId user study session st auto db
  = Http.Ok ((db ++ [d])%list, d).
Proof.
  intros Hfault Hfind Hvalid Hstudy Hsession d.
  assert (Hrun : upsertState fault now freshId user study session st auto db
                 = upsertState NoFault now freshId user study session st auto db).
  { destruct Hfault as [-> | ->]; reflexivity. }
  rewrite Hrun. unfold upsertState, findOne. rewrite Hfind.
  cbn [Http.bind option_map].
  unfold save, schemaValid, create, keysPresent.
  cbn [doc state isNew isModified studyInstanceUID sessionId].
  rewrite stateValid_withDefaults, Hvalid.
  apply String.eqb_neq in Hstudy, Hsession. rewrite Hstudy, Hsession.
  cbn [negb andb orb].
  unfold stamp, preSave, withTimes. cbn [doc isNew isModified negb andb].
  cbn [_id userId studyInstanceUID sessionId state autoSaved version].
  replace (existsb (keyIs user (JS.trim study) (JS.trim session)) db) with false
    by (symmetry; exact (find_existsb _ _ Hfind)).
  reflexivity.
Qed.



End AutoSave.

Section Retention.

Import ViewerStates.

Lemma insertByUpdatedAt_perm (d : ViewerState) (l : list ViewerState) :
  Permutation (insertByUpdatedAt d l) (d :: l).
Proof.
  induction l as [| x l IH]; [reflexivity |].
  simpl. destruct (updatedAt x <=? updatedAt d)%Z; [reflexivity |].
  rewrite IH. apply perm_swap.
Qed.

Lemma sortByUpdatedAt_perm (l : list ViewerState) :
  Permutation (sortByUpdatedAt l) l.
Proof.
  induction l as [| x l IH]; [reflexivity |].
  simpl. rewrite insertByUpdatedAt_perm. now constructor.
Qed.

Lemma insertByUpdatedAt_sorted (d : ViewerState) (l : list ViewerState) :
  StronglySorted newerFirst l -> StronglySorted newerFirst (insertByUpdatedAt d l).
Proof.
  induction l as [| x l IH]; intros Hs.
  - repeat constructor.
  - simpl. apply StronglySorted_inv in Hs. destruct Hs as [Hl Hx].
    destruct (updatedAt x <=? updatedAt d)%Z eqn:E.
    + apply Z.leb_le in E. constructor; [constructor; assumption |].
      constructor; [exact E |].
      rewrite Forall_forall in Hx |- *. intros y Hy.
      specialize (Hx y Hy). unfold newerFirst in *. lia.
    + apply Z.leb_gt in E. constructor; [now apply IH |].
      rewrite Forall_forall in Hx |- *. intros y Hy.
      apply (Permutation_in _ (insertByUpdatedAt_perm d l)) in Hy.
      destruct Hy as [<- | Hy]; [unfold newerFirst; lia | now apply Hx].
Qed.

Lemma sortByUpdatedAt_sorted (l : list ViewerState) :
  StronglySorted newerFirst (sortByUpdatedAt l).
Proof.
  induction l as [| x l IH]; [constructor |].
  simpl. now apply insertByUpdatedAt_sorted.
Qed.

Lemma skipn_In {A : Type} (n : nat) (l : list A) (x : A) :
  In x (skipn n l) -> In x l.
Proof.
  intros H. rewrite <- (firstn_skipn n l). apply in_or_app. now right.
Qed.

(** In a list sorted newest first, whatever is past a cut is no newer
    than whatever is before it. *)
Lemma sorted_cut (n : nat) (l : list ViewerState) (k d : ViewerState) :
  StronglySorted newerFirst l ->
  In k (firstn n l) -> In d (skipn n l) -> newerFirst k d.
Proof.
  revert n. induction l as [| x l IH]; intros n Hs Hk Hd.
  - destruct n; destruct Hk.
  - destruct n as [| n]; [destruct Hk |].
    apply StronglySorted_inv in Hs. destruct Hs as [Hl Hx].
    simpl in Hk, Hd. destruct Hk as [<- | Hk].
    + rewrite Forall_forall in Hx. apply Hx.
      apply (skipn_In n). exact Hd.
    + now apply (IH n).
Qed.

Lemma id_injective (l : list ViewerState) (x y : ViewerState) :
  NoDup (map _id l) -> In x l -> In y l -> _id x = _id y -> x = y.
Proof.
  induction l as [| z l IH]; intros Hnd Hx Hy Heq; [destruct Hx |].
  simpl in Hnd. apply NoDup_cons_iff in Hnd. destruct Hnd as [Hnotin Hnd].
  destruct Hx as [-> | Hx], Hy as [-> | Hy]; auto.
  - exfalso. apply Hnotin. rewrite Heq. now apply in_map.
  - exfalso. apply Hnotin. rewrite <- Heq. now apply in_map.
Qed.

Lemma deleteMany_In (ids : list ObjectId) (db : Db) (d : ViewerState) :
  In d (deleteMany ids db) <-> In d db /\ ~ In (_id d) ids.
Proof.
  unfold deleteMany. rewrite filter_In. split; intros [Hin H]; split; auto.
  - intros Hid. apply negb_true_iff in H.
    assert (Ht : existsb (String.eqb (_id d)) ids = true).
    { apply existsb_exists. exists (_id d). split; [exact Hid | apply String.eqb_refl]. }
    congruence.
  - apply negb_true_iff.
    destruct (existsb (String.eqb (_id d)) ids) eqn:E; [| reflexivity].
    apply existsb_exists in E. destruct E as [i [Hi Heq]].
    apply String.eqb_eq in Heq. subst i. contradiction.
Qed.

Lemma cleanupOldStates_run (fault : Fault) (db : Db) (user : ObjectId)
    (study : string) :
  fault <> CleanupFails ->
  cleanupOldStates fault db user study
  = Http.Ok (deleteMany (map _id (oldStates db user study)) db).
Proof.
  intros Hfault. unfold cleanupOldStates.
  assert (Hnone : deleteMany [] db = db).
  { unfold deleteMany. simpl. induction db as [| x l IH]; [reflexivity |].
    simpl. now rewrite IH. }
  destruct fault; try congruence;
    destruct (oldStates db user study); simpl map; now rewrite ?Hnone.
Qed.

(** The retention rule of [cleanupOldStates], on a collection with unique
    ids: of the documents of the user and study, the ten most recently
    updated stay and all others go; documents of other users and studies
    stay. *)
Lemma cleanupOldStates_keeps_ten (db : Db) (user : ObjectId) (study : string) :
  NoDup (map _id db) ->
  let sorted := sortByUpdatedAt (filter (ofStudy user study) db) in
  exists db',
    cleanupOldStates NoFault db user study = Http.Ok db'
    /\ (forall d, In d db' <-> In d db /\ ~ In d (skipn 10 sorted))
    /\ (forall d, ofStudy user study d = true ->
                  (In d db' <-> In d (firstn 10 sorted)))
    /\ (forall d, ofStudy user study d = false -> (In d db' <-> In d db))
    /\ (List.length (filter (ofStudy user study) db') <= 10)%nat
    /\ (forall k d, In k (firstn 10 sorted) -> In d (skipn 10 sorted) ->
                    newerFirst k d).
Proof.
  intros Hnd sorted.
  assert (Hperm : Permutation sorted (filter (ofStudy user study) db))
    by apply sortByUpdatedAt_perm.
  assert (Hsplit : sorted = (firstn 10 sorted ++ skipn 10 sorted)%list)
    by (symmetry; apply firstn_skipn).
  assert (Hsub : forall d, In d sorted <-> In d db /\ ofStudy user study d = true).
  { intros d. rewrite <- filter_In. split; apply Permutation_in;
      [exact Hperm | now symmetry]. }
  assert (Hnds : NoDup (map _id sorted)).
  { apply (Permutation_NoDup (l := map _id (filter (ofStudy user study) db))).
    - apply Permutation_map. now symmetry.
    - clear - Hnd. induction db as [| x l IH]; [constructor |].
      simpl in Hnd. apply NoDup_cons_iff in Hnd. destruct Hnd as [Hnotin Hnd].
      simpl. destruct (ofStudy user study x); [| now apply IH].
      simpl. constructor; [| now apply IH].
      intros Hin. apply Hnotin. apply in_map_iff in Hin.
      destruct Hin as [y [Hy Hin]]. apply filter_In in Hin.
      rewrite <- Hy. apply in_map. tauto. }
  assert (Hdrop : forall d, In d db ->
                    (In (_id d) (map _id (skipn 10 sorted)) <-> In d (skipn 10 sorted))).
  { intros d Hd. split; [| apply in_map].
    intros Hin. apply in_map_iff in Hin. destruct Hin as [y [Hy Hin]].
    assert (Hy' : In y db).
    { apply Hsub. rewrite Hsplit. apply in_or_app. now right. }
    now rewrite <- (id_injective db y d Hnd Hy' Hd Hy). }
  assert (Hdisj : forall d, In d (firstn 10 sorted) -> ~ In d (skipn 10 sorted)).
  { intros d Hk Hs. rewrite Hsplit, map_app in Hnds.
    apply NoDup_app_remove_l in Hnds as Hr.
    revert Hnds Hk Hs. generalize (firstn 10 sorted) (skipn 10 sorted).
    induction l as [| x l IH]; intros r Hn Hk Hs; [destruct Hk |].
    simpl in Hn. apply NoDup_cons_iff in Hn. destruct Hn as [Hnotin Hn].
    destruct Hk as [-> | Hk]; [| now apply (IH r)].
    apply Hnotin. apply in_or_app. right. now apply in_map. }
  exists (deleteMany (map _id (oldStates db user study)) db).
  assert (Hall : forall d,
            In d (deleteMany (map _id (oldStates db user study)) db)
            <-> In d db /\ ~ In d (skipn 10 sorted)).
  { intros d. rewrite deleteMany_In. unfold oldStates. fold sorted.
    split; intros [Hd Hn]; (split; [exact Hd |]); intros H; apply Hn;
      now apply (Hdrop d Hd). }
  split; [apply cleanupOldStates_run; discriminate |].
  split; [exact Hall |].
  split.
  { intros d Hof. rewrite Hall. split.
    - intros [Hd Hn].
      assert (Hs : In d sorted) by (apply Hsub; tauto).
      rewrite Hsplit in Hs. apply in_app_or in Hs. tauto.
    - intros Hk. split; [| now apply Hdisj].
      apply Hsub. rewrite Hsplit. apply in_or_app. now left. }
  split.
  { intros d Hof. rewrite Hall. split; [tauto |]. intros Hd. split; [exact Hd |].
    intros Hs. assert (Hin : In d sorted).
    { rewrite Hsplit. apply in_or_app. now right. }
    apply Hsub in Hin. destruct Hin as [_ Ht]. congruence. }
  split.
  { apply Nat.le_trans with (List.length (firstn 10 sorted)).
    - apply NoDup_incl_length.
      + apply NoDup_filter. apply (NoDup_map_inv _id).
        unfold deleteMany. clear - Hnd.
        generalize (fun d : ViewerState =>
                      negb (existsb (String.eqb (_id d))
                              (map _id (oldStates db user study)))).
        intros keep. induction db as [| x l IH]; [constructor |].
        simpl in Hnd. apply NoDup_cons_iff in Hnd. destruct Hnd as [Hnotin Hnd].
        simpl. destruct (keep x); [| now apply IH].
        simpl. constructor; [| now apply IH].
        intros Hin. apply Hnotin. apply in_map_iff in Hin.
        destruct Hin as [y [Hy Hin]]. apply filter_In in Hin.
        rewrite <- Hy. apply in_map. tauto.
      + intros d Hd. apply filter_In in Hd. destruct Hd as [Hd Hof].
        apply Hall in Hd. destruct Hd as [Hd Hn].
        assert (Hs : In d sorted) by (apply Hsub; tauto).
        rewrite Hsplit in Hs. apply in_app_or in Hs. tauto.
    - apply firstn_le_length. }
  intros k d Hk Hd. apply (sorted_cut 10 sorted); [apply sortByUpdatedAt_sorted | |];
    assumption.
Qed.

(** *** Eleven sessions *)





Lemma increasing_app (l : list Z) (t : Z) :
  increasing (l ++ [t]) <-> increasing l /\ forall u, In u l -> (u < t)%Z.
Proof.
  induction l as [| x l IH]; simpl.
  - split; [intros _; split; [exact I | intros u []] | intros _; split; [intros t' [] | exact I]].
  - rewrite IH. split.
    + intros [Hx [Hl Ht]]. split; [split; [| exact Hl] |].
      * intros t' Ht'. apply Hx. apply in_or_app. now left.
      * intros u [<- | Hu]; [| now apply Ht].
        apply Hx. apply in_or_app. right. now left.
    + intros [[Hx Hl] Ht]. split; [| split; [exact Hl |]].
      * intros t' Ht'. apply in_app_or in Ht'. destruct Ht' as [Ht' | [<- | []]].
        -- now apply Hx.
        -- apply Ht. now left.
      * intros u Hu. apply Ht. now right.
Qed.

Lemma increasing_skipn (n : nat) (l : list Z) :
  increasing l -> increasing (skipn n l).
Proof.
  revert l. induction n as [| n IH]; intros l H; [exact H |].
  destruct l as [| x l]; [exact H |]. simpl. apply IH. now destruct H.
Qed.

Lemma NoDup_skipn {A : Type} (n : nat) (l : list A) :
  NoDup l -> NoDup (skipn n l).
Proof.
  intros H. rewrite <- (firstn_skipn n l) in H. now apply NoDup_app_remove_l in H.
Qed.

Lemma orderly_lastTen (study : string) (requests : list Request) :
  orderly study requests -> orderly study (lastTen requests).
Proof.
  unfold orderly, lastTen. intros [Hs [Hall [Hses [Hid Hinc]]]].
  split; [exact Hs |].
  split; [intros r Hr; apply Hall; now apply skipn_In in Hr |].
  rewrite <- !skipn_map.
  split; [now apply NoDup_skipn |].
  split; [now apply NoDup_skipn | now apply increasing_skipn].
Qed.





(** *** The save route *)


Lemma saveRoute_response (now : Z) (freshId user : ObjectId) (study session : string)
    (st : State) (auto : bool) (db db1 : Db) (d : ViewerState) :
  study <> "" -> session <> "" ->
  upsertState NoFault now freshId user study session st auto db = Http.Ok (db1, d) ->
  saveRoute NoFault now freshId user
    {| body_studyInstanceUID := Some study; body_sessionId := Some session;
       body_state := Some st; body_autoSaved := Some auto |} db
  = (deleteMany (map _id (oldStates db1 user study)) db1,
     Http.json (Http.StateSaved "Viewer state saved successfully"
                  (_id d) (version d) (updatedAt d))).
Proof.
  intros Hs Hse Hup. unfold saveRoute. simpl body_studyInstanceUID.
  simpl body_sessionId. simpl body_state. cbv iota.
  assert (Hv : saveStateValidation
                 {| body_studyInstanceUID := Some study;
                    body_sessionId := Some session;
                    body_state := Some st; body_autoSaved := Some auto |} = true).
  { unfold saveStateValidation. simpl.
    apply String.eqb_neq in Hs. apply String.eqb_neq in Hse. now rewrite Hs, Hse. }
  rewrite Hv. simpl negb. cbv iota. simpl Annotations.orElse. rewrite Hup.
  rewrite cleanupOldStates_run by discriminate. reflexivity.
Qed.



End Retention.

(** ** The manager over its whole life *)

Section Listeners.

Import Manager.

Lemma updates_only_filter (calls : list HostCall) :
  (forall call, In call calls -> exists uid m flag, call = update uid m flag) ->
  filter isSubscribe calls = [] /\ filter isUnsubscribe calls = [].
Proof.
  induction calls as [| c calls IH]; intros H; [split; reflexivity |].
  destruct (H c (or_introl eq_refl)) as [uid [m [flag ->]]].
  simpl. apply IH. intros call Hin. apply H. now right.
Qed.

Lemma listener_calls_are_updates (listener : Listener) (st : ModuleState)
    (now : Z) (m : option Measurement.t) (call : HostCall) :
  In call (snd (runListener listener now m st)) ->
  exists uid m' flag, call = update uid m' flag.
Proof.
  destruct m as [m|].
  - intros Hin. apply listener_calls_apply in Hin. destruct Hin as [presetId Hin].
    apply applyDentalMetadata_update in Hin. destruct Hin as [p [_ [_ ->]]]. eauto.
  - destruct listener; simpl; intros [].
Qed.

Lemma enhance_calls_are_updates (st : ModuleState) (now : Z) (call : HostCall) :
  In call (enhanceExistingMeasurements st now) ->
  exists uid m' flag, call = update uid m' flag.
Proof.
  unfold enhanceExistingMeasurements.
  destruct (getMeasurementService st) as [service|]; [| intros []].
  intros Hin. apply in_flat_map in Hin. destruct Hin as [m [_ Hin]].
  apply enhanceMeasurement_calls in Hin.
  destruct Hin as [_ [p [_ [_ [md [-> _]]]]]]. eauto.
Qed.

(** One operation: what it subscribes and unsubscribes squares with the
    subscriptions the module records before and after. *)
Lemma step_subscriptions (op : Op) (st : ModuleState) :
  (List.length (subscriptions st)
   + List.length (filter isSubscribe (snd (step op st))))%nat
  = (List.length (filter isUnsubscribe (snd (step op st)))
     + List.length (subscriptions (fst (step op st))))%nat.
Proof.
  destruct op as [sm cm groups uuid | | presetId | selection | now | listener now m];
    cbn [step].
  - unfold initializeDentalMeasurements.
    destruct sm as [sm|]; [| simpl; lia].
    destruct cm as [cm|]; [| simpl; lia].
    destruct (measurementService sm); [| simpl; lia].
    cbn [clearSubscriptions fst snd subscriptions].
    rewrite !filter_app, !length_app.
    assert (Hu : forall l, filter isSubscribe (map unsubscribe l) = []
                           /\ filter isUnsubscribe (map unsubscribe l)
                              = map unsubscribe l).
    { induction l as [| s l [IH1 IH2]]; [split; reflexivity |].
      simpl. rewrite IH1, IH2. split; reflexivity. }
    destruct (Hu (subscriptions st)) as [-> ->].
    rewrite length_map. simpl. lia.
  - unfold teardownDentalMeasurements. cbn [clearSubscriptions fst snd subscriptions].
    assert (Hu : forall l, filter isSubscribe (map unsubscribe l) = []
                           /\ filter isUnsubscribe (map unsubscribe l)
                              = map unsubscribe l).
    { induction l as [| s l [IH1 IH2]]; [split; reflexivity |].
      simpl. rewrite IH1, IH2. split; reflexivity. }
    destruct (Hu (subscriptions st)) as [-> ->].
    rewrite length_map. simpl. lia.
  - rewrite select_state. unfold selectDentalMeasurementPreset.
    destruct (findPreset (Some presetId)); [| simpl; lia].
    destruct (integration (withActivePresetId (Some presetId) st)); simpl; lia.
  - simpl. lia.
  - cbn [fst snd].
    destruct (updates_only_filter (enhanceExistingMeasurements st now)
                (enhance_calls_are_updates st now)) as [-> ->].
    simpl. lia.
  - destruct (updates_only_filter (snd (runListener listener now m st))
                (listener_calls_are_updates listener st now m)) as [-> ->].
    destruct listener as [ | | id]; simpl; try lia.
    unfold handleMeasurementsCleared. destruct (negb _); simpl; lia.
Qed.

Lemma run_subscriptions (ops : list Op) :
  forall st,
    (List.length (subscriptions st)
     + List.length (filter isSubscribe (snd (run ops st))))%nat
    = (List.length (filter isUnsubscribe (snd (run ops st)))
       + List.length (subscriptions (fst (run ops st))))%nat.
Proof.
  induction ops as [| op ops IH]; intros st; [simpl; lia |].
  simpl run. pose proof (step_subscriptions op st) as Hs.
  destruct (step op st) as [st1 calls1]. specialize (IH st1).
  destruct (run ops st1) as [st2 calls2]. cbn [fst snd] in *.
  rewrite !filter_app, !length_app. lia.
Qed.

Lemma step_current (op : Op) (st : ModuleState) :
  recordsCurrent st -> recordsCurrent (fst (step op st)).
Proof.
  intros Hc.
  destruct op as [sm cm groups uuid | | presetId | selection | now | listener now m];
    cbn [step].
  - unfold initializeDentalMeasurements.
    destruct sm as [sm|]; [| exact Hc].
    destruct cm as [cm|]; [| exact Hc].
    destruct (measurementService sm); [| exact Hc].
    right. eexists. split; reflexivity.
  - left. reflexivity.
  - rewrite select_state. exact Hc.
  - exact Hc.
  - exact Hc.
  - destruct listener as [ | | id]; simpl; try exact Hc.
    unfold handleMeasurementsCleared. destruct (negb _); exact Hc.
Qed.

Lemma run_current (ops : list Op) :
  forall st, recordsCurrent st -> recordsCurrent (fst (run ops st)).
Proof.
  induction ops as [| op ops IH]; intros st Hc; [exact Hc |].
  simpl run. pose proof (step_current op st Hc) as Hs.
  destruct (step op st) as [st1 calls1]. specialize (IH st1 Hs).
  destruct (run ops st1) as [st2 calls2]. exact IH.
Qed.

(** X1. Listeners never leak.  Over any sequence of operations on the
    freshly loaded module, every subscription made at the host is either
    unsubscribed again or still recorded by the module; and what the
    module records is nothing, or exactly the three listeners of the
    initialization whose id it remembers, so that the cleared-listener
    in place is never a stale one. *)
Theorem listeners_never_leak (ops : list Op) :
  let st := fst (run ops initial) in
  let calls := snd (run ops initial) in
  List.length (filter isSubscribe calls)
  = (List.length (filter isUnsubscribe calls) + List.length (subscriptions st))%nat
  /\ (subscriptions st = []
      \/ exists id,
           lastInitializationId st = Some id
           /\ subscriptions st = listenersOf id).
Proof.
  split.
  - exact (run_subscriptions ops initial).
  - apply run_current. left. reflexivity.
Qed.

Lemma applyDentalMetadata_no_service (st : ModuleState) (now : Z)
    (m : option Measurement.t) (preset : option Preset.t) :
  getMeasurementService st = None -> applyDentalMetadata st now m preset = [].
Proof.
  intros Hs. unfold applyDentalMetadata. destruct m; [| reflexivity].
  rewrite Hs. reflexivity.
Qed.

(** X2. Outside the life of an integration context (before the first
    initialization that gets past its guard, and after a teardown until
    the next one) the module is inert towards the host: a listener the
    host still calls, a re-scan and a preset selection issue no call. *)
Theorem module_without_integration_issues_no_call (ops : list Op) :
  installed ops false = false ->
  let st := fst (run ops initial) in
  (forall listener now m, snd (runListener listener now m st) = [])
  /\ (forall now, enhanceExistingMeasurements st now = [])
  /\ (forall presetId, snd (selectDentalMeasurementPreset presetId st) = []).
Proof.
  intros Hinst st.
  pose proof (run_integration ops initial) as Hint. fold st in Hint.
  simpl in Hint. rewrite Hinst in Hint.
  assert (Hnone : integration st = None).
  { destruct (integration st); [discriminate | reflexivity]. }
  assert (Hsvc : getMeasurementService st = None).
  { unfold getMeasurementService. rewrite Hnone. reflexivity. }
  split; [| split].
  - intros listener now m. destruct listener as [ | | id]; simpl.
    + unfold handleMeasurementAdded. destruct m as [m|]; [| reflexivity].
      destruct (JS.truthy_string (activePresetId st)).
      * apply applyDentalMetadata_no_service, Hsvc.
      * destruct (measurementHasDentalMetadata m); [| reflexivity].
        apply applyDentalMetadata_no_service, Hsvc.
    + unfold handleMeasurementUpdated. destruct m as [m|]; [| reflexivity].
      destruct (negb (measurementHasDentalMetadata m)); [reflexivity |].
      apply applyDentalMetadata_no_service, Hsvc.
    + reflexivity.
  - intros now. unfold enhanceExistingMeasurements. rewrite Hsvc. reflexivity.
  - intros presetId. unfold selectDentalMeasurementPreset.
    destruct (findPreset (Some presetId)); [| reflexivity].
    simpl. rewrite Hnone. reflexivity.
Qed.

(** X2 after a session that ends with a teardown: the added-listener of
    that session, called late, does nothing. *)
Lemma module_without_integration_issues_no_call_witness :
  let sm := Some {| measurementService := Some {| getMeasurements := [] |} |} in
  let ops := [ Initialize sm (Some hostCommandsManager) ["dental"] "0001";
               SelectPreset "periapical-length";
               Teardown;
               SelectPreset "canal-angle" ] in
  let m := Measurement.mk "uid-1" (Some "") None None None (Some (JS.Fin 12)) None in
  snd (runListener ListenAdded 1000 (Some m) (fst (run ops initial))) = []
  /\ snd (selectDentalMeasurementPreset "crown-width" (fst (run ops initial))) = [].
Proof.
  intros sm ops m.
  destruct (module_without_integration_issues_no_call ops eq_refl)
    as [Hlisten [_ Hselect]].
  split; [apply Hlisten | apply Hselect].
Defined.

End Listeners.

(** ** What a stamp keeps *)

Section Restamp.

Import Manager.

(** X3. The enricher settles.  Where the value computed for a measurement
    is a number other than [NaN], whichever preset applies, a listener
    answers the measurement with one update at most, and the notification
    the host re-emits for that update is answered with none: however long
    the host goes on notifying, the calls are the ones of the first
    round. *)
Theorem enricher_settles_after_one_update (fuel : nat) (st : ModuleState) (now : Z)
    (listener : Listener) (m : Measurement.t) :
  (forall p, In p DENTAL_MEASUREMENT_PRESETS ->
             computeMeasurementValue p (Some m) <> Some JS.NaN) ->
  notify (S fuel) st now listener m = snd (runListener listener now (Some m) st)
  /\ (List.length (notify (S fuel) st now listener m) <= 1)%nat.
Proof.
  intros Hvalue.
  destruct fuel as [| fuel].
  - rewrite notify_1. split; [reflexivity | apply listener_calls_length].
  - destruct (notify_settles_unless_NaN fuel st now listener m) as [Heq Hlen].
    + intros uid m' flag Hin. rewrite notify_1 in Hin.
      apply listener_calls_apply in Hin. destruct Hin as [presetId Hin].
      pose proof (applyDentalMetadata_update _ _ _ _ _ Hin) as [p [Hp [_ Hcall]]].
      injection Hcall as _ -> _. cbn [Measurement.metadata withLabelAndMetadata metadata_field].
      destruct (nextMetadata_frame st now p m) as [_ [_ [-> _]]].
      apply Hvalue. eapply presetToApply_In. exact Hp.
    + rewrite Heq, notify_1. split; [reflexivity | apply listener_calls_length].
Qed.

(** X3 on a length measurement added while a preset and a tooth are
    selected: ten rounds of notification, one update. *)
Lemma enricher_settles_after_one_update_witness :
  let st :=
    fst (run [ Initialize
                 (Some {| measurementService := Some {| getMeasurements := [] |} |})
                 (Some hostCommandsManager) ["dental"] "0001";
               SetTooth (Some (Tooth.mk "FDI" "11"));
               SelectPreset "periapical-length" ] initial) in
  let m :=
    Measurement.mk "uid-1" (Some "") None
      (Some [("imageId:1", Some (DataEntry.mk None (Some (JS.Fin (31 # 2))) None))])
      None None None in
  List.length (notify 10 st 1000 ListenAdded m) = 1%nat.
Proof.
  intros st m.
  destruct (enricher_settles_after_one_update 9 st 1000 ListenAdded m) as [Heq _].
  - intros p [<- | [<- | [<- | [<- | []]]]]; discriminate.
  - rewrite Heq. reflexivity.
Defined.

(** X4. A stamp never overwrites what a measurement records of its tooth
    and of its creation time.  Every call a listener issues for a
    measurement is an update of that measurement which changes its label
    and metadata only; in the metadata, a recorded tooth and a recorded
    creation time are kept (the selected tooth and the current time fill
    in where there is none), and so are the cached statistics, the length
    and every key the enricher does not know. *)
Theorem stamp_keeps_recorded_tooth_and_creation_time (listener : Listener)
    (st : ModuleState) (now : Z) (m : Measurement.t) (call : HostCall) :
  In call (snd (runListener listener now (Some m) st)) ->
  exists label md,
    call = update (Measurement.uid m) (withLabelAndMetadata (Some label) md m) true
    /\ (forall tooth,
          metadata_field Metadata.dentalTooth (Measurement.metadata m) = Some tooth ->
          Metadata.dentalTooth md = Some tooth)
    /\ (metadata_field Metadata.dentalTooth (Measurement.metadata m) = None ->
        Metadata.dentalTooth md = activeTooth st)
    /\ (forall created,
          metadata_field Metadata.dentalCreatedAt (Measurement.metadata m)
          = Some created ->
          Metadata.dentalCreatedAt md = Some created)
    /\ (metadata_field Metadata.dentalCreatedAt (Measurement.metadata m) = None ->
        Metadata.dentalCreatedAt md = Some now)
    /\ Metadata.cachedStats md
       = metadata_field Metadata.cachedStats (Measurement.metadata m)
    /\ Metadata.length md = metadata_field Metadata.length (Measurement.metadata m)
    /\ Metadata.others md
       = match Measurement.metadata m with
         | Some recorded => Metadata.others recorded
         | None => []
         end.
Proof.
  intros Hin. apply listener_calls_apply in Hin. destruct Hin as [presetId Hin].
  apply applyDentalMetadata_update in Hin. destruct Hin as [p [_ [_ ->]]].
  eexists. eexists. split; [reflexivity |].
  unfold nextMetadata, stampMetadata, metadata_field.
  destruct (Measurement.metadata m) as [recorded|]; cbn [Metadata.dentalTooth];
    [ destruct (Metadata.dentalTooth recorded) as [tooth|] eqn:Et
    | change (Metadata.dentalTooth Metadata.empty) with (@None Tooth.t) ];
    cbn [JS.truthy_object negb andb];
    try (destruct (activeTooth st) as [active|] eqn:Ea);
    cbn [JS.truthy_object negb andb withTooth Metadata.dentalTooth
         Metadata.dentalCreatedAt Metadata.cachedStats Metadata.length
         Metadata.others Metadata.empty JS.nullish];
    repeat split; try congruence; try discriminate;
    try (intros created ->; reflexivity);
    try (intros ->; reflexivity).
Qed.

(** X4 where the selected tooth differs from the recorded one. *)
Lemma stamp_keeps_recorded_tooth_and_creation_time_witness :
  let st :=
    fst (run [ Initialize
                 (Some {| measurementService := Some {| getMeasurements := [] |} |})
                 (Some hostCommandsManager) ["dental"] "0001";
               SetTooth (Some (Tooth.mk "FDI" "11"));
               SelectPreset "canal-angle" ] initial) in
  let recorded :=
    Metadata.mk (Some "periapical-length") (Some "PA length") (Some "mm")
      (Some (JS.Fin 12)) (Some (Tooth.mk "FDI" "21")) (Some 500%Z) None None
      [("note", "distal")] in
  let m := Measurement.mk "uid-1" (Some "PA length (FDI 21)") (Some recorded)
             None None None (Some (JS.Fin 30)) in
  exists label md,
    handleMeasurementAdded st 1000 (Some m)
    = [update "uid-1" (withLabelAndMetadata (Some label) md m) true]
    /\ Metadata.dentalTooth md = Some (Tooth.mk "FDI" "21")
    /\ Metadata.dentalCreatedAt md = Some 500%Z
    /\ Metadata.others md = [("note", "distal")].
Proof.
  intros st recorded m.
  assert (Hcall : exists call, handleMeasurementAdded st 1000 (Some m) = [call]).
  { eexists. reflexivity. }
  destruct Hcall as [call Hcall].
  destruct (stamp_keeps_recorded_tooth_and_creation_time ListenAdded st 1000 m call)
    as [label [md [-> [Ht [_ [Hc [_ [_ [_ Ho]]]]]]]]].
  - change (snd (runListener ListenAdded 1000 (Some m) st))
      with (handleMeasurementAdded st 1000 (Some m)).
    rewrite Hcall. now left.
  - exists label, md. split; [exact Hcall |].
    split; [apply Ht; reflexivity |].
    split; [apply Hc; reflexivity | exact Ho].
Defined.

(** X5. Selecting another preset never relabels what is stamped.  For a
    measurement that records a preset id, the answer of the
    updated-listener does not depend on the active preset, and it is no
    call at all where the recorded id is not in the table.  The
    added-listener differs: while a preset of the table is active, every
    call it issues is an update of the measurement, and the measurement
    it writes carries, in its metadata, the id, the label and the unit of
    the active preset and, as its label, the label of the active preset
    with the tooth of those metadata, whatever the measurement records. *)
Theorem stamped_measurement_ignores_active_preset (st : ModuleState) (now : Z)
    (m : Measurement.t) (presetId : string) :
  metadata_field Metadata.dentalPresetId (Measurement.metadata m) = Some presetId ->
  presetId <> "" ->
  (forall other,
      handleMeasurementUpdated (withActivePresetId other st) now (Some m)
      = handleMeasurementUpdated st now (Some m))
  /\ (~ known presetId -> handleMeasurementUpdated st now (Some m) = [])
  /\ (forall p call,
        In p DENTAL_MEASUREMENT_PRESETS ->
        In call (handleMeasurementAdded
                   (withActivePresetId (Some (Preset.id p)) st) now (Some m)) ->
        exists m' md,
          call = update (Measurement.uid m) m' true
          /\ Measurement.metadata m' = Some md
          /\ Measurement.label m'
             = Some (labelSuffix p (Metadata.dentalTooth md))
          /\ Metadata.dentalPresetId md = Some (Preset.id p)
          /\ Metadata.dentalPresetLabel md = Some (Preset.label p)
          /\ Metadata.dentalUnit md = Some (Preset.unit p)).
Proof.
  intros Hid Hne.
  assert (Htruthy : JS.truthy_string (Some presetId) = true).
  { simpl. destruct (String.eqb presetId "") eqn:E; [| reflexivity].
    apply String.eqb_eq in E. contradiction. }
  assert (Hhas : measurementHasDentalMetadata m = true).
  { unfold measurementHasDentalMetadata, JS.or_string. rewrite Hid, Htruthy.
    exact Htruthy. }
  split; [| split].
  - intros other. unfold handleMeasurementUpdated. rewrite Hhas. cbn [negb].
    rewrite Hid. unfold applyDentalMetadata.
    change (getMeasurementService (withActivePresetId other st))
      with (getMeasurementService st).
    destruct (getMeasurementService st); [| reflexivity].
    unfold presetToApply. rewrite Hid, Htruthy.
    destruct (findPreset (Some presetId)) as [p|] eqn:Ef; reflexivity.
  - intros Hunknown. unfold handleMeasurementUpdated. rewrite Hhas. cbn [negb].
    rewrite Hid. unfold applyDentalMetadata.
    destruct (getMeasurementService st); [| reflexivity].
    unfold presetToApply. rewrite Hid, Htruthy.
    destruct (findPreset (Some presetId)) as [p|] eqn:Ef.
    + exfalso. apply Hunknown. apply findPreset_known. eauto.
    + fold (findPreset (Some presetId)). rewrite Ef. reflexivity.
  - intros p call Hp Hin. unfold handleMeasurementAdded in Hin.
    cbn [activePresetId withActivePresetId] in Hin.
    rewrite (preset_id_truthy p Hp), (findPreset_id p Hp) in Hin.
    apply applyDentalMetadata_update in Hin.
    destruct Hin as [q [Hq [_ ->]]]. cbn [presetToApply] in Hq.
    injection Hq as <-.
    eexists. eexists. split; [reflexivity |].
    split; [reflexivity |]. split; [reflexivity |].
    unfold nextMetadata.
    destruct (negb _ && _)%bool; cbn; repeat split; reflexivity.
Qed.

(** X5 for a canal-angle measurement while the PA-length preset is
    active. *)
Lemma stamped_measurement_ignores_active_preset_witness :
  let st :=
    fst (run [ Initialize
                 (Some {| measurementService := Some {| getMeasurements := [] |} |})
                 (Some hostCommandsManager) ["dental"] "0001";
               SelectPreset "periapical-length" ] initial) in
  let recorded :=
    Metadata.mk (Some "canal-angle") (Some "Canal angle") (Some "°")
      (Some (JS.Fin 12)) None (Some 500%Z) None None [] in
  let m := Measurement.mk "uid-1" (Some "Canal angle") (Some recorded)
             None None None (Some (JS.Fin 12)) in
  handleMeasurementUpdated st 1000 (Some m) = []
  /\ handleMeasurementUpdated (withActivePresetId (Some "crown-width") st) 1000 (Some m)
     = [].
Proof.
  intros st recorded m.
  destruct (stamped_measurement_ignores_active_preset st 1000 m "canal-angle"
              eq_refl) as [Hsame _]; [discriminate |].
  split; [reflexivity |].
  rewrite Hsame. reflexivity.
Defined.

End Restamp.

(** ** Labels the enricher writes, read back *)

Section Labels.

Import Manager.

Lemma span_digits_numeral (v rest : string) (c : ascii) :
  allDigits v = true -> JS.is_digit c = false ->
  JS.span_digits (v ++ String c rest) = (v, String c rest).
Proof.
  induction v as [| d v IH]; intros Hd Hc.
  - simpl. rewrite Hc. reflexivity.
  - simpl in Hd. apply andb_prop in Hd. destruct Hd as [Hd Hv].
    simpl. rewrite Hd, (IH Hv Hc). reflexivity.
Qed.

(** A digit is equal, case ignored, to no character that is none. *)
Lemma char_eq_ci_digit (a d : ascii) :
  JS.is_digit d = true -> JS.is_digit (JS.canonicalize a) = false ->
  JS.char_eq_ci a d = false.
Proof.
  intros Hd Ha. unfold JS.char_eq_ci.
  destruct (Ascii.eqb (JS.canonicalize a) (JS.canonicalize d)) eqn:E; [| reflexivity].
  apply Ascii.eqb_eq in E.
  assert (JS.canonicalize d = d).
  { unfold JS.canonicalize. unfold JS.is_digit in Hd.
    destruct (97 <=? nat_of_ascii d)%nat eqn:E1; [| reflexivity].
    apply andb_prop in Hd. destruct Hd as [_ Hd].
    apply Nat.leb_le in E1. apply Nat.leb_le in Hd. lia. }
  congruence.
Qed.

Lemma test_ci_numeral (a : ascii) (p v : string) :
  JS.is_digit (JS.canonicalize a) = false ->
  JS.char_eq_ci a ")" = false ->
  allDigits v = true ->
  JS.test_ci (String a p) (v ++ ")") = false.
Proof.
  intros Ha Hp. induction v as [| d v IH]; intros Hd.
  - simpl. rewrite Hp. reflexivity.
  - simpl in Hd. apply andb_prop in Hd. destruct Hd as [Hd Hv].
    change (String d v ++ ")") with (String d (v ++ ")")).
    cbn [JS.test_ci JS.prefix_ci]. rewrite (char_eq_ci_digit a d Hd Ha), (IH Hv).
    reflexivity.
Qed.

Lemma match_paren_digits_numeral (name v : string) :
  allDigits v = true ->
  JS.match_paren_digits name (v ++ ")") = None.
Proof.
  induction v as [| d v IH]; intros Hd.
  - reflexivity.
  - simpl in Hd. apply andb_prop in Hd. destruct Hd as [Hd Hv].
    change (String d v ++ ")") with (String d (v ++ ")")).
    cbn [JS.match_paren_digits]. unfold JS.match_paren_digits_here at 1.
    cbn [append JS.prefix_ci].
    rewrite (char_eq_ci_digit "(" d Hd eq_refl). cbn [andb]. apply IH, Hv.
Qed.


Lemma prefix_ci_app (p o t : string) :
  JS.prefix_ci p o = true -> JS.prefix_ci p (o ++ t) = true.
Proof.
  revert o. induction p as [| a p IH]; intros o H; [reflexivity |].
  destruct o as [| b o]; [discriminate |].
  simpl in H |- *. apply andb_prop in H. destruct H as [-> H].
  rewrite (IH _ H). reflexivity.
Qed.

Lemma drop_app (o t : string) : JS.drop (String.length o) (o ++ t) = t.
Proof. induction o as [| b o IH]; [destruct t; reflexivity | exact IH]. Qed.

Lemma match_paren_digits_here_numeral (name o v rest : string) :
  JS.prefix_ci ("(" ++ name ++ " ") o = true ->
  String.length o = String.length ("(" ++ name ++ " ") ->
  isNumeral v = true ->
  JS.match_paren_digits_here name (o ++ (v ++ String ")" rest)) = Some v.
Proof.
  intros Hp Hl Hv. unfold JS.match_paren_digits_here. cbv zeta.
  rewrite (prefix_ci_app _ _ _ Hp), <- Hl, drop_app.
  unfold isNumeral in Hv. apply andb_prop in Hv. destruct Hv as [Hne Hd].
  rewrite (span_digits_numeral v rest ")" Hd eq_refl).
  destruct v; [discriminate | reflexivity].
Qed.

Lemma labelOf_label (m : Measurement.t) (l : string) :
  Measurement.label m = Some l -> labelOf m = l.
Proof.
  intros H. unfold labelOf, JS.or_string. rewrite H. simpl.
  destruct (String.eqb l "") eqn:E; [| reflexivity].
  apply String.eqb_eq in E. now subst.
Qed.

(** The label of one preset is found in the label written for another
    one exactly when the two are the same. *)
Lemma preset_label_in_suffix (p q : Preset.t) (tooth : option Tooth.t) :
  In p DENTAL_MEASUREMENT_PRESETS ->
  In q DENTAL_MEASUREMENT_PRESETS ->
  selectable tooth ->
  JS.test_ci (Preset.label q) (labelSuffix p tooth)
  = String.eqb (Preset.id q) (Preset.id p).
Proof.
  intros Hp Hq Ht. destruct tooth as [[system v]|].
  - cbn [selectable Tooth.system Tooth.value] in Ht. destruct Ht as [Hs Hv].
    unfold isNumeral in Hv. apply andb_prop in Hv. destruct Hv as [_ Hd].
    assert (Hn : forall a r, JS.is_digit (JS.canonicalize a) = false ->
                             JS.char_eq_ci a ")" = false ->
                             JS.test_ci (String a r) (v ++ ")") = false).
    { intros a r H1 H2. apply test_ci_numeral; assumption. }
    unfold labelSuffix. cbn [Tooth.system Tooth.value].
    destruct Hp as [<- | [<- | [<- | [<- | []]]]];
      destruct Hq as [<- | [<- | [<- | [<- | []]]]];
      destruct Hs as [-> | ->];
      cbn [Preset.label Preset.id]; simpl;
      rewrite ?Hn by reflexivity; reflexivity.
  - unfold labelSuffix.
    destruct Hp as [<- | [<- | [<- | [<- | []]]]];
      destruct Hq as [<- | [<- | [<- | [<- | []]]]]; reflexivity.
Qed.


Lemma matchPresetByLabel_suffix (p : Preset.t) (tooth : option Tooth.t) :
  In p DENTAL_MEASUREMENT_PRESETS ->
  selectable tooth ->
  matchPresetByLabel (labelSuffix p tooth) = Some p.
Proof.
  intros Hp Ht. rewrite matchPresetByLabel_find.
  unfold DENTAL_MEASUREMENT_PRESETS. cbn [find].
  rewrite !preset_label_in_suffix by (assumption || (cbn; tauto)).
  destruct Hp as [<- | [<- | [<- | [<- | []]]]]; reflexivity.
Qed.

Lemma toothFromLabel_suffix (p : Preset.t) (t : Tooth.t) :
  In p DENTAL_MEASUREMENT_PRESETS ->
  Tooth.system t = "FDI" \/ Tooth.system t = "UNIVERSAL" ->
  isNumeral (Tooth.value t) = true ->
  toothFromLabel (labelSuffix p (Some t)) = Some t.
Proof.
  intros Hp Hs Hv. destruct t as [system v]. cbn [Tooth.system Tooth.value] in *.
  pose proof Hv as Hd. unfold isNumeral in Hd. apply andb_prop in Hd.
  destruct Hd as [_ Hd].
  pose proof (match_paren_digits_here_numeral "FDI" "(FDI " v ""
                eq_refl eq_refl Hv) as Hfdi.
  pose proof (match_paren_digits_here_numeral "Universal" "(UNIVERSAL " v ""
                eq_refl eq_refl Hv) as Huni.
  cbn [append] in Hfdi, Huni.
  pose proof (match_paren_digits_numeral "FDI" v Hd) as Hnone.
  unfold labelSuffix, toothFromLabel. cbn [Tooth.system Tooth.value].
  destruct Hp as [<- | [<- | [<- | [<- | []]]]]; destruct Hs as [-> | ->];
    cbn [Preset.label]; simpl.
  all: first [ rewrite Hfdi; reflexivity | rewrite Hnone, Huni; reflexivity ].
Qed.

(** X6. What the enricher writes into a label, the re-scan reads back.
    For a preset of the table and a tooth whose system is FDI or UNIVERSAL
    and whose value is a numeral, the label made of the preset label and
    the tooth in parentheses is matched to that preset and to that tooth,
    and the bare preset label to the preset and to no tooth; so the
    re-scan of a measurement that carries such a label and no dental
    metadata issues one update of it, and the measurement it writes has
    the label, uid, data, cached statistics, length and angle it had, and
    metadata that carry the preset, the unit and the tooth the label was
    written for, with the value computed for that preset. *)
Theorem label_written_by_enricher_is_read_back (p : Preset.t) (t : Tooth.t) :
  In p DENTAL_MEASUREMENT_PRESETS ->
  Tooth.system t = "FDI" \/ Tooth.system t = "UNIVERSAL" ->
  isNumeral (Tooth.value t) = true ->
  matchPresetByLabel (labelSuffix p (Some t)) = Some p
  /\ toothFromLabel (labelSuffix p (Some t)) = Some t
  /\ matchPresetByLabel (labelSuffix p None) = Some p
  /\ toothFromLabel (labelSuffix p None) = None
  /\ (forall now m,
        measurementHasDentalMetadata m = false ->
        Measurement.label m = Some (labelSuffix p (Some t)) ->
        exists m' md,
          enhanceMeasurement now m = [update (Measurement.uid m) m' true]
          /\ Measurement.metadata m' = Some md
          /\ Measurement.label m' = Measurement.label m
          /\ Measurement.uid m' = Measurement.uid m
          /\ Measurement.data m' = Measurement.data m
          /\ Measurement.cachedStats m' = Measurement.cachedStats m
          /\ Measurement.length m' = Measurement.length m
          /\ Measurement.angle m' = Measurement.angle m
          /\ Metadata.dentalPresetId md = Some (Preset.id p)
          /\ Metadata.dentalPresetLabel md = Some (Preset.label p)
          /\ Metadata.dentalUnit md = Some (Preset.unit p)
          /\ Metadata.dentalTooth md = Some t
          /\ Metadata.dentalValue md = computeMeasurementValue p (Some m)).
Proof.
  intros Hp Hs Hv.
  pose proof (matchPresetByLabel_suffix p (Some t) Hp (conj Hs Hv)) as Hpreset.
  pose proof (toothFromLabel_suffix p t Hp Hs Hv) as Htooth.
  split; [exact Hpreset |]. split; [exact Htooth |].
  split; [exact (matchPresetByLabel_suffix p None Hp I) |].
  split.
  { destruct Hp as [<- | [<- | [<- | [<- | []]]]]; reflexivity. }
  intros now m Hplain Hlabel. unfold enhanceMeasurement.
  rewrite Hplain, (labelOf_label m _ Hlabel), Hpreset, Htooth.
  eexists. eexists. split; [reflexivity |].
  do 7 (split; [reflexivity |]). cbn. repeat split; reflexivity.
Qed.

(** X6 for a canal-angle label with a tooth of the Universal system. *)
Lemma label_written_by_enricher_is_read_back_witness :
  let m := Measurement.mk "uid-1" (Some "Canal angle (UNIVERSAL 8)") None None None
             None (Some (JS.Fin 12)) in
  exists m' md,
    enhanceMeasurement 1000 m = [update "uid-1" m' true]
    /\ Measurement.metadata m' = Some md
    /\ Measurement.label m' = Some "Canal angle (UNIVERSAL 8)"
    /\ Metadata.dentalPresetId md = Some "canal-angle"
    /\ Metadata.dentalTooth md = Some (Tooth.mk "UNIVERSAL" "8")
    /\ Metadata.dentalValue md = Some (JS.Fin 12).
Proof.
  intros m.
  destruct (label_written_by_enricher_is_read_back
              (Preset.mk "canal-angle" "Canal angle" "Angle" "°"
                 "Measure the canal angulation in degrees." None)
              (Tooth.mk "UNIVERSAL" "8"))
    as [_ [_ [_ [_ H]]]].
  - right. left. reflexivity.
  - right. reflexivity.
  - reflexivity.
  - destruct (H 1000%Z m eq_refl eq_refl)
      as [m' [md [Hcall [Hmd [Hlabel [_ [_ [_ [_ [_ [Hid [_ [_ [Ht Hval]]]]]]]]]]]]]].
    exists m', md. repeat split; assumption.
Defined.

End Labels.

(** ** The tooth selector of the header *)

Section SelectorView.

Import Manager.
Import Selector.

Lemma offered_value_numeral (t : Tooth.t) :
  offered t (PickValue (Tooth.value t)) = true ->
  (Tooth.system t = "FDI" \/ Tooth.system t = "UNIVERSAL")
  /\ isNumeral (Tooth.value t) = true.
Proof.
  unfold offered, numberingSystems.
  assert (Hall : forall options v,
             forallb isNumeral options = true ->
             existsb (String.eqb v) options = true -> isNumeral v = true).
  { intros options v Hf He. apply existsb_exists in He.
    destruct He as [x [Hin Hx]]. apply String.eqb_eq in Hx. subst x.
    rewrite forallb_forall in Hf. now apply Hf. }
  destruct (String.eqb (Tooth.system t) "FDI") eqn:E1.
  - apply String.eqb_eq in E1. intros H. split; [now left |].
    apply (Hall FDI_VALUES); [reflexivity | exact H].
  - destruct (String.eqb (Tooth.system t) "UNIVERSAL") eqn:E2; [| discriminate].
    apply String.eqb_eq in E2. intros H. split; [now right |].
    apply (Hall UNIVERSAL_VALUES); [reflexivity | exact H].
Qed.

Lemma onChange_offered (selection : Tooth.t) (pick : Pick) :
  offered selection (PickValue (Tooth.value selection)) = true ->
  offered selection pick = true ->
  exists selection',
    onChange selection pick = Some selection'
    /\ offered selection' (PickValue (Tooth.value selection')) = true.
Proof.
  intros Hsel Hpick. destruct pick as [system | value].
  - cbn [offered existsb] in Hpick. rewrite orb_false_r in Hpick.
    apply orb_prop in Hpick.
    destruct Hpick as [H | H]; apply String.eqb_eq in H; subst system;
      eexists; split; reflexivity.
  - eexists. split; [reflexivity |].
    cbn [offered Tooth.system Tooth.value] in Hpick |- *. exact Hpick.
Qed.

Lemma picks_offered (l : list Pick) :
  forall selection st,
    offered selection (PickValue (Tooth.value selection)) = true ->
    getActiveDentalTooth st = Some selection ->
    allOffered l selection = true ->
    getActiveDentalTooth (snd (picks l selection st)) = Some (fst (picks l selection st))
    /\ offered (fst (picks l selection st))
         (PickValue (Tooth.value (fst (picks l selection st)))) = true
    /\ activePresetId (snd (picks l selection st)) = activePresetId st
    /\ integration (snd (picks l selection st)) = integration st
    /\ subscriptions (snd (picks l selection st)) = subscriptions st.
Proof.
  induction l as [| pick l IH]; intros selection st Hsel Hact Hall.
  - simpl. tauto.
  - cbn [allOffered] in Hall. apply andb_prop in Hall. destruct Hall as [Hoff Hall].
    destruct (onChange_offered selection pick Hsel Hoff) as [selection' [Hon Hsel']].
    cbn [picks]. rewrite Hon in Hall |- *.
    destruct (IH selection' (publish selection' st) Hsel' eq_refl Hall)
      as [H1 [H2 [H3 [H4 H5]]]].
    repeat split; assumption.
Qed.

(** X7. The header publishes a tooth the labels read back.  Whatever
    options the user picks, one after the other, in the two selects of
    the header, starting from a selection whose value is on offer, the
    selection is the active tooth of the manager, its value is an option
    of its system, the label of any preset of the table with it is read
    back to the preset and to the tooth, and the picks leave the active
    preset, the integration and the subscriptions alone. *)
Theorem header_selection_is_a_tooth_the_labels_read_back (l : list Pick)
    (st : ModuleState) :
  offered (initialSelection st) (PickValue (Tooth.value (initialSelection st))) = true ->
  allOffered l (initialSelection st) = true ->
  let selection := fst (header l st) in
  let st' := snd (header l st) in
  getActiveDentalTooth st' = Some selection
  /\ (exists options,
        numberingSystems (Tooth.system selection) = Some options
        /\ In (Tooth.value selection) options)
  /\ (forall p,
        In p DENTAL_MEASUREMENT_PRESETS ->
        matchPresetByLabel (labelSuffix p (Some selection)) = Some p
        /\ toothFromLabel (labelSuffix p (Some selection)) = Some selection)
  /\ activePresetId st' = activePresetId st
  /\ integration st' = integration st
  /\ subscriptions st' = subscriptions st.
Proof.
  intros Hinit Hall selection st'. unfold header in selection, st'.
  destruct (picks_offered l (initialSelection st) (publish (initialSelection st) st)
              Hinit eq_refl Hall) as [H1 [H2 [H3 [H4 H5]]]].
  fold selection in H1, H2. fold st' in H1, H3, H4, H5.
  split; [exact H1 |]. split; [| split; [| repeat split; assumption]].
  - unfold offered in H2.
    destruct (numberingSystems (Tooth.system selection)) as [options|];
      [| discriminate].
    exists options. split; [reflexivity |].
    apply existsb_exists in H2. destruct H2 as [x [Hin Hx]].
    apply String.eqb_eq in Hx. now subst x.
  - intros p Hp. destruct (offered_value_numeral selection H2) as [Hs Hv].
    split; [apply matchPresetByLabel_suffix; [exact Hp | exact (conj Hs Hv)] |].
    now apply toothFromLabel_suffix.
Qed.

Lemma header_selection_is_a_tooth_the_labels_read_back_witness :
  let st := fst (run [ SelectPreset "crown-width" ] initial) in
  let l := [ PickValue "36"; PickSystem "UNIVERSAL"; PickValue "8" ] in
  getActiveDentalTooth (snd (header l st)) = Some (Tooth.mk "UNIVERSAL" "8")
  /\ toothFromLabel "Crown width (UNIVERSAL 8)" = Some (Tooth.mk "UNIVERSAL" "8")
  /\ getActiveDentalPresetId (snd (header l st)) = Some "crown-width".
Proof.
  intros st l.
  destruct (header_selection_is_a_tooth_the_labels_read_back l st eq_refl eq_refl)
    as [Ht [_ [Hread [Hp _]]]].
  split; [exact Ht |]. split; [| exact Hp].
  exact (proj2 (Hread (Preset.mk "crown-width" "Crown width" "Length" "mm"
                         "Buccolingual crown width measurement." None)
                  (or_intror (or_intror (or_introl eq_refl))))).
Defined.

End SelectorView.

(** ** The measurements panel *)

Section PanelView.

Import Manager.
Import Panel.

Lemma insertBy_perm {A : Type} (compare : A -> A -> Q) (x : A) (l : list A) :
  Permutation (insertBy compare x l) (x :: l).
Proof.
  induction l as [| y l IH]; [apply Permutation_refl |].
  simpl. destruct (negative (compare y x)); [| apply Permutation_refl].
  apply perm_trans with (y :: x :: l); [now apply perm_skip | apply perm_swap].
Qed.

Lemma sortBy_perm {A : Type} (compare : A -> A -> Q) (l : list A) :
  Permutation (sortBy compare l) l.
Proof.
  induction l as [| x l IH]; [apply Permutation_refl |].
  simpl. eapply perm_trans; [apply insertBy_perm | now apply perm_skip].
Qed.

(** Where the comparator decides a transitive order [R], sorting yields a
    list sorted by [R]. *)
Lemma insertBy_sorted {A : Type} (compare : A -> A -> Q) (R : A -> A -> Prop)
    (x : A) (l : list A) :
  (forall a b c, R a b -> R b c -> R a c) ->
  (forall a b, negative (compare a b) = true -> R a b) ->
  (forall a b, negative (compare a b) = false -> R b a) ->
  StronglySorted R l -> StronglySorted R (insertBy compare x l).
Proof.
  intros Htrans Hneg Hpos. induction l as [| y l IH]; intros Hs.
  - repeat constructor.
  - inversion Hs as [| ? ? Hl Hy]; subst. simpl.
    destruct (negative (compare y x)) eqn:E.
    + constructor; [apply IH, Hl |].
      apply Forall_forall. intros z Hz.
      apply (Permutation_in _ (insertBy_perm compare x l)) in Hz.
      destruct Hz as [<- | Hz]; [apply Hneg, E |].
      rewrite Forall_forall in Hy. now apply Hy.
    + constructor; [exact Hs |].
      apply Forall_forall. intros z [<- | Hz]; [apply Hpos, E |].
      rewrite Forall_forall in Hy. eapply Htrans; [apply Hpos, E | now apply Hy].
Qed.

Lemma sortBy_sorted {A : Type} (compare : A -> A -> Q) (R : A -> A -> Prop)
    (l : list A) :
  (forall a b c, R a b -> R b c -> R a c) ->
  (forall a b, negative (compare a b) = true -> R a b) ->
  (forall a b, negative (compare a b) = false -> R b a) ->
  StronglySorted R (sortBy compare l).
Proof.
  intros Htrans Hneg Hpos. induction l as [| x l IH]; [constructor |].
  simpl. now apply insertBy_sorted.
Qed.

(** The sort is stable: the elements a predicate picks keep their order,
    where the comparator never puts one they are tied with strictly
    first. *)
Lemma insertBy_stable {A : Type} (compare : A -> A -> Q) (P : A -> bool)
    (x : A) (l : list A) :
  (forall a b, negative (compare a b) = true -> P a = true -> P b = true -> False) ->
  filter P (insertBy compare x l) = filter P (x :: l).
Proof.
  intros Htie. induction l as [| y l IH]; [reflexivity |].
  cbn [insertBy]. destruct (negative (compare y x)) eqn:E; [| reflexivity].
  cbn [filter] in IH |- *. rewrite IH.
  destruct (P y) eqn:Ey, (P x) eqn:Ex; try reflexivity.
  exfalso. exact (Htie y x E Ey Ex).
Qed.

Lemma sortBy_stable {A : Type} (compare : A -> A -> Q) (P : A -> bool)
    (l : list A) :
  (forall a b, negative (compare a b) = true -> P a = true -> P b = true -> False) ->
  filter P (sortBy compare l) = filter P l.
Proof.
  intros Htie. induction l as [| x l IH]; [reflexivity |].
  cbn [sortBy fold_right]. fold (sortBy compare l).
  rewrite (insertBy_stable compare P x _ Htie). cbn [filter]. rewrite IH. reflexivity.
Qed.

Lemma negative_inject_Z (z : Z) : negative (inject_Z z) = (z <? 0)%Z.
Proof.
  unfold negative, Qle_bool. simpl. rewrite Z.mul_1_r.
  rewrite Z.ltb_antisym. reflexivity.
Qed.

Lemma negative_minus (a b : Q) : negative (a - b) = true <-> (a < b)%Q.
Proof.
  unfold negative. rewrite negb_true_iff. split.
  - intros H. apply Qnot_le_lt. intros Hle.
    assert (Qle_bool 0 (a - b) = true); [| congruence].
    apply Qle_bool_iff. apply -> Qle_minus_iff. exact Hle.
  - intros Hlt. destruct (Qle_bool 0 (a - b)) eqn:E; [| reflexivity].
    apply Qle_bool_iff in E. apply Qle_minus_iff in E.
    exfalso. exact (Qlt_not_le _ _ Hlt E).
Qed.


Lemma sub_ltb_0 (x y : Z) : (x - y <? 0)%Z = (x <? y)%Z.
Proof.
  destruct (Z.ltb_spec (x - y) 0), (Z.ltb_spec x y); try reflexivity; lia.
Qed.

Lemma compareFn_oldest (lc : string -> string -> Z) (a b : Measurement.t) :
  negative (compareFn lc "oldest" a b) = (createdAtOr0 a <? createdAtOr0 b)%Z.
Proof.
  change (compareFn lc "oldest" a b)
    with (inject_Z (createdAtOr0 a - createdAtOr0 b)).
  rewrite negative_inject_Z. apply sub_ltb_0.
Qed.

Lemma compareFn_newest (lc : string -> string -> Z) (a b : Measurement.t) :
  negative (compareFn lc "newest" a b) = (createdAtOr0 b <? createdAtOr0 a)%Z.
Proof.
  change (compareFn lc "newest" a b)
    with (inject_Z (createdAtOr0 b - createdAtOr0 a)).
  rewrite negative_inject_Z. apply sub_ltb_0.
Qed.

Lemma compareFn_value (lc : string -> string -> Z) (a b : Measurement.t) :
  negative (compareFn lc "value" a b) = true <-> (valueOr0 a < valueOr0 b)%Q.
Proof.
  change (compareFn lc "value" a b) with (valueOr0 a - valueOr0 b)%Q.
  apply negative_minus.
Qed.

Lemma exportPayload_uids (l : list Measurement.t) :
  map (member "uid") (map stringify (exportPayload l))
  = map (fun m => Some (JString (Measurement.uid m))) l.
Proof. unfold exportPayload. rewrite !map_map. reflexivity. Qed.

(** X8. The panel's sort loses nothing and is stable.  Whatever the
    two selects hold, the sorted list is a reordering of the filtered
    one, and the exported file holds one entry, with its uid, for each of
    its measurements;
    under 'newest' the creation times never increase along the list,
    under 'oldest' they never decrease, under 'value' the values never
    decrease (an absent time or value, and a [NaN], count as 0); and
    measurements created at the same time keep the order they came in. *)
Theorem panel_sort_reorders_without_loss (localeCompare : string -> string -> Z)
    (presetFilter sortOrder : string) (measurements : list Measurement.t) :
  let filtered := filteredMeasurements presetFilter measurements in
  Permutation (sortedMeasurements localeCompare sortOrder filtered) filtered
  /\ Permutation
       (map (member "uid")
          (elements
             (file_content
                (handleExport localeCompare presetFilter sortOrder measurements))))
       (map (fun m => Some (JString (Measurement.uid m))) filtered)
  /\ StronglySorted (fun a b => (createdAtOr0 b <= createdAtOr0 a)%Z)
       (sortedMeasurements localeCompare "newest" filtered)
  /\ StronglySorted (fun a b => (createdAtOr0 a <= createdAtOr0 b)%Z)
       (sortedMeasurements localeCompare "oldest" filtered)
  /\ StronglySorted (fun a b => (valueOr0 a <= valueOr0 b)%Q)
       (sortedMeasurements localeCompare "value" filtered)
  /\ (forall t,
        filter (fun m => (createdAtOr0 m =? t)%Z)
          (sortedMeasurements localeCompare "newest" filtered)
        = filter (fun m => (createdAtOr0 m =? t)%Z) filtered)
  /\ (forall t,
        filter (fun m => (createdAtOr0 m =? t)%Z)
          (sortedMeasurements localeCompare "oldest" filtered)
        = filter (fun m => (createdAtOr0 m =? t)%Z) filtered).
Proof.
  intros filtered. unfold sortedMeasurements, handleExport.
  split; [apply sortBy_perm |].
  split; [cbn [file_content elements]; rewrite exportPayload_uids;
          apply Permutation_map, sortBy_perm |].
  split; [| split; [| split; [| split]]].
  - apply sortBy_sorted.
    + intros a b c; lia.
    + intros a b H. rewrite compareFn_newest in H. apply Z.ltb_lt in H. lia.
    + intros a b H. rewrite compareFn_newest in H. apply Z.ltb_ge in H. lia.
  - apply sortBy_sorted.
    + intros a b c; lia.
    + intros a b H. rewrite compareFn_oldest in H. apply Z.ltb_lt in H. lia.
    + intros a b H. rewrite compareFn_oldest in H. apply Z.ltb_ge in H. lia.
  - apply sortBy_sorted.
    + intros a b c. apply Qle_trans.
    + intros a b H. apply compareFn_value in H. apply Qlt_le_weak, H.
    + intros a b H. apply Qnot_lt_le. intros Hlt.
      pose proof (proj2 (compareFn_value localeCompare a b) Hlt). congruence.
  - intros t. apply sortBy_stable. intros a b H Ha Hb.
    rewrite compareFn_newest in H. apply Z.ltb_lt in H.
    apply Z.eqb_eq in Ha, Hb. lia.
  - intros t. apply sortBy_stable. intros a b H Ha Hb.
    rewrite compareFn_oldest in H. apply Z.ltb_lt in H.
    apply Z.eqb_eq in Ha, Hb. lia.
Qed.

(** X9. The panel lists what the enricher stamps.  Every measurement a
    listener or the re-scan writes back passes the panel's filter, and so
    does, before it is enhanced, every measurement the re-scan would
    enhance. *)
Theorem panel_lists_what_the_enricher_stamps :
  (forall listener st now m uid m' flag,
      In (update uid m' flag) (snd (runListener listener now (Some m) st)) ->
      measurementFilter m' = true)
  /\ (forall st now uid m' flag,
        In (update uid m' flag) (enhanceExistingMeasurements st now) ->
        measurementFilter m' = true)
  /\ (forall now m, enhanceMeasurement now m <> [] -> measurementFilter m = true).
Proof.
  split; [| split].
  - intros listener st now m uid m' flag Hin.
    apply listener_calls_apply in Hin. destruct Hin as [presetId Hin].
    pose proof (applyDentalMetadata_update _ _ _ _ _ Hin) as [p [Hp [_ Hcall]]].
    injection Hcall as _ -> _. unfold measurementFilter.
    cbn [Measurement.metadata withLabelAndMetadata metadata_field].
    destruct (nextMetadata_frame st now p m) as [_ [_ [_ ->]]].
    rewrite (preset_id_truthy p (presetToApply_In _ _ _ _ Hp)). reflexivity.
  - intros st now uid m' flag Hin. unfold enhanceExistingMeasurements in Hin.
    destruct (getMeasurementService st) as [service|]; [| destruct Hin].
    apply in_flat_map in Hin. destruct Hin as [m [_ Hin]].
    apply enhanceMeasurement_calls in Hin.
    destruct Hin as [_ [p [Hp [_ [md [Hcall [Hid _]]]]]]].
    injection Hcall as _ -> _. unfold measurementFilter.
    cbn [Measurement.metadata withMetadata metadata_field].
    rewrite Hid, (preset_id_truthy p Hp). reflexivity.
  - intros now m Hne.
    destruct (enhanceMeasurement now m) as [| call calls] eqn:E; [contradiction |].
    assert (Hin : In call (enhanceMeasurement now m)) by (rewrite E; now left).
    apply enhanceMeasurement_calls in Hin.
    destruct Hin as [_ [p [Hp [Ht _]]]]. unfold measurementFilter.
    destruct (JS.truthy_string _); [reflexivity |].
    cbv zeta. unfold dentalPatterns.
    destruct Hp as [<- | [<- | [<- | [<- | []]]]]; cbn [Preset.label] in Ht;
      cbn [existsb]; rewrite Ht; rewrite ?orb_true_r; reflexivity.
Qed.


Lemma preset_id_injective (p q : Preset.t) :
  In p DENTAL_MEASUREMENT_PRESETS -> In q DENTAL_MEASUREMENT_PRESETS ->
  Preset.id q = Preset.id p -> q = p.
Proof.
  intros Hp Hq Heq. pose proof (findPreset_id q Hq) as H.
  rewrite Heq, (findPreset_id p Hp) in H. congruence.
Qed.

(** X10. A stamped measurement is listed under its own preset and under
    no other.  For a measurement a listener writes back, with no tooth or
    a tooth of the selector, and for the id of any preset of the table
    in the preset select, the panel lists the measurement exactly when it
    is among the ones the hook returned and the id is the one it was
    stamped with. *)
Theorem stamped_measurement_is_listed_under_its_preset_only (listener : Listener)
    (st : ModuleState) (now : Z) (m : Measurement.t) (uid : string)
    (m' : Measurement.t) (flag : bool) (q : Preset.t)
    (measurements : list Measurement.t) :
  In (update uid m' flag) (snd (runListener listener now (Some m) st)) ->
  selectable (metadata_field Metadata.dentalTooth (Measurement.metadata m')) ->
  In q DENTAL_MEASUREMENT_PRESETS ->
  (In m' (filteredMeasurements (Preset.id q) measurements)
   <-> In m' measurements
       /\ metadata_field Metadata.dentalPresetId (Measurement.metadata m')
          = Some (Preset.id q)).
Proof.
  intros Hin Htooth Hq.
  apply listener_calls_apply in Hin. destruct Hin as [presetId Hin].
  pose proof (applyDentalMetadata_update _ _ _ _ _ Hin) as [p [Hp [_ Hcall]]].
  apply presetToApply_In in Hp.
  injection Hcall as _ -> _.
  cbn [Measurement.metadata withLabelAndMetadata metadata_field] in Htooth |- *.
  destruct (nextMetadata_frame st now p m) as [_ [_ [_ Hid]]]. rewrite Hid.
  unfold filteredMeasurements.
  assert (Hall : String.eqb (Preset.id q) "all" = false).
  { destruct Hq as [<- | [<- | [<- | [<- | []]]]]; reflexivity. }
  rewrite Hall, filter_In.
  cbn [Measurement.metadata withLabelAndMetadata metadata_field].
  rewrite Hid, (findPreset_id q Hq).
  erewrite labelOf_label by reflexivity.
  rewrite (preset_label_in_suffix p q _ Hp Hq Htooth).
  cbn [JS.strict_eq_opt].
  destruct (String.eqb (Preset.id p) (Preset.id q)) eqn:E.
  - apply String.eqb_eq in E. rewrite E. tauto.
  - rewrite String.eqb_sym, E.
    split; [intros [_ H]; discriminate | intros [_ H]].
    injection H as H. rewrite H, String.eqb_refl in E. discriminate.
Qed.

(** X10 for a PA-length measurement of tooth FDI 11 among two
    measurements. *)
Lemma stamped_measurement_is_listed_under_its_preset_only_witness :
  let st :=
    fst (run [ Initialize
                 (Some {| measurementService := Some {| getMeasurements := [] |} |})
                 (Some hostCommandsManager) ["dental"] "0001";
               SetTooth (Some (Tooth.mk "FDI" "11"));
               SelectPreset "periapical-length" ] initial) in
  let m := Measurement.mk "uid-1" (Some "") None None None (Some (JS.Fin 12)) None in
  let other := Measurement.mk "uid-2" (Some "Canal angle") None None None None None in
  exists m',
    handleMeasurementAdded st 1000 (Some m) = [update "uid-1" m' true]
    /\ In m' (filteredMeasurements "periapical-length" [other; m'])
    /\ ~ In m' (filteredMeasurements "canal-angle" [other; m']).
Proof.
  intros st m other.
  assert (Hcall : exists m', handleMeasurementAdded st 1000 (Some m)
                             = [update "uid-1" m' true]).
  { eexists. reflexivity. }
  destruct Hcall as [m' Hcall]. exists m'. split; [exact Hcall |].
  assert (Hin : In (update "uid-1" m' true)
                  (snd (runListener ListenAdded 1000 (Some m) st))).
  { change (snd (runListener ListenAdded 1000 (Some m) st))
      with (handleMeasurementAdded st 1000 (Some m)).
    rewrite Hcall. now left. }
  injection Hcall as Hm'.
  assert (Htooth : selectable
                     (metadata_field Metadata.dentalTooth (Measurement.metadata m'))).
  { rewrite <- Hm'. cbn. split; [now left | reflexivity]. }
  split.
  - apply (stamped_measurement_is_listed_under_its_preset_only ListenAdded st 1000 m
             "uid-1" m' true
             (Preset.mk "periapical-length" "PA length" "Length" "mm"
                "Standard periapical length measurement." None) [other; m'] Hin Htooth).
    + now left.
    + split; [right; now left | rewrite <- Hm'; reflexivity].
  - intros Habs.
    apply (stamped_measurement_is_listed_under_its_preset_only ListenAdded st 1000 m
             "uid-1" m' true
             (Preset.mk "canal-angle" "Canal angle" "Angle" "°"
                "Measure the canal angulation in degrees." None) [other; m'] Hin Htooth)
      in Habs; [| right; now left].
    destruct Habs as [_ Habs]. rewrite <- Hm' in Habs. discriminate.
Defined.

End PanelView.

(** ** Annotations: tags, ownership and sharing *)

Section Ownership.
Import Annotations.

(** *** Trimming *)

(** What [trim] strips is at the front: what is left is a suffix. *)
Lemma stripSpaces_suffix (backwards : bool) (l : list ascii) :
  exists front, l = (front ++ JS.stripSpaces backwards l)%list.
Proof.
  assert (H : forall n l, (List.length l <= n)%nat ->
                exists front, l = (front ++ JS.stripSpaces backwards l)%list).
  { clear l. induction n as [| n IH]; intros l Hlen.
    - destruct l; [now exists [] | simpl in Hlen; lia].
    - destruct l as [| a l1]; [now exists [] |].
      cbn [JS.stripSpaces]. simpl in Hlen.
      destruct (JS.space1 (nat_of_ascii a)).
      { destruct (IH l1 ltac:(lia)) as [front Hf]. exists (a :: front).
        cbn [app]. now rewrite <- Hf. }
      destruct l1 as [| b l2]; [now exists [] |]. simpl in Hlen.
      match goal with |- context [if ?c then _ else _] => destruct c end.
      { destruct (IH l2 ltac:(lia)) as [front Hf]. exists (a :: b :: front).
        cbn [app]. now rewrite <- Hf. }
      destruct l2 as [| c l3]; [now exists [] |]. simpl in Hlen.
      match goal with |- context [if ?c then _ else _] => destruct c end.
      { destruct (IH l3 ltac:(lia)) as [front Hf]. exists (a :: b :: c :: front).
        cbn [app]. now rewrite <- Hf. }
      now exists []. }
  exact (H (List.length l) l (Nat.le_refl _)).
Qed.

Lemma stripSpaces_length (backwards : bool) (l : list ascii) :
  (List.length (JS.stripSpaces backwards l) <= List.length l)%nat.
Proof.
  destruct (stripSpaces_suffix backwards l) as [front Hf].
  rewrite Hf at 2. rewrite length_app. lia.
Qed.


Lemma length_bytes (s : string) :
  List.length (list_ascii_of_string s) = String.length s.
Proof. induction s as [| c s IH]; [reflexivity | simpl; now rewrite IH]. Qed.

Lemma trim_length (s : string) : (String.length (JS.trim s) <= String.length s)%nat.
Proof.
  unfold JS.trim.
  rewrite <- (length_bytes (string_of_list_ascii _)).
  rewrite list_ascii_of_string_of_list_ascii, length_rev.
  rewrite <- (length_bytes s).
  eapply Nat.le_trans; [apply stripSpaces_length |].
  rewrite length_rev. apply stripSpaces_length.
Qed.










(** *** Tags *)

Lemma existsb_eqb_In (x : string) (l : list string) :
  existsb (String.eqb x) l = true <-> In x l.
Proof.
  rewrite existsb_exists. split.
  - intros [y [Hin Hy]]. apply String.eqb_eq in Hy. now subst.
  - intros Hin. exists x. split; [exact Hin | apply String.eqb_refl].
Qed.

Lemma unique_In (l : list string) :
  forall seen x, In x (unique seen l) <-> In x l /\ ~ In x seen.
Proof.
  induction l as [| y l IH]; intros seen x; [simpl; tauto |].
  cbn [unique]. destruct (existsb (String.eqb y) seen) eqn:E.
  - apply existsb_eqb_In in E. rewrite IH. simpl. split.
    + intros [H1 H2]. tauto.
    + intros [[-> | H1] H2]; [contradiction | tauto].
  - assert (Hy : ~ In y seen).
    { intros H. apply existsb_eqb_In in H. congruence. }
    simpl. rewrite IH. simpl. split.
    + intros [<- | [H1 H2]]; [tauto |]. split; [tauto |]. intros H. apply H2. now right.
    + intros [[<- | H1] H2]; [now left |].
      destruct (string_dec y x) as [<- | Hne]; [now left |]. right.
      split; [exact H1 |]. intros [H | H]; [contradiction | contradiction].
Qed.





Lemma toLowerCase_length (s : string) : String.length (toLowerCase s) = String.length s.
Proof. induction s as [| c s IH]; [reflexivity | simpl; now rewrite IH]. Qed.




(** *** Updates *)

(** What the collection records of who owns and who shares a document. *)
Lemma replace_map {B : Type} (f : Annotation -> B) (saved a0 : Annotation)
    (l : list Annotation) :
  find (fun x => String.eqb (_id x) (_id saved)) l = Some a0 ->
  f saved = f a0 ->
  map f (replace saved l) = map f l.
Proof.
  intros Hfind Hf. induction l as [| x l IH]; [reflexivity |].
  simpl in Hfind |- *. destruct (String.eqb (_id x) (_id saved)).
  - injection Hfind as <-. simpl. now rewrite Hf.
  - simpl. f_equal. now apply IH.
Qed.

Lemma find_replace_other (x : ObjectId) (saved : Annotation) (l : list Annotation) :
  x <> _id saved ->
  find (fun a => String.eqb (_id a) x) (replace saved l)
  = find (fun a => String.eqb (_id a) x) l.
Proof.
  intros Hne. induction l as [| a l IH]; [reflexivity |].
  simpl. destruct (String.eqb (_id a) (_id saved)) eqn:E.
  - apply String.eqb_eq in E. simpl.
    destruct (String.eqb (_id saved) x) eqn:E1.
    { apply String.eqb_eq in E1. congruence. }
    destruct (String.eqb (_id a) x) eqn:E2; [| reflexivity].
    apply String.eqb_eq in E2. congruence.
  - simpl. destruct (String.eqb (_id a) x); [reflexivity | exact IH].
Qed.

Lemma grantsOf_depopulate (a : Annotation) : grantsOf (depopulate a) = grantsOf a.
Proof. unfold grantsOf. simpl. rewrite map_map. reflexivity. Qed.

Lemma save_frame (fault : Fault) (db db' : Db) (a saved : Annotation) :
  save fault db a = Http.Ok (db', saved) ->
  db' = {| annotations := replace saved (annotations db);
           users := users db; online := online db |}
  /\ saved = depopulate (preSave a).
Proof.
  unfold save.
  destruct fault; try discriminate;
    destruct (online db && schemaValid a)%bool; try discriminate;
    intros H; injection H as <- <-; split; reflexivity.
Qed.

(** The update route either leaves the collection, with an answer other
    than 200, or saves the document it read, assigned to; it then answers
    200, or 500 where the query that populates the answer fails. *)
Lemma putAnnotation_cases (fault : Fault) (db : Db) (user id : ObjectId)
    (b : UpdateBody) :
  let out := putAnnotationWhen fault db user id b in
  (fst out = db
   /\ (Http.status (snd out) = 400%nat \/ Http.status (snd out) = 403%nat
       \/ Http.status (snd out) = 404%nat
       \/ (Http.status (snd out) = 500%nat /\ fault <> PopulateFails)
       \/ (Http.status (snd out) = 500%nat /\ updateAnnotationValidation b = true)))
  \/ exists id' a0 db' saved,
       castObjectId id = Some id'
       /\ find (fun a => String.eqb (_id a) id') (annotations db) = Some a0
       /\ save fault db (assign b (depopulate a0)) = Http.Ok (db', saved)
       /\ fst out = db'
       /\ ((Http.status (snd out) = 200%nat /\ fault <> PopulateFails)
           \/ (Http.status (snd out) = 500%nat /\ fault = PopulateFails)).
Proof.
  cbv zeta. unfold putAnnotationWhen.
  destruct (updateAnnotationValidation b); cbn [negb];
    [| left; split; [reflexivity | tauto]].
  unfold findById.
  destruct (online db); [| left; split; [reflexivity | tauto]].
  destruct (castObjectId id) as [id'|] eqn:Hcast;
    [| left; split; [reflexivity | tauto]].
  destruct (find (fun a => String.eqb (_id a) id') (annotations db)) as [a0|] eqn:Hfind;
    [| left; split; [reflexivity | tauto]].
  cbn [option_map Http.bind].
  destruct (canAccess (depopulate a0) user write) as [[|]|c];
    cbn [Http.bind negb];
    try (left; split; [reflexivity | tauto]).
  destruct (save fault db (assign b (depopulate a0))) as [[db' saved]|c] eqn:Es;
    cbn [Http.bind]; [| left; split; [reflexivity | tauto]].
  right. exists id', a0, db', saved.
  split; [reflexivity |]. split; [exact Hfind |]. split; [exact Es |].
  destruct fault; cbn [populated caught fst snd Http.status Http.json];
    (split; [reflexivity |]);
    first [ left; split; [reflexivity | discriminate]
          | right; split; reflexivity ].
Qed.

(** X12. An update leaves the owner, the study and the share list.  For
    a request id that is not of 12 characters, and whatever the body,
    the answer and the fault of the database, PUT answers 200, 400, 403,
    404 or 500 and leaves the users, the ids of the annotations in their
    order, their owners, their studies and their share lists, and every
    annotation other than the one of the request is found as it was.  With 400, 403 or 404 the collection is
    as it was; so it is with 500, unless it is the query that populates
    the answer that failed, after the write.  With 200 the document of
    the id holds the content, the category, the status, the priority and
    the privacy of the body where the body has them, the text trimmed,
    and those it held elsewhere. *)
Theorem put_changes_the_allowed_fields_only (fault : Fault) (db : Db)
    (user id : ObjectId) (b : UpdateBody) :
  String.length id <> 12%nat ->
  let db' := fst (putAnnotationWhen fault db user id b) in
  let put := Http.status (snd (putAnnotationWhen fault db user id b)) in
  (put = 200%nat \/ put = 400%nat \/ put = 403%nat \/ put = 404%nat
   \/ put = 500%nat)
  /\ users db' = users db
  /\ online db' = online db
  /\ map _id (annotations db') = map _id (annotations db)
  /\ map (fun a => refId (userId a)) (annotations db')
     = map (fun a => refId (userId a)) (annotations db)
  /\ map studyInstanceUID (annotations db') = map studyInstanceUID (annotations db)
  /\ map grantsOf (annotations db') = map grantsOf (annotations db)
  /\ (put = 400%nat \/ put = 403%nat \/ put = 404%nat -> db' = db)
  /\ (put = 500%nat -> fault <> PopulateFails -> db' = db)
  /\ (forall x, castObjectId id <> Some x ->
        find (fun a => String.eqb (_id a) x) (annotations db')
        = find (fun a => String.eqb (_id a) x) (annotations db))
  /\ (put = 200%nat ->
      exists id' before after,
        castObjectId id = Some id'
        /\ find (fun a => String.eqb (_id a) id') (annotations db) = Some before
        /\ find (fun a => String.eqb (_id a) id') (annotations db') = Some after
        /\ content after
           = orElse (option_map trimmed (new_content b)) (content before)
        /\ category after = orElse (new_category b) (category before)
        /\ status after = orElse (new_status b) (status before)
        /\ priority after = orElse (new_priority b) (priority before)
        /\ isPrivate after = orElse (new_isPrivate b) (isPrivate before)).
Proof.
  intros _. cbv zeta.
  destruct (putAnnotation_cases fault db user id b)
    as [[-> Hput] | [id' [a0 [db' [saved [Hcast [Hfind [Hsave [-> Hput]]]]]]]]].
  { repeat split; try reflexivity; try tauto.
    - intros H200. exfalso.
      destruct Hput as [H | [H | [H | [[H _] | [H _]]]]]; congruence. }
  apply save_frame in Hsave. destruct Hsave as [-> ->].
  cbn [annotations users online].
  assert (Hid : _id a0 = id').
  { apply find_some in Hfind. now apply String.eqb_eq. }
  assert (Hfind' : find (fun x => String.eqb (_id x)
                                    (_id (depopulate (preSave (assign b (depopulate a0))))))
                     (annotations db) = Some a0).
  { cbn [_id depopulate preSave withTags assign]. rewrite Hid. exact Hfind. }
  split; [tauto |].
  split; [reflexivity |]. split; [reflexivity |].
  split; [apply (replace_map _ _ a0 _ Hfind'); reflexivity |].
  split; [apply (replace_map _ _ a0 _ Hfind'); reflexivity |].
  split; [apply (replace_map _ _ a0 _ Hfind'); reflexivity |].
  split.
  { apply (replace_map _ _ a0 _ Hfind').
    unfold grantsOf. cbn [sharedWith depopulate preSave withTags assign].
    rewrite !map_map. reflexivity. }
  split; [intros H; exfalso; destruct Hput as [[Hp _] | [Hp _]];
            destruct H as [H | [H | H]]; congruence |].
  split; [intros H Hfault; exfalso; destruct Hput as [[Hp _] | [_ Hp]];
            congruence |].
  split.
  { intros x Hx. apply find_replace_other.
    cbn [_id depopulate preSave withTags assign]. congruence. }
  intros _. exists id', a0, (depopulate (preSave (assign b (depopulate a0)))).
  split; [exact Hcast |]. split; [exact Hfind |].
  split; [apply (find_replace id' _ a0 _ Hfind); reflexivity |].
  repeat split.
Qed.

(** The owner renames the status of an annotation and trims its text;
    with the query that populates the answer failing, the answer is 500
    and the document is written all the same. *)
Lemma put_changes_the_allowed_fields_only_witness :
  let owner := "64a00000000000000000000a" in
  let id := "64b000000000000000000001" in
  let a := {| _id := id; userId := Unpopulated owner;
              studyInstanceUID := "1.2.840.1";
              content := {| text := Some "Caries"; audioFilename := None |};
              category := "diagnosis"; status := "draft"; priority := "normal";
              tags := []; isPrivate := false; sharedWith := [] |} in
  let db := {| annotations := [a]; users := []; online := true |} in
  let b := {| new_content := Some {| text := Some " Deep caries ";
                                     audioFilename := None |};
              new_category := None; new_status := Some "final";
              new_priority := None; new_tags := None; new_isPrivate := None |} in
  let out := putAnnotationWhen PopulateFails db owner id b in
  Http.status (snd (putAnnotationWhen NoFault db owner id b)) = 200%nat
  /\ Http.status (snd out) = 500%nat
  /\ map (fun x => (status x, text (content x))) (annotations (fst out))
     = [("final", Some "Deep caries")]
  /\ map (fun x => refId (userId x)) (annotations (fst out)) = [owner].
Proof.
  intros owner id a db b out.
  destruct (put_changes_the_allowed_fields_only PopulateFails db owner id b
              ltac:(discriminate)) as [_ [_ [_ [_ [Howners _]]]]].
  split; [reflexivity |]. split; [reflexivity |]. split; [reflexivity |].
  exact Howners.
Defined.

Lemma findById_depopulated (db : Db) (id : ObjectId) (a : Annotation) :
  findById db id = Http.Ok (Some a) ->
  toString (userId a) = Http.Ok (refId (userId a)) /\ depopulate a = a.
Proof.
  intros H. destruct (findById_Some _ _ _ H) as [_ [id' [a0 [_ [_ ->]]]]].
  split; [reflexivity | apply depopulate_idempotent].
Qed.

(** X13. A write grant allows the update, not the deletion and not the
    sharing.  For a public annotation, a user other than the owner who
    holds a ['write'] entry is answered 200 by PUT, for a body that
    passes the validation of the route and leaves a document the schema
    accepts, its text trimmed; and 403 by DELETE and by the share route,
    which leave the collection and the upload directory as they were,
    whatever the database would do. *)
Theorem write_grant_allows_update_but_neither_delete_nor_share (fault : Fault)
    (db : Db) (disk : list string) (now : Z) (a : Annotation)
    (id grantee : ObjectId) (b : UpdateBody) (userIds : list string)
    (perm : Permission) :
  findById db id = Http.Ok (Some a) ->
  perUser a ->
  isPrivate a = false ->
  grantee <> refId (userId a) ->
  holdsGrant a grantee write ->
  updateAnnotationValidation b = true ->
  schemaValid (assign b a) = true ->
  Http.status (snd (putAnnotation db grantee id b)) = 200%nat
  /\ deleteAnnotation fault db disk grantee id
     = ((db, disk),
        Http.reply 403
          (Http.Failed "Access denied. Only the owner can delete this annotation."))
  /\ shareAnnotationWhen fault db now grantee id userIds perm
     = (db, {| Http.status := 403;
               Http.body := Http.Error
                 "Access denied. Only the owner can share this annotation." |}).
Proof.
  intros Hfind Hper Hpublic Hne Hgrant Hvalid Hschema.
  destruct (findById_depopulated _ _ _ Hfind) as [Hstr _].
  assert (Hneq : String.eqb (refId (userId a)) grantee = false).
  { destruct (String.eqb (refId (userId a)) grantee) eqn:E; [| reflexivity].
    apply String.eqb_eq in E. congruence. }
  split; [| split].
  - destruct (put_access_is_owner_then_private_then_grants db a id grantee b
                Hfind Hper Hvalid Hschema) as [_ [_ H]].
    destruct (H Hne Hpublic) as [Hiff _]. now apply Hiff.
  - unfold deleteAnnotation. rewrite Hfind. cbn [Http.bind]. rewrite Hstr.
    cbn [Http.bind]. rewrite Hneq. reflexivity.
  - unfold shareAnnotationWhen. rewrite Hfind. cbn [Http.bind]. rewrite Hstr.
    cbn [Http.bind]. rewrite Hneq. reflexivity.
Qed.

(** For a public annotation that a second user may write; a text of
    blanks, which the validation of the route lets through, is answered
    with 500. *)
Lemma write_grant_allows_update_but_neither_delete_nor_share_witness :
  let owner := "64a00000000000000000000a" in
  let grantee := "64a00000000000000000000b" in
  let id := "64b000000000000000000001" in
  let a := {| _id := id; userId := Unpopulated owner;
              studyInstanceUID := "1.2.840.1";
              content := {| text := Some "Caries";
                            audioFilename := Some "audio-1.webm" |};
              category := "diagnosis"; status := "draft"; priority := "normal";
              tags := []; isPrivate := false;
              sharedWith := [ {| share_userId := Unpopulated grantee;
                                 permission := write; sharedAt := 5 |} ] |} in
  let db := {| annotations := [a]; users := []; online := true |} in
  let b := {| new_content := None; new_category := None; new_status := Some "final";
              new_priority := None; new_tags := None; new_isPrivate := None |} in
  let blank := {| new_content := Some {| text := Some " "; audioFilename := None |};
                  new_category := None; new_status := None;
                  new_priority := None; new_tags := None; new_isPrivate := None |} in
  Http.status (snd (putAnnotation db grantee id b)) = 200%nat
  /\ deleteAnnotation DeleteFails db ["audio-1.webm"] grantee id
     = ((db, ["audio-1.webm"]),
        Http.reply 403
          (Http.Failed "Access denied. Only the owner can delete this annotation."))
  /\ shareAnnotationWhen NoFault db 9 grantee id ["64a00000000000000000000c"] write
     = (db, {| Http.status := 403;
               Http.body := Http.Error
                 "Access denied. Only the owner can share this annotation." |})
  /\ updateAnnotationValidation blank = true
  /\ putAnnotation db grantee id blank
     = (db, {| Http.status := 500;
               Http.body := Http.Error "Failed to update annotation" |}).
Proof.
  intros owner grantee id a db b blank.
  assert (Hper : perUser a).
  { unfold perUser. simpl. repeat constructor. intros []. }
  assert (Hgrant : holdsGrant a grantee write).
  { eexists. split; [now left |]. split; reflexivity. }
  destruct (write_grant_allows_update_but_neither_delete_nor_share DeleteFails db
              ["audio-1.webm"] 9%Z a id grantee b ["64a00000000000000000000c"]
              write eq_refl Hper eq_refl ltac:(discriminate) Hgrant eq_refl eq_refl)
    as [H1 [H2 _]].
  destruct (write_grant_allows_update_but_neither_delete_nor_share NoFault db
              ["audio-1.webm"] 9%Z a id grantee b ["64a00000000000000000000c"]
              write eq_refl Hper eq_refl ltac:(discriminate) Hgrant eq_refl eq_refl)
    as [_ [_ H3]].
  split; [exact H1 |]. split; [exact H2 |]. split; [exact H3 |].
  split; reflexivity.
Defined.

(** *** Deletion *)






(** *** Sharing *)

Lemma granted_depopulated (l : list SharedEntry) (user : ObjectId) (perm : Permission) :
  granted (map depopulateEntry l) user perm <-> granted l user perm.
Proof.
  unfold granted. split.
  - intros [e [Hin [Hu Hp]]]. apply in_map_iff in Hin.
    destruct Hin as [e0 [<- Hin]]. exists e0. repeat split; assumption.
  - intros [e [Hin [Hu Hp]]]. exists (depopulateEntry e).
    split; [now apply in_map |]. split; assumption.
Qed.

(** One grant: the target holds the permission granted and no other, and
    everyone else holds what they held. *)
Lemma grant_granted (target : ObjectId) (perm : Permission) (now : Z)
    (l : list SharedEntry) :
  isObjectId target = true ->
  NoDup (map (fun e => refId (share_userId e)) l) ->
  exists l',
    grant target perm now (map depopulateEntry l) = Http.Ok l'
    /\ map depopulateEntry l' = l'
    /\ NoDup (map (fun e => refId (share_userId e)) l')
    /\ forall user p,
         granted l' user p
         <-> (user = target /\ p = perm) \/ (user <> target /\ granted l user p).
Proof.
  intros Hcanon Hnd.
  destruct (grant_perUser target perm now l Hcanon Hnd) as [l' [Hrun [Hst Hnd']]].
  exists l'. split; [exact Hrun |]. split; [exact Hst |]. split; [exact Hnd' |].
  clear Hst Hnd'. revert l' Hrun.
  induction l as [| e l IH]; intros l' Hrun user p.
  - cbn [map grant] in Hrun. rewrite (castObjectId_canonical _ Hcanon) in Hrun.
    injection Hrun as <-. unfold granted. simpl. split.
    + intros [x [[<- | []] [Hu Hp]]]. left. simpl in Hu, Hp. now split.
    + intros [[-> ->] | [_ [x [[] _]]]]. eexists. split; [now left |]. now split.
  - inversion Hnd as [| ? ? He Hl]; subst.
    cbn [map grant] in Hrun. unfold depopulateEntry at 1 in Hrun.
    cbn [share_userId toString Http.bind refId permission sharedAt] in Hrun.
    destruct (String.eqb (refId (share_userId e)) target) eqn:E.
    + apply String.eqb_eq in E. injection Hrun as <-.
      unfold granted. cbn [In]. split.
      * intros [x [[<- | Hin] [Hu Hp]]].
        -- left. simpl in Hu, Hp. split; congruence.
        -- right. apply in_map_iff in Hin. destruct Hin as [x0 [<- Hin]].
           simpl in Hu, Hp. split.
           ++ intros ->. apply He. rewrite E, <- Hu.
              apply (in_map (fun e => refId (share_userId e))). exact Hin.
           ++ exists x0. split; [now right | now split].
      * intros [[-> ->] | [Hne [x [[<- | Hin] [Hu Hp]]]]].
        -- eexists. split; [now left |]. now split.
        -- congruence.
        -- exists (depopulateEntry x). split; [right; now apply in_map | now split].
    + destruct (grant target perm now (map depopulateEntry l)) as [rest|c] eqn:Er;
        [| discriminate].
      cbn [Http.bind] in Hrun. injection Hrun as <-.
      specialize (IH Hl rest eq_refl user p).
      assert (Hne : refId (share_userId e) <> target).
      { intros H. rewrite H, String.eqb_refl in E. discriminate. }
      unfold granted in *. cbn [In]. split.
      * intros [x [[<- | Hin] [Hu Hp]]].
        -- simpl in Hu, Hp. right. split; [congruence |].
           exists e. split; [now left | now split].
        -- destruct (proj1 IH (ex_intro _ x (conj Hin (conj Hu Hp))))
             as [H | [H1 [y [Hy1 Hy2]]]]; [now left |].
           right. split; [exact H1 |]. exists y. split; [now right | exact Hy2].
      * intros [H | [H1 [x [[<- | Hin] [Hu Hp]]]]].
        -- destruct (proj2 IH (or_introl H)) as [y [Hy1 Hy2]].
           exists y. split; [now right | exact Hy2].
        -- eexists. split; [now left |]. now split.
        -- destruct (proj2 IH (or_intror (conj H1 (ex_intro _ x (conj Hin (conj Hu Hp))))))
             as [y [Hy1 Hy2]].
           exists y. split; [now right | exact Hy2].
Qed.

Lemma grantAll_granted (userIds : list ObjectId) (perm : Permission) (now : Z) :
  (forall target, In target userIds -> isObjectId target = true) ->
  forall l,
    map depopulateEntry l = l ->
    NoDup (map (fun e => refId (share_userId e)) l) ->
    exists l',
      grantAll userIds perm now l = Http.Ok l'
      /\ map depopulateEntry l' = l'
      /\ NoDup (map (fun e => refId (share_userId e)) l')
      /\ forall user p,
           granted l' user p
           <-> (In user userIds /\ p = perm) \/ (~ In user userIds /\ granted l user p).
Proof.
  induction userIds as [| u us IH]; intros Hcanon l Hst Hnd.
  - exists l. split; [reflexivity |]. split; [exact Hst |]. split; [exact Hnd |].
    intros user p. simpl. tauto.
  - destruct (grant_granted u perm now l (Hcanon u (or_introl eq_refl)) Hnd)
      as [l1 [Hrun [Hst1 [Hnd1 H1]]]].
    destruct (IH (fun t Ht => Hcanon t (or_intror Ht)) l1 Hst1 Hnd1)
      as [l' [Hrun' [Hst' [Hnd' H']]]].
    exists l'. cbn [grantAll]. rewrite <- Hst, Hrun. cbn [Http.bind].
    split; [exact Hrun' |]. split; [exact Hst' |]. split; [exact Hnd' |].
    intros user p. rewrite H', H1. cbn [In].
    destruct (string_dec u user) as [-> | Hne];
      destruct (in_dec string_dec user us); intuition congruence.
Qed.

Lemma schemaValid_saved (a b : Annotation) :
  content b = content a -> category b = category a -> status b = status a ->
  priority b = priority a ->
  (forall tag, In tag (tags b) ->
     exists given, In given (tags a)
                   /\ (String.length tag <= String.length given)%nat) ->
  schemaValid a = true -> schemaValid b = true.
Proof.
  unfold schemaValid. intros -> -> -> -> Htags H.
  repeat (apply andb_prop in H; destruct H as [H ?]).
  repeat (apply andb_true_intro; split); try assumption.
  apply forallb_forall. intros tag Hin. destruct (Htags tag Hin) as [given [Hg Hle]].
  match goal with Hf : forallb _ (tags a) = true |- _ =>
    rewrite forallb_forall in Hf; specialize (Hf given Hg);
    apply Nat.leb_le in Hf; apply Nat.leb_le; lia end.
Qed.

Lemma schemaValid_shared (l : list SharedEntry) (a : Annotation) :
  schemaValid (withSharedWith l a) = schemaValid a.
Proof. reflexivity. Qed.

(** X15. Sharing sets the permission of each target, once.  For the owner
    of a valid annotation with one entry per user, and targets named as
    object ids print, in 24 hexadecimal digits of lower case: the share
    route answers 200; in the share list it stores, still with one entry
    per user, each user the request names holds the permission of the
    request and no other, and every other user holds what they held; the
    owner and the privacy are kept; and on a public annotation a target
    other than the owner is then answered by PUT with 200 after a
    ['write'] share and with 403 after a ['read'] share. *)
Theorem share_sets_the_permission_of_each_target (db : Db) (now : Z)
    (a : Annotation) (id : ObjectId) (userIds : list ObjectId) (perm : Permission) :
  findById db id = Http.Ok (Some a) ->
  perUser a ->
  schemaValid a = true ->
  (forall target, In target userIds -> isObjectId target = true) ->
  let owner := refId (userId a) in
  let shared := shareAnnotation db now owner id userIds perm in
  Http.status (snd shared) = 200%nat
  /\ exists a',
       findById (fst shared) id = Http.Ok (Some a')
       /\ perUser a'
       /\ refId (userId a') = owner
       /\ isPrivate a' = isPrivate a
       /\ (forall user p,
             holdsGrant a' user p
             <-> (In user userIds /\ p = perm)
                 \/ (~ In user userIds /\ holdsGrant a user p))
       /\ (forall grantee b,
             In grantee userIds -> grantee <> owner -> isPrivate a = false ->
             updateAnnotationValidation b = true ->
             schemaValid (assign b a) = true ->
             Http.status (snd (putAnnotation (fst shared) grantee id b))
             = match perm with write => 200%nat | read => 403%nat end).
Proof.
  intros Hfind Hper Hvalid Hcanon owner shared.
  destruct (findById_Some _ _ _ Hfind) as [Honline [id' [a0 [Hcast [Hf Ha]]]]].
  assert (Hst : map depopulateEntry (sharedWith a) = sharedWith a).
  { rewrite Ha. simpl. rewrite map_map. apply map_ext. intros e. reflexivity. }
  destruct (grantAll_granted userIds perm now Hcanon (sharedWith a) Hst Hper)
    as [l' [Hrun [Hst' [Hnd' Hgr]]]].
  set (a' := depopulate (preSave (withSharedWith l' a))).
  assert (Hshared : shared
                    = ({| annotations := replace a' (annotations db);
                          users := users db; online := online db |},
                       Http.json (Http.SharedBody "Annotation shared successfully"
                                    (map (fun e => (refId (share_userId e),
                                                    permission_name (permission e)))
                                       (sharedWith a'))))).
  { unfold shared, shareAnnotation, shareAnnotationWhen.
    rewrite Hfind. cbn [Http.bind].
    destruct (findById_depopulated _ _ _ Hfind) as [-> _]. cbn [Http.bind].
    fold owner. rewrite String.eqb_refl. cbn [negb]. rewrite Hrun. cbn [Http.bind].
    unfold save. rewrite Honline, schemaValid_shared, Hvalid. reflexivity. }
  assert (Hfind' : findById (fst shared) id = Http.Ok (Some a')).
  { rewrite Hshared. unfold findById. cbn [fst online annotations].
    rewrite Honline, Hcast.
    rewrite (find_replace id' a' a0 _ Hf) by (unfold a'; rewrite Ha; reflexivity).
    cbn [option_map]. unfold a'. now rewrite depopulate_idempotent. }
  assert (Hlist : sharedWith a' = l').
  { unfold a'. cbn [sharedWith depopulate preSave withTags withSharedWith].
    exact Hst'. }
  assert (Hgrants : forall user p,
             holdsGrant a' user p
             <-> (In user userIds /\ p = perm)
                 \/ (~ In user userIds /\ holdsGrant a user p)).
  { intros user p. unfold holdsGrant. rewrite Hlist. apply Hgr. }
  assert (Hper' : perUser a') by (unfold perUser; rewrite Hlist; exact Hnd').
  split; [rewrite Hshared; reflexivity |].
  exists a'. split; [exact Hfind' |]. split; [exact Hper' |].
  split; [reflexivity |]. split; [reflexivity |]. split; [exact Hgrants |].
  intros grantee b Hin Hne Hpublic Hb Hschema.
  assert (Hschema' : schemaValid (assign b a') = true).
  { apply (schemaValid_saved (assign b a)); try reflexivity; [| exact Hschema].
    intros tag Htag. cbn [tags assign] in Htag |- *.
    destruct (new_tags b) as [ts|]; cbn [orElse option_map] in Htag |- *;
      [exists tag; split; [exact Htag | lia] |].
    unfold a' in Htag. cbn [tags depopulate preSave withTags withSharedWith] in Htag.
    apply in_map_iff in Htag. destruct Htag as [lowered [<- Htag]].
    apply unique_In in Htag. destruct Htag as [Htag _].
    apply in_map_iff in Htag. destruct Htag as [given [<- Hg]].
    exists given. split; [exact Hg |].
    eapply Nat.le_trans; [apply trim_length |]. now rewrite toLowerCase_length. }
  destruct (put_access_is_owner_then_private_then_grants (fst shared) a' id grantee b
              Hfind' Hper' Hb Hschema') as [_ [_ H]].
  destruct (H Hne Hpublic) as [Hiff Hother].
  destruct perm.
  - apply Hother. intros H200. apply Hiff in H200. apply Hgrants in H200.
    destruct H200 as [[_ H200] | [H200 _]]; [discriminate | contradiction].
  - apply Hiff. apply Hgrants. left. now split.
Qed.

(** The owner turns the read grant of a second user into a write grant
    and gives one to a third; a target that is no object id is answered
    with 500. *)
Lemma share_sets_the_permission_of_each_target_witness :
  let owner := "64a00000000000000000000a" in
  let second := "64a00000000000000000000b" in
  let third := "64a00000000000000000000c" in
  let id := "64b000000000000000000001" in
  let a := {| _id := id; userId := Unpopulated owner;
              studyInstanceUID := "1.2.840.1";
              content := {| text := Some "Caries"; audioFilename := None |};
              category := "diagnosis"; status := "draft"; priority := "normal";
              tags := []; isPrivate := false;
              sharedWith := [ {| share_userId := Unpopulated second;
                                 permission := read; sharedAt := 5 |} ] |} in
  let db := {| annotations := [a]; users := []; online := true |} in
  let b := {| new_content := None; new_category := None; new_status := Some "final";
              new_priority := None; new_tags := None; new_isPrivate := None |} in
  let shared := shareAnnotation db 9 owner id [second; third] write in
  Http.status (snd shared) = 200%nat
  /\ Http.status (snd (putAnnotation db second id b)) = 403%nat
  /\ Http.status (snd (putAnnotation (fst shared) second id b)) = 200%nat
  /\ Http.status (snd (putAnnotation (fst shared) third id b)) = 200%nat
  /\ shareAnnotation db 9 owner id ["someone"] write
     = (db, {| Http.status := 500;
               Http.body := Http.Error "Failed to share annotation" |}).
Proof.
  intros owner second third id a db b shared.
  assert (Hper : perUser a).
  { unfold perUser. simpl. repeat constructor. intros []. }
  assert (Hcanon : forall target, In target [second; third] ->
                                  isObjectId target = true).
  { intros target [<- | [<- | []]]; reflexivity. }
  destruct (share_sets_the_permission_of_each_target db 9%Z a id [second; third] write
              eq_refl Hper eq_refl Hcanon) as [H200 [a' [_ [_ [_ [_ [_ Hput]]]]]]].
  split; [exact H200 |]. split; [reflexivity |]. split; [| split].
  - apply (Hput second b); try reflexivity; [now left | discriminate].
  - apply (Hput third b); try reflexivity; [right; now left | discriminate].
  - reflexivity.
Defined.

(** *** Creation *)

Lemma canAccess_unshared (a : Annotation) (owner user : ObjectId) (perm : Permission) :
  userId a = Unpopulated owner -> sharedWith a = [] ->
  canAccess a user perm = Http.Ok (String.eqb owner user).
Proof.
  intros Hu Hs. unfold canAccess. rewrite Hu, Hs. cbn [toString Http.bind findEntry].
  destruct (String.eqb owner user); [reflexivity |].
  destruct (isPrivate a); reflexivity.
Qed.

Lemma createAnnotationValidation_fields (b : CreateBody) :
  createAnnotationValidation b = true ->
  exists study toothValue category c,
    create_studyInstanceUID b = Some study
    /\ create_toothValue b = Some toothValue
    /\ create_category b = Some category
    /\ create_content b = Some c
    /\ (create_toothSystem b = Some "FDI" \/ create_toothSystem b = Some "Universal").
Proof.
  unfold createAnnotationValidation. intros H.
  repeat (apply andb_prop in H; destruct H as [H ?]).
  destruct (create_studyInstanceUID b) as [study|]; [| discriminate].
  destruct (create_toothValue b) as [toothValue|]; [| discriminate].
  destruct (create_category b) as [category|]; [| discriminate].
  destruct (create_content b) as [c|]; [| discriminate].
  exists study, toothValue, category, c. repeat split.
  destruct (create_toothSystem b) as [system|]; [| discriminate].
  match goal with Hs : required _ (Some system) = true |- _ =>
    cbn [required isIn existsb] in Hs;
    apply orb_prop in Hs; destruct Hs as [Hs | Hs];
    [ apply String.eqb_eq in Hs; subst; now left
    | apply orb_prop in Hs; destruct Hs as [Hs | Hs]; [| discriminate];
      apply String.eqb_eq in Hs; subst; now right ]
  end.
Qed.

(** X16. A created annotation belongs to its creator alone.  For a body
    whose text and tags are ASCII and a fresh id that is an object id:
    POST answers 201, 400 or 500; 400 exactly when the validation of the
    route fails, which it does for every tooth system other than ['FDI']
    and ['Universal'], hence for ['UNIVERSAL'], the spelling of the
    viewer.  Unless it answers 201 the uploaded file is removed; the
    collection is left with 400, and with 500 unless it is the query
    that populates the answer that failed: the document is then stored,
    recording a file that is gone.  When it answers 201, the upload
    directory is left and one document is appended, found under the
    fresh id, owned by the creator, a draft, shared with nobody,
    recording the uploaded file, private as the request says, and open,
    to read and to write, to the creator and to no one else. *)
Theorem created_annotation_belongs_to_its_creator_alone (fault : Fault) (db : Db)
    (disk : list string) (freshId user : ObjectId) (upload : option string)
    (b : CreateBody) :
  asciiBody b = true ->
  isObjectId freshId = true ->
  let out := createAnnotation fault db disk freshId user upload b in
  let db' := fst (fst out) in
  let disk' := snd (fst out) in
  let created := Http.status (snd out) in
  let cleaned := match upload with
                 | Some filename => unlink filename disk
                 | None => disk
                 end in
  (created = 201%nat \/ created = 400%nat \/ created = 500%nat)
  /\ (created = 400%nat <-> createAnnotationValidation b = false)
  /\ (forall system,
        create_toothSystem b = Some system ->
        system <> "FDI" -> system <> "Universal" -> created = 400%nat)
  /\ (created <> 201%nat -> disk' = cleaned)
  /\ (created = 400%nat -> db' = db)
  /\ (created = 500%nat -> fault <> PopulateFails -> db' = db)
  /\ (created = 500%nat -> fault = PopulateFails ->
      db' = db
      \/ exists saved,
           annotations db' = (annotations db ++ [saved])%list
           /\ _id saved = freshId
           /\ forall filename,
                upload = Some filename ->
                audioFilename (content saved) = Some filename)
  /\ (created = 201%nat ->
      disk' = disk
      /\ users db' = users db
      /\ exists saved,
           annotations db' = (annotations db ++ [saved])%list
           /\ findById db' freshId = Http.Ok (Some saved)
           /\ snd out
              = {| Http.status := 201;
                   Http.body := Http.AnnotationBody
                                  (Some "Annotation created successfully") freshId |}
           /\ _id saved = freshId
           /\ userId saved = Unpopulated user
           /\ sharedWith saved = []
           /\ status saved = "draft"
           /\ isPrivate saved = parsePrivate (create_isPrivate b)
           /\ (forall filename,
                 upload = Some filename ->
                 audioFilename (content saved) = Some filename)
           /\ (forall other perm,
                 canAccess saved other perm = Http.Ok (String.eqb user other))).
Proof.
  intros _ Hfresh. cbv zeta. unfold createAnnotation.
  destruct (createAnnotationValidation b) eqn:Hvalid; cbn [negb].
  2: { cbn [fst snd Http.status]. repeat split; try tauto; try discriminate. }
  destruct (createAnnotationValidation_fields b Hvalid)
    as [study [toothValue [category [c [-> [-> [-> [-> Hsystem]]]]]]]].
  set (a := newAnnotation freshId user upload study category c b).
  assert (Hinsert : insert fault db toothValue a
                    = Http.Ok ({| annotations :=
                                    (annotations db ++ [depopulate (preSave a)])%list;
                                  users := users db; online := online db |},
                               depopulate (preSave a))
                      /\ online db = true
                      /\ existsb (fun x => String.eqb (_id x) (_id a)) (annotations db)
                         = false
                    \/ exists code, insert fault db toothValue a = Http.Throw code).
  { unfold insert. destruct fault; try (right; now exists None);
      destruct (online db && schemaValid a
                && negb (String.eqb (studyInstanceUID a) "")
                && negb (String.eqb (JS.trim toothValue) ""))%bool eqn:Hok;
      try (right; now exists None);
      destruct (existsb (fun x => String.eqb (_id x) (_id a)) (annotations db))
        eqn:Hdup;
      try (right; now exists (Some 11000%Z));
      repeat (apply andb_prop in Hok; destruct Hok as [Hok ?]);
      left; repeat split; assumption. }
  assert (Hno : forall system,
             create_toothSystem b = Some system ->
             system <> "FDI" -> system <> "Universal" -> False).
  { intros system Hs H1 H2. destruct Hsystem as [H | H]; congruence. }
  destruct Hinsert as [[-> [Honline Hdup]] | [code ->]].
  2: { cbn [fst snd Http.status].
       repeat split; try tauto; try discriminate;
         try (intros system Hs H1 H2; exfalso; now apply (Hno system));
         try (intros _ _; now left). }
  destruct fault eqn:Ef; cbn [populated fst snd Http.status annotations users].
  3: { repeat split; try tauto; try discriminate;
         try (intros system Hs H1 H2; exfalso; now apply (Hno system)).
       intros _ _. right. exists (depopulate (preSave a)).
       split; [reflexivity |]. split; [reflexivity |].
       intros filename ->. reflexivity. }
  all: split; [tauto |]; (split; [split; discriminate |]);
    (split; [intros system Hs H1 H2; exfalso; now apply (Hno system) |]);
    (split; [intros H; contradiction |]);
    (split; [discriminate |]); (split; [discriminate |]);
    (split; [discriminate |]); intros _;
    (split; [reflexivity |]); (split; [reflexivity |]);
    exists (depopulate (preSave a));
    (split; [reflexivity |]);
    (split;
     [ unfold findById; cbn [online annotations];
       rewrite Honline, (castObjectId_canonical _ Hfresh);
       rewrite find_app_None;
       [ cbn [find _id depopulate preSave withTags a newAnnotation];
         rewrite String.eqb_refl; cbn [option_map];
         now rewrite depopulate_idempotent
       | destruct (find (fun x => String.eqb (_id x) freshId) (annotations db))
           as [x|] eqn:F; [| reflexivity];
         apply find_some in F; destruct F as [Hin Hx];
         assert (Ht : existsb (fun x => String.eqb (_id x) (_id a)) (annotations db)
                      = true)
           by (apply existsb_exists; exists x; split; [exact Hin | exact Hx]);
         congruence ]
     |]);
    (split; [reflexivity |]); (split; [reflexivity |]); (split; [reflexivity |]);
    (split; [reflexivity |]); (split; [reflexivity |]); (split; [reflexivity |]);
    (split; [intros filename ->; reflexivity |]);
    intros other perm; now apply canAccess_unshared.
Qed.

(** A recording is uploaded with a note; once the database answers, once
    the query that populates the answer fails. *)
Lemma created_annotation_belongs_to_its_creator_alone_witness :
  let user := "64a00000000000000000000a" in
  let freshId := "64b000000000000000000001" in
  let b := {| create_studyInstanceUID := Some "1.2.840.1";
              create_toothSystem := Some "FDI";
              create_toothValue := Some "11";
              create_category := Some "note";
              create_content := Some {| text := Some " Caries "; audioFilename := None |};
              create_priority := None;
              create_tags := Some ["Molar"];
              create_isPrivate := Some (FlagString "true") |} in
  let db := {| annotations := []; users := []; online := true |} in
  let disk := ["audio-1.webm"] in
  Http.status (snd (createAnnotation NoFault db disk freshId user
                      (Some "audio-1.webm") b)) = 201%nat
  /\ snd (fst (createAnnotation NoFault db disk freshId user
                 (Some "audio-1.webm") b)) = disk
  /\ Http.status (snd (createAnnotation PopulateFails db disk freshId user
                         (Some "audio-1.webm") b)) = 500%nat
  /\ snd (fst (createAnnotation PopulateFails db disk freshId user
                 (Some "audio-1.webm") b)) = []
  /\ map _id (annotations (fst (fst (createAnnotation PopulateFails db disk freshId
                                       user (Some "audio-1.webm") b))))
     = [freshId].
Proof.
  intros user freshId b db disk.
  destruct (created_annotation_belongs_to_its_creator_alone NoFault db disk freshId
              user (Some "audio-1.webm") b eq_refl eq_refl)
    as [_ [_ [_ [_ [_ [_ [_ Hcreated]]]]]]].
  destruct (created_annotation_belongs_to_its_creator_alone PopulateFails db disk
              freshId user (Some "audio-1.webm") b eq_refl eq_refl)
    as [_ [_ [_ [Hcleaned _]]]].
  assert (H201 : Http.status (snd (createAnnotation NoFault db disk freshId user
                                     (Some "audio-1.webm") b)) = 201%nat)
    by reflexivity.
  destruct (Hcreated H201) as [Hdisk _].
  split; [exact H201 |]. split; [exact Hdisk |].
  split; [reflexivity |].
  split; [rewrite Hcleaned by discriminate; reflexivity | reflexivity].
Defined.

End Ownership.
(** ** Viewer states: loading, history and deletion *)

Section Loading.
Import ViewerStates.

(** The head of the sorted list is in the list and no older than the
    rest. *)
Lemma latest_Some (matches : ViewerState -> bool) (db : Db) (d : ViewerState) :
  latest matches db = Some d ->
  In d db /\ matches d = true
  /\ forall d', In d' db -> matches d' = true -> newerFirst d d'.
Proof.
  unfold latest. intros H.
  pose proof (sortByUpdatedAt_perm (filter matches db)) as Hperm.
  pose proof (sortByUpdatedAt_sorted (filter matches db)) as Hsorted.
  destruct (sortByUpdatedAt (filter matches db)) as [| x rest]; [discriminate |].
  injection H as ->.
  assert (Hin : In d (filter matches db)).
  { apply (Permutation_in _ Hperm). now left. }
  apply filter_In in Hin. split; [tauto |]. split; [tauto |].
  intros d' Hd' Hm.
  assert (Hin' : In d' (d :: rest)).
  { apply (Permutation_in _ (Permutation_sym Hperm)). apply filter_In. tauto. }
  destruct Hin' as [<- | Hin']; [unfold newerFirst; lia |].
  inversion Hsorted as [| ? ? _ Hall]; subst.
  rewrite Forall_forall in Hall. now apply Hall.
Qed.

Lemma latest_None (matches : ViewerState -> bool) (db : Db) :
  latest matches db = None <-> forall d, In d db -> matches d = false.
Proof.
  unfold latest.
  pose proof (sortByUpdatedAt_perm (filter matches db)) as Hperm.
  destruct (sortByUpdatedAt (filter matches db)) as [| x rest] eqn:E.
  - apply Permutation_nil in Hperm. split; [| reflexivity].
    intros _ d Hd. destruct (matches d) eqn:Em; [| reflexivity].
    assert (In d (filter matches db)) by (apply filter_In; tauto).
    rewrite Hperm in H. destruct H.
  - split; [discriminate |]. intros H.
    assert (Hin : In x (filter matches db)).
    { apply (Permutation_in _ Hperm). now left. }
    apply filter_In in Hin. destruct Hin as [Hin Hm]. rewrite (H x Hin) in Hm.
    discriminate.
Qed.

Lemma queried_fields (user : ObjectId) (study : string) (session : option string)
    (d : ViewerState) :
  queried user study session d = true ->
  userId d = user /\ studyInstanceUID d = JS.trim study
  /\ forall s, session = Some s -> s <> "" -> sessionId d = JS.trim s.
Proof.
  unfold queried, ofStudy. intros H.
  apply andb_prop in H. destruct H as [H Hs].
  apply andb_prop in H. destruct H as [Hu Hst].
  apply String.eqb_eq in Hu, Hst. split; [exact Hu |]. split; [exact Hst |].
  intros s -> Hne. cbn [JS.truthy_string] in Hs.
  destruct (String.eqb s "") eqn:E; [apply String.eqb_eq in E; contradiction |].
  cbn [negb] in Hs. apply String.eqb_eq in Hs. exact Hs.
Qed.

(** X17. GET answers with the latest state the query matches.  The query
    is for the user, the trimmed study and, where a session is named,
    the trimmed session.  For a study that is not empty and a database
    that answers the query, GET answers 200 or 404; 404 exactly when the
    collection has no document the query matches; what it answers with
    is read from a document of the collection that the query matches and
    that was updated no earlier than any other such document: its id,
    version, session, flag and times, and its state with the defaults of
    the schema filled in; and without a session the document is the one
    of the static [findLatestForStudy]. *)
Theorem get_answers_the_latest_state_of_the_user (fault : Fault) (user : ObjectId)
    (study : string) (session : option string) (db : Db) :
  study <> "" ->
  fault <> QueryFails ->
  let reply := getRoute fault user (Some study) session db in
  (Http.code reply = 200%nat \/ Http.code reply = 404%nat)
  /\ (Http.code reply = 404%nat
      <-> forall d, In d db -> queried user study session d = false)
  /\ (forall loaded,
        Http.answer reply = Http.Data loaded ->
        exists d,
          In d db
          /\ loaded_stateId loaded = _id d
          /\ loaded_state loaded = withDefaults (state d)
          /\ loaded_version loaded = version d
          /\ loaded_sessionId loaded = sessionId d
          /\ loaded_autoSaved loaded = autoSaved d
          /\ loaded_createdAt loaded = createdAt d
          /\ loaded_updatedAt loaded = updatedAt d
          /\ userId d = user /\ studyInstanceUID d = JS.trim study
          /\ (forall s, session = Some s -> s <> "" -> sessionId d = JS.trim s)
          /\ forall d', In d' db -> queried user study session d' = true ->
                        (updatedAt d' <= updatedAt d)%Z)
  /\ (JS.truthy_string session = false ->
      exists found,
        findLatestForStudy fault db user study = Http.Ok found
        /\ option_map _id found
           = option_map _id (latest (queried user study session) db)
        /\ match found with
           | Some d => Http.answer reply = Http.Data (load d)
           | None => Http.code reply = 404%nat
           end).
Proof.
  intros Hstudy Hfault reply.
  assert (Hreply : reply = match latest (queried user study session) db with
                           | None => Http.reply 404 (Http.Failed "Viewer state not found")
                           | Some viewerState =>
                               Http.reply 200 (Http.Data (load (hydrate viewerState)))
                           end).
  { unfold reply, getRoute. cbn [JS.truthy_string].
    apply String.eqb_neq in Hstudy. rewrite Hstudy. cbn [negb].
    destruct fault; try reflexivity. contradiction. }
  assert (Hstatic : JS.truthy_string session = false ->
                    findLatestForStudy fault db user study
                    = Http.Ok (option_map hydrate
                                 (latest (queried user study session) db))).
  { intros Ht. unfold findLatestForStudy.
    assert (Hext : filter (ofStudy user study) db
                   = filter (queried user study session) db).
    { apply filter_ext. intros x. unfold queried.
      destruct session as [s|]; [| now rewrite andb_true_r].
      rewrite Ht. now rewrite andb_true_r. }
    unfold latest. rewrite Hext.
    destruct fault; try reflexivity. contradiction. }
  rewrite Hreply.
  destruct (latest (queried user study session) db) as [d|] eqn:El.
  - destruct (latest_Some _ _ _ El) as [Hin [Hm Hnew]].
    destruct (queried_fields _ _ _ _ Hm) as [Hu [Hs Hse]].
    split; [now left |]. split; [| split].
    + split; [discriminate |]. intros H. rewrite (H d Hin) in Hm. discriminate.
    + intros loaded Hl. injection Hl as <-. exists d.
      cbn [load hydrate loaded_stateId loaded_state loaded_version loaded_sessionId
             loaded_autoSaved loaded_createdAt loaded_updatedAt
             _id state version sessionId autoSaved createdAt updatedAt].
      repeat split; assumption.
    + intros Ht. eexists. split; [exact (Hstatic Ht) |].
      split; reflexivity.
  - split; [now right |]. split; [| split].
    + split; [intros _; now apply latest_None | reflexivity].
    + intros loaded Hl. discriminate.
    + intros Ht. eexists. split; [exact (Hstatic Ht) |].
      split; reflexivity.
Qed.

(** For a user with two sessions on a study, asked for with blanks
    around the study. *)
Lemma get_answers_the_latest_state_of_the_user_witness :
  let st := {| theme := None; toothSystem := Some "Universal";
               numRows := None; numCols := Some 3%Z;
               viewports := None; measurements := Some [];
               rest := "zoom=2" |} in
  let mk (n : Z) (user session id : string) :=
    {| _id := id; userId := user; studyInstanceUID := "1.2.840.1";
       sessionId := session; state := st; autoSaved := false; version := 1;
       createdAt := n; updatedAt := n |} in
  let a := "64b7f0c2a1d3e4f5a6b7c8d9" in
  let b := "64b7f0c2a1d3e4f5a6b7c8da" in
  let db := [mk 1%Z a "s01" "650000000000000000000001";
             mk 3%Z b "s02" "650000000000000000000002";
             mk 2%Z a "s03" "650000000000000000000003"] in
  Http.answer (getRoute NoFault a (Some " 1.2.840.1 ") None db)
  = Http.Data
      {| loaded_state :=
           {| theme := Some "dental"; toothSystem := Some "Universal";
              numRows := Some 2%Z; numCols := Some 3%Z;
              viewports := Some []; measurements := Some [];
              rest := "zoom=2" |};
         loaded_stateId := "650000000000000000000003";
         loaded_version := 1;
         loaded_sessionId := "s03";
         loaded_autoSaved := false;
         loaded_createdAt := 2;
         loaded_updatedAt := 2 |}
  /\ exists found,
       findLatestForStudy NoFault db a " 1.2.840.1 " = Http.Ok found
       /\ option_map _id found = Some "650000000000000000000003".
Proof.
  intros st mk a b db. split; [reflexivity |].
  assert (Hne : " 1.2.840.1 " <> "") by discriminate.
  assert (Hfault : NoFault <> QueryFails) by discriminate.
  destruct (get_answers_the_latest_state_of_the_user NoFault a " 1.2.840.1 " None
              db Hne Hfault) as [_ [_ [_ H]]].
  destruct (H eq_refl) as [found [Hfound [Hid _]]].
  exists found. split; [exact Hfound |]. rewrite Hid. reflexivity.
Defined.

Lemma firstn_plus {A : Type} (a b : nat) (l : list A) :
  firstn (a + b) l = (firstn a l ++ firstn b (skipn a l))%list.
Proof.
  revert l. induction a as [| a IH]; intros l; [reflexivity |].
  destruct l as [| x l]; [simpl; now rewrite firstn_nil |].
  simpl. now rewrite IH.
Qed.

Lemma skipn_nil_iff {A : Type} (n : nat) (l : list A) :
  skipn n l = [] <-> (List.length l <= n)%nat.
Proof.
  revert l. induction n as [| n IH]; intros l.
  - simpl. destruct l; simpl; split; intros H; try reflexivity; try discriminate; lia.
  - destruct l as [| x l]; simpl; [split; [lia | reflexivity] |].
    rewrite IH. lia.
Qed.

Lemma sortByUpdatedAt_length (l : list ViewerState) :
  List.length (sortByUpdatedAt l) = List.length l.
Proof. apply Permutation_length, sortByUpdatedAt_perm. Qed.

Lemma firstn_In {A : Type} (n : nat) (l : list A) (x : A) :
  In x (firstn n l) -> In x l.
Proof.
  revert l. induction n as [| n IH]; intros l H; [destruct H |].
  destruct l as [| y l]; [destruct H |].
  destruct H as [-> | H]; [now left | right; now apply IH].
Qed.

Lemma StronglySorted_sub (l : list ViewerState) (a b : nat) :
  StronglySorted newerFirst l -> StronglySorted newerFirst (firstn a (skipn b l)).
Proof.
  intros Hs.
  assert (Hskip : forall b l, StronglySorted newerFirst l ->
                              StronglySorted newerFirst (skipn b l)).
  { clear. induction b as [| b IH]; intros l Hs; [exact Hs |].
    destruct l as [| x l]; [constructor |]. simpl. apply IH.
    now inversion Hs. }
  apply Hskip with (b := b) in Hs. revert Hs. generalize (skipn b l). clear.
  intros l. revert a. induction l as [| x l IH]; intros a Hs.
  - rewrite firstn_nil. constructor.
  - destruct a as [| a]; [constructor |]. simpl.
    inversion Hs as [| ? ? Hl Hx]; subst. constructor; [now apply IH |].
    rewrite Forall_forall in *. intros y Hy. apply Hx.
    eapply firstn_In. exact Hy.
Qed.

Lemma entries_sorted (l : list ViewerState) :
  StronglySorted newerFirst l ->
  StronglySorted (fun a b => (entry_updatedAt b <= entry_updatedAt a)%Z)
    (map entry l).
Proof.
  induction l as [| x l IH]; intros Hs; [constructor |].
  inversion Hs as [| ? ? Hl Hx]; subst. simpl. constructor; [now apply IH |].
  rewrite Forall_forall in *. intros y Hy. apply in_map_iff in Hy.
  destruct Hy as [y0 [<- Hy0]]. exact (Hx y0 Hy0).
Qed.

(** X18. The pages of the history partition the states of the study.
    The limit and the skip are what [parseInt] makes of the parameters,
    with 10 for a limit that is absent, not a number or 0, and 0 for such
    a skip; a negative limit is kept.  For a study that is not empty, a
    database that answers the query, and a limit and a skip of 64 bits:
    a negative skip is answered with 500; otherwise the route answers
    200 with the number of states of the user and study, the limit, the
    skip, and [hasMore], which says whether skip and limit add up to less
    than that number, so that with a negative limit it can say so of an
    empty history.  With a positive limit, the page holds the entries of
    that window of the states, latest update first; [hasMore] says exactly
    that states remain after the page; a page without more holds all
    that follows the skip; and a page with the page that starts where it
    ends make up the window of both. *)
Theorem history_pages_partition_the_states (fault : Fault) (user : ObjectId)
    (study : string) (limit skip : option Z) (db : Db) :
  study <> "" ->
  fault <> QueryFails ->
  int64 (limitOr10 limit) = true ->
  int64 (skipOr0 skip) = true ->
  let sorted := sortByUpdatedAt (filter (ofStudy user study) db) in
  let reply := historyRoute fault user (Some study) limit skip db in
  ((skipOr0 skip < 0)%Z -> Http.code reply = 500%nat)
  /\ ((0 <= skipOr0 skip)%Z ->
      exists page,
        reply = Http.reply 200 (Http.Data page)
        /\ page_total page = List.length sorted
        /\ page_limit page = limitOr10 limit
        /\ page_limit page <> 0%Z
        /\ (limit = None \/ limit = Some 0%Z -> page_limit page = 10%Z)
        /\ (forall n, limit = Some n -> n <> 0%Z -> page_limit page = n)
        /\ page_skip page = skipOr0 skip
        /\ (page_hasMore page = true
            <-> (page_skip page + page_limit page < Z.of_nat (page_total page))%Z)
        /\ StronglySorted (fun a b => (entry_updatedAt b <= entry_updatedAt a)%Z)
             (page_states page)
        /\ ((0 < page_limit page)%Z ->
            page_states page
            = map entry (firstn (Z.to_nat (page_limit page))
                           (skipn (Z.to_nat (page_skip page)) sorted))
            /\ (page_hasMore page = true
                <-> skipn (Z.to_nat (page_skip page + page_limit page)) sorted
                    <> [])
            /\ (page_hasMore page = false ->
                page_states page
                = map entry (skipn (Z.to_nat (page_skip page)) sorted))
            /\ (forall limit' page',
                  (0 < limitOr10 limit')%Z ->
                  historyRoute fault user (Some study) limit'
                    (Some (page_skip page + page_limit page)%Z) db
                  = Http.reply 200 (Http.Data page') ->
                  (page_states page ++ page_states page')%list
                  = map entry
                      (firstn (Z.to_nat (page_limit page + page_limit page'))
                         (skipn (Z.to_nat (page_skip page)) sorted)))))
  /\ ((limitOr10 limit < 0)%Z -> skip = None -> db = [] ->
      exists page,
        reply = Http.reply 200 (Http.Data page)
        /\ page_states page = [] /\ page_total page = 0%nat
        /\ page_hasMore page = true).
Proof.
  intros Hstudy Hfault Hl64 Hs64 sorted reply.
  assert (Hroute : forall limit skip,
             historyRoute fault user (Some study) limit skip db
             = if (skipOr0 skip <? 0)%Z
                  || negb (int64 (skipOr0 skip)) || negb (int64 (limitOr10 limit))
               then Http.reply 500 (Http.Failed "Failed to retrieve state history")
               else
                 Http.reply 200
                   (Http.Data
                      {| page_states :=
                           map entry (limited (limitOr10 limit)
                                        (skipn (Z.to_nat (skipOr0 skip)) sorted));
                         page_total := List.length (filter (ofStudy user study) db);
                         page_limit := limitOr10 limit;
                         page_skip := skipOr0 skip;
                         page_hasMore :=
                           (skipOr0 skip + limitOr10 limit
                            <? Z.of_nat (List.length
                                           (filter (ofStudy user study) db)))%Z |})).
  { intros l s. unfold historyRoute. cbn [JS.truthy_string].
    apply String.eqb_neq in Hstudy. rewrite Hstudy. cbn [negb].
    destruct fault; try reflexivity. contradiction. }
  assert (Hlen : List.length sorted = List.length (filter (ofStudy user study) db))
    by apply sortByUpdatedAt_length.
  unfold reply. rewrite Hroute, Hl64, Hs64. cbn [negb]. rewrite !orb_false_r.
  split; [| split].
  - intros Hneg. apply Z.ltb_lt in Hneg. now rewrite Hneg.
  - intros Hpos. apply Z.ltb_ge in Hpos as Hpos'. rewrite Hpos'.
    eexists. split; [reflexivity |].
    cbn [page_states page_total page_limit page_skip page_hasMore].
    split; [now rewrite Hlen |]. split; [reflexivity |].
    split; [destruct limit as [[| n | n]|]; cbn; lia |].
    split; [intros [-> | ->]; reflexivity |].
    split; [intros n -> Hn; destruct n; [contradiction | reflexivity | reflexivity] |].
    split; [reflexivity |].
    split; [apply Z.ltb_lt |].
    split.
    { apply entries_sorted. unfold limited.
      destruct (limitOr10 limit <? 0)%Z;
        apply StronglySorted_sub, sortByUpdatedAt_sorted. }
    intros Hlim.
    assert (Hlimited : forall l, limited (limitOr10 limit) l
                                 = firstn (Z.to_nat (limitOr10 limit)) l).
    { intros l. unfold limited.
      apply Z.lt_le_incl, Z.ltb_ge in Hlim. now rewrite Hlim. }
    rewrite Hlimited, <- Hlen.
    split; [reflexivity |].
    split.
    { rewrite Z.ltb_lt. split.
      - intros Hlt Hnil. apply skipn_nil_iff in Hnil. lia.
      - intros Hne.
        destruct (Z.lt_ge_cases (skipOr0 skip + limitOr10 limit)
                    (Z.of_nat (List.length sorted))) as [H | H]; [exact H |].
        exfalso. apply Hne. apply skipn_nil_iff. lia. }
    split.
    { rewrite Z.ltb_ge. intros Hge. f_equal.
      apply firstn_all2. rewrite length_skipn. lia. }
    intros limit' page' Hlim' Hpage'. rewrite Hroute in Hpage'.
    destruct ((skipOr0 (Some (skipOr0 skip + limitOr10 limit)%Z) <? 0)%Z
              || negb (int64 (skipOr0 (Some (skipOr0 skip + limitOr10 limit)%Z)))
              || negb (int64 (limitOr10 limit')))%bool; [discriminate |].
    injection Hpage' as <-. cbn [page_states page_limit skipOr0].
    assert (Hlimited' : forall l, limited (limitOr10 limit') l
                                  = firstn (Z.to_nat (limitOr10 limit')) l).
    { intros l. unfold limited.
      apply Z.lt_le_incl, Z.ltb_ge in Hlim'. now rewrite Hlim'. }
    rewrite Hlimited', <- map_app. f_equal.
    rewrite !Z2Nat.inj_add by lia. rewrite firstn_plus. f_equal.
    now rewrite skipn_skipn, Nat.add_comm.
  - intros Hneg -> ->. cbn [skipOr0]. cbn [Z.ltb Z.compare].
    eexists. split; [reflexivity |].
    cbn [page_states page_total page_hasMore].
    split.
    { unfold limited, sorted. cbn [filter sortByUpdatedAt fold_right].
      rewrite skipn_nil. destruct (limitOr10 limit <? 0)%Z; now rewrite firstn_nil. }
    split; [reflexivity |].
    apply Z.ltb_lt. cbn. lia.
Qed.

(** For three states read in pages of two, and for a limit of -5 on an
    empty history. *)
Lemma history_pages_partition_the_states_witness :
  let st := {| theme := Some "dental"; toothSystem := Some "FDI";
               numRows := None; numCols := None;
               viewports := None; measurements := None; rest := "" |} in
  let a := "64b7f0c2a1d3e4f5a6b7c8d9" in
  let mk (n : Z) (session id : string) :=
    {| _id := id; userId := a; studyInstanceUID := "1.2.840.1";
       sessionId := session; state := st; autoSaved := false; version := 1;
       createdAt := n; updatedAt := n |} in
  let db := [mk 1%Z "s01" "650000000000000000000001";
             mk 3%Z "s02" "650000000000000000000002";
             mk 2%Z "s03" "650000000000000000000003"] in
  (exists page,
     historyRoute NoFault a (Some "1.2.840.1") (Some 2%Z) None db
     = Http.reply 200 (Http.Data page)
     /\ map entry_id (page_states page)
        = ["650000000000000000000002"; "650000000000000000000003"]
     /\ page_total page = 3%nat
     /\ page_hasMore page = true)
  /\ (exists page,
        historyRoute NoFault a (Some "1.2.840.1") (Some (-5)%Z) None []
        = Http.reply 200 (Http.Data page)
        /\ page_limit page = (-5)%Z /\ page_hasMore page = true).
Proof.
  intros st a mk db.
  assert (Hne : "1.2.840.1" <> "") by discriminate.
  assert (Hfault : NoFault <> QueryFails) by discriminate.
  split.
  - destruct (history_pages_partition_the_states NoFault a "1.2.840.1"
                (Some 2%Z) None db Hne Hfault eq_refl eq_refl)
      as [_ [Hpage _]].
    destruct (Hpage ltac:(cbn; lia))
      as [page [Hroute [Htotal [_ [_ [_ [_ [_ [Hmore [_ Hwindow]]]]]]]]]].
    exists page. split; [exact Hroute |].
    assert (Hlimit : (0 < page_limit page)%Z).
    { assert (Hp : Http.Data page
                   = Http.answer (historyRoute NoFault a (Some "1.2.840.1")
                                    (Some 2%Z) None db)) by now rewrite Hroute.
      injection Hp as ->. cbn. lia. }
    destruct (Hwindow Hlimit) as [Hstates _].
    assert (Hpage' : Http.Data page
                     = Http.answer (historyRoute NoFault a (Some "1.2.840.1")
                                      (Some 2%Z) None db)) by now rewrite Hroute.
    injection Hpage' as Hpage'.
    split; [rewrite Hpage'; reflexivity |].
    split; [rewrite Hpage'; reflexivity |].
    rewrite Hpage'. reflexivity.
  - destruct (history_pages_partition_the_states NoFault a "1.2.840.1"
                (Some (-5)%Z) None [] Hne Hfault eq_refl eq_refl)
      as [_ [_ Hneg]].
    destruct (Hneg ltac:(cbn; lia) eq_refl eq_refl)
      as [page [Hroute [_ [_ Hmore]]]].
    exists page. split; [exact Hroute |]. split; [| exact Hmore].
    assert (Hpage' : Http.Data page
                     = Http.answer (historyRoute NoFault a (Some "1.2.840.1")
                                      (Some (-5)%Z) None [])) by now rewrite Hroute.
    injection Hpage' as ->. reflexivity.
Defined.

Lemma find_own (user stateId : ObjectId) (db : Db) (d : ViewerState) :
  find (fun d => String.eqb (_id d) stateId && String.eqb (userId d) user)%bool db
  = Some d ->
  In d db /\ _id d = stateId /\ userId d = user.
Proof.
  intros H. apply find_some in H. destruct H as [Hin H].
  apply andb_prop in H. destruct H as [H1 H2].
  apply String.eqb_eq in H1, H2. tauto.
Qed.

Lemma deleteOne_In (stateId : ObjectId) (db : Db) (x : ViewerState) :
  NoDup (map _id db) ->
  (In x (deleteOne stateId db) <-> In x db /\ _id x <> stateId).
Proof.
  induction db as [| d db IH]; intros Hnd; [simpl; tauto |].
  inversion Hnd as [| ? ? Hd Hdb]; subst. cbn [deleteOne].
  destruct (String.eqb (_id d) stateId) eqn:E.
  - apply String.eqb_eq in E. subst stateId. simpl. split.
    + intros Hin. split; [now right |]. intros Heq. apply Hd. rewrite <- Heq.
      now apply in_map.
    + intros [[<- | Hin] Hne]; [contradiction | exact Hin].
  - simpl. rewrite (IH Hdb). split.
    + intros [<- | [H1 H2]]; [| tauto]. split; [now left |].
      intros Heq. rewrite Heq, String.eqb_refl in E. discriminate.
    + intros [[<- | H1] H2]; [now left | right; tauto].
Qed.

Lemma deleteRoute_cast_fails (fault : Fault) (user stateId : ObjectId) (db : Db) :
  castObjectId stateId = None ->
  deleteRoute fault user stateId db
  = (db, Http.reply 500 (Http.Failed "Failed to delete viewer state")).
Proof.
  intros Hcast. unfold deleteRoute. rewrite Hcast. now destruct fault.
Qed.

Lemma deleteRoute_cast (fault : Fault) (user stateId id : ObjectId) (db : Db) :
  castObjectId stateId = Some id ->
  deleteRoute fault user stateId db
  = match fault with
    | QueryFails =>
        (db, Http.reply 500 (Http.Failed "Failed to delete viewer state"))
    | _ =>
        match find (fun d => String.eqb (_id d) id && String.eqb (userId d) user) db
        with
        | None => (db, Http.reply 404 (Http.Failed "Viewer state not found"))
        | Some _ =>
            match fault with
            | WriteFails _ =>
                (db, Http.reply 500 (Http.Failed "Failed to delete viewer state"))
            | _ =>
                (deleteOne id db,
                 Http.reply 200 (Http.Message "Viewer state deleted successfully"))
            end
        end
    end.
Proof.
  intros Hcast. unfold deleteRoute. rewrite Hcast. now destruct fault.
Qed.

(** X19. DELETE removes a state of the requesting user, and that only.
    The id of the request is cast to an object id: 24 hexadecimal digits,
    taken in lower case.  For a request id that is not of 12 characters,
    and with one document per id: the route answers 200, 404 or 500;
    unless it answers 200 it leaves the collection; when it answers 200,
    the request id was an object id, a document of the user had it, and
    the collection is left without that document and with every other;
    a request id that is no object id is answered with 500; for one that
    is, while the database does not fail, the route answers 404 exactly
    when no document of the user has the id, and never 500; and whatever
    happens, the documents of other users stay. *)
Theorem delete_removes_a_state_of_the_user_only (fault : Fault)
    (user stateId : ObjectId) (db : Db) :
  String.length stateId <> 12%nat ->
  NoDup (map _id db) ->
  let out := deleteRoute fault user stateId db in
  let deleted := Http.code (snd out) in
  (deleted = 200%nat \/ deleted = 404%nat \/ deleted = 500%nat)
  /\ (deleted <> 200%nat -> fst out = db)
  /\ (deleted = 200%nat ->
      exists id d,
        castObjectId stateId = Some id
        /\ In d db /\ _id d = id /\ userId d = user
        /\ forall x, In x (fst out) <-> In x db /\ x <> d)
  /\ (castObjectId stateId = None -> deleted = 500%nat)
  /\ (forall id,
        castObjectId stateId = Some id ->
        fault = NoFault ->
        (deleted = 404%nat
         <-> forall d, In d db -> _id d = id -> userId d <> user)
        /\ deleted <> 500%nat)
  /\ (forall d, In d db -> userId d <> user -> In d (fst out)).
Proof.
  intros _ Hnd. cbv zeta.
  destruct (castObjectId stateId) as [id|] eqn:Hcast.
  2:{ rewrite (deleteRoute_cast_fails _ _ _ _ Hcast).
      cbn [fst snd Http.code Http.reply].
      repeat split; try tauto; try discriminate. }
  rewrite (deleteRoute_cast _ _ _ _ _ Hcast).
  set (own := fun d => (String.eqb (_id d) id && String.eqb (userId d) user)%bool).
  assert (Hnone : find own db = None ->
                  forall d, In d db -> _id d = id -> userId d <> user).
  { intros Hf d Hin Hid Hu. pose proof (find_none _ _ Hf d Hin) as H.
    unfold own in H. rewrite Hid, Hu, !String.eqb_refl in H. discriminate. }
  destruct fault as [ | | c | ] eqn:Ef;
    try (cbn [fst snd Http.code Http.reply];
         repeat split; try tauto; try discriminate; fail).
  all: destruct (find own db) as [d|] eqn:Hf;
    cbn [fst snd Http.code Http.reply].
  all: try (destruct (find_own _ _ _ _ Hf) as [Hin [Hid Hu]]).
  - split; [tauto |]. split; [intros H; contradiction |].
    split; [| split; [discriminate | split]].
    + intros _. exists id, d. split; [reflexivity |].
      split; [exact Hin |]. split; [exact Hid |].
      split; [exact Hu |]. intros x. rewrite (deleteOne_In _ _ _ Hnd). split.
      * intros [Hx Hne]. split; [exact Hx |]. intros ->. contradiction.
      * intros [Hx Hne]. split; [exact Hx |].
        intros Heq. apply Hne. apply (id_injective db x d Hnd Hx Hin). congruence.
    + intros id' Hid' _. injection Hid' as <-. split; [| discriminate].
      split; [discriminate |].
      intros H. exfalso. exact (H d Hin Hid Hu).
    + intros x Hx Hne. apply (deleteOne_In _ _ _ Hnd). split; [exact Hx |].
      intros Heq. apply Hne. rewrite <- Hu.
      f_equal. apply (id_injective db x d Hnd Hx Hin). congruence.
  - split; [tauto |]. split; [reflexivity |]. split; [discriminate |].
    split; [discriminate |]. split; [| tauto].
    intros id' Hid' _. injection Hid' as <-. split; [| discriminate].
    split; [intros _; now apply Hnone | reflexivity].
  - repeat split; try tauto; try discriminate.
  - repeat split; try tauto; try discriminate.
  - split; [tauto |]. split; [intros H; contradiction |].
    split; [| split; [discriminate | split]].
    + intros _. exists id, d. split; [reflexivity |].
      split; [exact Hin |]. split; [exact Hid |].
      split; [exact Hu |]. intros x. rewrite (deleteOne_In _ _ _ Hnd). split.
      * intros [Hx Hne]. split; [exact Hx |]. intros ->. contradiction.
      * intros [Hx Hne]. split; [exact Hx |].
        intros Heq. apply Hne. apply (id_injective db x d Hnd Hx Hin). congruence.
    + discriminate.
    + intros x Hx Hne. apply (deleteOne_In _ _ _ Hnd). split; [exact Hx |].
      intros Heq. apply Hne. rewrite <- Hu.
      f_equal. apply (id_injective db x d Hnd Hx Hin). congruence.
  - repeat split; try tauto; try discriminate.
Qed.

(** A user deletes a state of their own, naming it in upper case, then
    asks for one of another user, then for an id that is none. *)
Lemma delete_removes_a_state_of_the_user_only_witness :
  let st := {| theme := Some "dental"; toothSystem := Some "FDI";
               numRows := None; numCols := None;
               viewports := None; measurements := None; rest := "" |} in
  let a := "64b7f0c2a1d3e4f5a6b7c8d9" in
  let b := "64b7f0c2a1d3e4f5a6b7c8da" in
  let mk (n : Z) (user session id : string) :=
    {| _id := id; userId := user; studyInstanceUID := "1.2.840.1";
       sessionId := session; state := st; autoSaved := false; version := 1;
       createdAt := n; updatedAt := n |} in
  let db := [mk 1%Z a "s01" "65000000000000000000000a";
             mk 3%Z b "s02" "65000000000000000000000b"] in
  fst (deleteRoute NoFault a "65000000000000000000000A" db)
  = [mk 3%Z b "s02" "65000000000000000000000b"]
  /\ Http.code (snd (deleteRoute NoFault a "65000000000000000000000b" db)) = 404%nat
  /\ fst (deleteRoute NoFault a "65000000000000000000000b" db) = db
  /\ Http.code (snd (deleteRoute NoFault a "id01" db)) = 500%nat
  /\ In (mk 3%Z b "s02" "65000000000000000000000b")
       (fst (deleteRoute NoFault a "65000000000000000000000A" db)).
Proof.
  intros st a b mk db.
  assert (Hnd : NoDup (map _id db)).
  { simpl. repeat constructor; simpl; intuition discriminate. }
  destruct (delete_removes_a_state_of_the_user_only NoFault a
              "65000000000000000000000A" db ltac:(discriminate) Hnd)
    as [_ [_ [_ [_ [_ Hothers]]]]].
  destruct (delete_removes_a_state_of_the_user_only NoFault a
              "65000000000000000000000b" db ltac:(discriminate) Hnd)
    as [_ [Hsame _]].
  destruct (delete_removes_a_state_of_the_user_only NoFault a "id01" db
              ltac:(discriminate) Hnd)
    as [_ [_ [_ [Hcast _]]]].
  split; [reflexivity |]. split; [reflexivity |].
  split; [apply Hsame; discriminate |].
  split; [exact (Hcast eq_refl) |].
  apply Hothers; [right; now left | discriminate].
Defined.

End Loading.

(** ** Viewer states: the collection under the routes *)

Section Collection.
Import ViewerStates.

(** Selecting documents keeps what a field tells apart. *)
Lemma NoDup_map_filter {Doc Field : Type} (field : Doc -> Field)
    (selected : Doc -> bool) (docs : list Doc) :
  NoDup (map field docs) -> NoDup (map field (filter selected docs)).
Proof.
  intros Hnd. induction docs as [| d docs IH]; [constructor |].
  cbn [map] in Hnd. apply NoDup_cons_iff in Hnd. destruct Hnd as [Hd Hnd].
  cbn [filter]. destruct (selected d); [| exact (IH Hnd)].
  cbn [map]. constructor; [| exact (IH Hnd)].
  intros Hin. apply Hd. apply in_map_iff in Hin. destruct Hin as [y [Hy Hin]].
  apply filter_In in Hin. rewrite <- Hy. apply in_map. tauto.
Qed.

Lemma find_by_id (db : Db) (e : ViewerState) :
  NoDup (map _id db) -> In e db ->
  find (fun x => String.eqb (_id x) (_id e)) db = Some e.
Proof.
  induction db as [| x db IH]; intros Hnd Hin; [destruct Hin |].
  simpl in Hnd. apply NoDup_cons_iff in Hnd. destruct Hnd as [Hx Hnd].
  simpl. destruct Hin as [-> | Hin]; [now rewrite String.eqb_refl |].
  destruct (String.eqb (_id x) (_id e)) eqn:E; [| now apply IH].
  apply String.eqb_eq in E. exfalso. apply Hx. rewrite E. now apply in_map.
Qed.

Lemma states_replace_map {B : Type} (f : ViewerState -> B) (d e : ViewerState) (l : Db) :
  find (fun x => String.eqb (_id x) (_id d)) l = Some e ->
  f d = f e ->
  map f (replace d l) = map f l.
Proof.
  intros Hfind Hf. induction l as [| x l IH]; [reflexivity |].
  simpl in Hfind |- *. destruct (String.eqb (_id x) (_id d)).
  - injection Hfind as <-. simpl. now rewrite Hf.
  - simpl. f_equal. now apply IH.
Qed.

Lemma filter_replace (keep : ViewerState -> bool) (d e : ViewerState) (l : Db) :
  find (fun x => String.eqb (_id x) (_id d)) l = Some e ->
  keep d = false -> keep e = false ->
  filter keep (replace d l) = filter keep l.
Proof.
  intros Hfind Hd He. induction l as [| x l IH]; [reflexivity |].
  simpl in Hfind |- *. destruct (String.eqb (_id x) (_id d)).
  - injection Hfind as <-. simpl. now rewrite Hd, He.
  - simpl. destruct (keep x); [f_equal |]; now apply IH.
Qed.

Lemma updateFirst_map {B : Type} (f : ViewerState -> B)
    (matches : ViewerState -> bool) (g : ViewerState -> ViewerState) (l : Db) :
  (forall x, f (g x) = f x) -> map f (updateFirst matches g l) = map f l.
Proof.
  intros Hf. induction l as [| x l IH]; [reflexivity |].
  simpl. destruct (matches x); simpl; [now rewrite Hf | now rewrite IH].
Qed.

Lemma filter_updateFirst (keep matches : ViewerState -> bool)
    (g : ViewerState -> ViewerState) (l : Db) :
  (forall x, matches x = true -> keep x = false /\ keep (g x) = false) ->
  filter keep (updateFirst matches g l) = filter keep l.
Proof.
  intros H. induction l as [| x l IH]; [reflexivity |].
  simpl. destruct (matches x) eqn:E.
  - destruct (H x E) as [H1 H2]. simpl. now rewrite H1, H2.
  - simpl. destruct (keep x); [f_equal |]; exact IH.
Qed.

Lemma filter_filter_keep {A : Type} (keep q : A -> bool) (l : list A) :
  (forall x, In x l -> keep x = true -> q x = true) ->
  filter keep (filter q l) = filter keep l.
Proof.
  induction l as [| x l IH]; intros H; [reflexivity |].
  simpl. destruct (q x) eqn:Eq.
  - simpl. destruct (keep x); [f_equal |]; apply IH; intros y Hy; apply H; now right.
  - destruct (keep x) eqn:Ek.
    + rewrite (H x (or_introl eq_refl) Ek) in Eq. discriminate.
    + apply IH. intros y Hy. apply H. now right.
Qed.

Lemma deleteOne_map_NoDup {B : Type} (f : ViewerState -> B) (stateId : ObjectId)
    (l : Db) :
  NoDup (map f l) -> NoDup (map f (deleteOne stateId l)).
Proof.
  induction l as [| x l IH]; intros Hnd; [constructor |].
  simpl in Hnd. apply NoDup_cons_iff in Hnd. destruct Hnd as [Hx Hnd].
  simpl. destruct (String.eqb (_id x) stateId); [exact Hnd |].
  simpl. constructor; [| now apply IH].
  intros Hin. apply Hx. clear - Hin. induction l as [| y l IH]; [destruct Hin |].
  simpl in Hin |- *. destruct (String.eqb (_id y) stateId); [now right |].
  destruct Hin as [H | H]; [now left | right; now apply IH].
Qed.

Lemma filter_deleteOne (keep : ViewerState -> bool) (d : ViewerState) (l : Db) :
  NoDup (map _id l) -> In d l -> keep d = false ->
  filter keep (deleteOne (_id d) l) = filter keep l.
Proof.
  induction l as [| x l IH]; intros Hnd Hin Hk; [reflexivity |].
  simpl in Hnd. apply NoDup_cons_iff in Hnd. destruct Hnd as [Hx Hnd].
  simpl. destruct (String.eqb (_id x) (_id d)) eqn:E.
  - apply String.eqb_eq in E. destruct Hin as [-> | Hin]; [now rewrite Hk |].
    exfalso. apply Hx. rewrite E. now apply in_map.
  - destruct Hin as [-> | Hin]; [rewrite String.eqb_refl in E; discriminate |].
    simpl. destruct (keep x); [f_equal |]; now apply IH.
Qed.

Lemma keyOf_hasKey (user : ObjectId) (study session : string) (d : ViewerState) :
  hasKey user study session d = true
  <-> keyOf d = (user, JS.trim study, JS.trim session).
Proof.
  unfold keyOf. split.
  - intros H. apply hasKey_fields in H. destruct H as [-> [-> ->]]. reflexivity.
  - intros H. injection H as H1 H2 H3. now apply hasKey_refl.
Qed.

Lemma find_key_None (user : ObjectId) (study session : string) (db : Db) :
  find (hasKey user study session) db = None ->
  ~ In (user, JS.trim study, JS.trim session) (map keyOf db).
Proof.
  intros Hf Hin. apply in_map_iff in Hin. destruct Hin as [x [Hk Hx]].
  apply keyOf_hasKey in Hk. rewrite (find_none _ _ Hf x Hx) in Hk. discriminate.
Qed.

Lemma NoDup_snoc {A : Type} (l : list A) (x : A) :
  NoDup l -> ~ In x l -> NoDup (l ++ [x]).
Proof.
  intros Hnd Hx. apply NoDup_app; [exact Hnd | repeat constructor; intros [] |].
  intros y Hy [<- | []]. contradiction.
Qed.

Lemma saved_fields (now : Z) (d : Document) :
  _id (stamp now d (preSave d)) = _id (doc d)
  /\ keyOf (stamp now d (preSave d)) = keyOf (doc d).
Proof.
  unfold stamp, preSave. destruct (isNew d), (isModified d); split; reflexivity.
Qed.

(** The upsert of the save route, whatever the database does: a
    document of the key is replaced by one of the same id and key or left,
    and without one a document of the fresh id and of the key is
    appended. *)
Lemma upsertState_cases (fault : Fault) (now : Z) (freshId user : ObjectId)
    (study session : string) (st : State) (auto : bool) (db db1 : Db)
    (d : ViewerState) :
  upsertState fault now freshId user study session st auto db = Http.Ok (db1, d) ->
  match find (hasKey user study session) db with
  | Some existing =>
      _id d = _id existing /\ keyOf d = keyOf existing
      /\ (db1 = replace d db \/ db1 = db)
  | None =>
      db1 = (db ++ [d])%list /\ _id d = freshId
      /\ keyOf d = (user, JS.trim study, JS.trim session)
  end.
Proof.
  unfold upsertState, findOne.
  destruct fault as [ | | c | ]; cbn [Http.bind]; try discriminate.
  all: destruct (find (hasKey user study session) db) as [existing|];
    cbn [option_map]; unfold save;
    match goal with |- context [negb (schemaValid ?x)] =>
      destruct (negb (schemaValid x)); [discriminate |] end.
  all: match goal with |- context [stamp ?t ?x (preSave ?x)] =>
         destruct (saved_fields t x) as [Hid Hkey] end.
  all: cbn [isNew assign create doc] in *.
  all: try (destruct (existsb _ db); [discriminate |]).
  all: try (destruct (isModified (assign st auto existing))).
  all: intros H; injection H as <- <-; repeat split; auto.
Qed.

Lemma cleanupOldStates_Ok (fault : Fault) (db db' : Db) (user : ObjectId)
    (study : string) :
  cleanupOldStates fault db user study = Http.Ok db' ->
  db' = deleteMany (map _id (oldStates db user study)) db.
Proof.
  intros H. destruct fault as [ | | c | ];
    [| | | discriminate];
    rewrite cleanupOldStates_run in H by discriminate; now injection H as <-.
Qed.

(** The save route leaves the collection, or upserts and then, unless the
    clean-up fails, cleans up. *)
Lemma saveRoute_cases (fault : Fault) (now : Z) (freshId user : ObjectId)
    (b : Body) (db : Db) :
  fst (saveRoute fault now freshId user b db) = db
  \/ exists study session st db1 d,
       upsertState fault now freshId user study session st
         (Annotations.orElse (body_autoSaved b) false) db = Http.Ok (db1, d)
       /\ (fst (saveRoute fault now freshId user b db) = db1
           \/ fst (saveRoute fault now freshId user b db)
              = deleteMany (map _id (oldStates db1 user study)) db1).
Proof.
  unfold saveRoute.
  destruct (body_studyInstanceUID b) as [study|]; [| now left].
  destruct (body_sessionId b) as [session|]; [| now left].
  destruct (body_state b) as [st|]; [| now left].
  destruct (negb (saveStateValidation b)); [now left |].
  destruct (upsertState fault now freshId user study session st
              (Annotations.orElse (body_autoSaved b) false) db)
    as [[db1 d]|c] eqn:Hup; [| now left].
  right. exists study, session, st, db1, d. split; [exact Hup |].
  destruct (cleanupOldStates fault db1 user study) as [db2|c] eqn:Hc; [| now left].
  right. cbn [fst]. now apply cleanupOldStates_Ok in Hc.
Qed.

Lemma findOneAndUpdate_cases (fault : Fault) (now : Z) (freshId user : ObjectId)
    (study session : string) (st : State) (db db1 : Db) (d : ViewerState) :
  findOneAndUpdate fault now freshId user study session st db = Http.Ok (db1, d) ->
  match find (hasKey user study session) db with
  | Some existing =>
      map _id db1 = map _id db /\ map keyOf db1 = map keyOf db
      /\ (forall keep : ViewerState -> bool,
            (forall x, userId x = user -> keep x = false) ->
            filter keep db1 = filter keep db)
  | None =>
      exists written,
        db1 = (db ++ [written])%list /\ _id written = freshId
        /\ keyOf written = (user, JS.trim study, JS.trim session)
  end.
Proof.
  unfold findOneAndUpdate.
  destruct fault as [ | | c | ]; try discriminate.
  all: destruct (find (hasKey user study session) db) as [existing|];
    intros H; injection H as <- <-.
  all: try (eexists; repeat split; reflexivity).
  all: split; [apply updateFirst_map; reflexivity |].
  all: split; [apply updateFirst_map; reflexivity |].
  all: intros keep Hkeep; apply filter_updateFirst; intros x Hx;
    apply hasKey_fields in Hx; destruct Hx as [Hu _];
    split; apply Hkeep; exact Hu.
Qed.

Lemma autoSaveRoute_cases (fault : Fault) (now : Z) (freshId user : ObjectId)
    (b : Body) (db : Db) :
  fst (autoSaveRoute fault now freshId user b db) = db
  \/ exists study session st d,
       findOneAndUpdate fault now freshId user study session st db
       = Http.Ok (fst (autoSaveRoute fault now freshId user b db), d).
Proof.
  unfold autoSaveRoute.
  destruct (negb _ || negb _ || negb _)%bool; [now left |].
  destruct (body_studyInstanceUID b) as [study|]; [| now left].
  destruct (body_sessionId b) as [session|]; [| now left].
  destruct (body_state b) as [st|]; [| now left].
  destruct (findOneAndUpdate fault now freshId user study session st db)
    as [[db1 d]|c] eqn:Hf; [| now left].
  right. exists study, session, st, d. exact Hf.
Qed.

Lemma upsertState_wellKeyed (fault : Fault) (now : Z) (freshId user : ObjectId)
    (study session : string) (st : State) (auto : bool) (db db1 : Db)
    (d : ViewerState) :
  upsertState fault now freshId user study session st auto db = Http.Ok (db1, d) ->
  ~ In freshId (map _id db) ->
  (NoDup (map _id db) -> NoDup (map _id db1))
  /\ (wellKeyed db -> wellKeyed db1)
  /\ userId d = user /\ studyInstanceUID d = JS.trim study
  /\ (NoDup (map _id db) ->
      forall keep : ViewerState -> bool,
        (forall x, userId x = user -> keep x = false) ->
        filter keep db1 = filter keep db).
Proof.
  intros Hup Hfresh. apply upsertState_cases in Hup.
  destruct (find (hasKey user study session) db) as [existing|] eqn:Hf.
  - destruct Hup as [Hid [Hkey Hdb1]].
    pose proof (find_some _ _ Hf) as [Hin Hk].
    apply hasKey_fields in Hk. destruct Hk as [Hu [Hs Hse]].
    assert (Hd : userId d = user /\ studyInstanceUID d = JS.trim study).
    { unfold keyOf in Hkey. injection Hkey as H1 H2 H3. split; congruence. }
    assert (Hbyid : NoDup (map _id db) ->
                    find (fun x => String.eqb (_id x) (_id d)) db = Some existing).
    { intros Hnd. rewrite Hid. now apply find_by_id. }
    split; [| split; [| split; [tauto | split; [tauto |]]]].
    + intros Hnd. destruct Hdb1 as [-> | ->]; [now rewrite ids_replace | exact Hnd].
    + intros [Hnd Hkeys]. destruct Hdb1 as [-> | ->]; [| now split].
      split; [now rewrite ids_replace |].
      now rewrite (states_replace_map keyOf d existing db (Hbyid Hnd) Hkey).
    + intros Hnd keep Hkeep. destruct Hdb1 as [-> | ->]; [| reflexivity].
      apply (filter_replace keep d existing db (Hbyid Hnd)); apply Hkeep; tauto.
  - destruct Hup as [-> [Hid Hkey]].
    assert (Hd : userId d = user /\ studyInstanceUID d = JS.trim study).
    { unfold keyOf in Hkey. injection Hkey as H1 H2 H3. split; congruence. }
    split; [| split; [| split; [tauto | split; [tauto |]]]].
    + intros Hnd. rewrite map_app. apply NoDup_snoc; [exact Hnd |].
      cbn [map]. now rewrite Hid.
    + intros [Hnd Hkeys]. split; rewrite map_app; apply NoDup_snoc; try assumption.
      * cbn [map]. now rewrite Hid.
      * cbn [map]. rewrite Hkey. now apply find_key_None.
    + intros Hnd keep Hkeep. rewrite filter_app. cbn [filter].
      rewrite (Hkeep d (proj1 Hd)). apply app_nil_r.
Qed.

(** X20. The routes keep one document per id and one per key.  From a
    collection with one document per id and one per (user, study,
    session), and an id for a new document that no document has, the
    save route, the auto-save route and the delete route leave such a
    collection, whatever the request and whatever the database does to
    it. *)
Theorem routes_keep_one_document_per_key (fault : Fault) (now : Z)
    (freshId user stateId : ObjectId) (b : Body) (db : Db) :
  wellKeyed db ->
  ~ In freshId (map _id db) ->
  wellKeyed (fst (saveRoute fault now freshId user b db))
  /\ wellKeyed (fst (autoSaveRoute fault now freshId user b db))
  /\ wellKeyed (fst (deleteRoute fault user stateId db)).
Proof.
  intros Hwk Hfresh. split; [| split].
  - destruct (saveRoute_cases fault now freshId user b db)
      as [-> | [study [session [st [db1 [d [Hup Hout]]]]]]]; [exact Hwk |].
    destruct (upsertState_wellKeyed _ _ _ _ _ _ _ _ _ _ _ Hup Hfresh)
      as [_ [Hwk1 _]].
    specialize (Hwk1 Hwk). destruct Hout as [-> | ->]; [exact Hwk1 |].
    destruct Hwk1 as [H1 H2]. unfold deleteMany.
    split; now apply NoDup_map_filter.
  - destruct (autoSaveRoute_cases fault now freshId user b db)
      as [-> | [study [session [st [d Hf]]]]]; [exact Hwk |].
    apply findOneAndUpdate_cases in Hf. destruct Hwk as [Hnd Hkeys].
    destruct (find (hasKey user study session) db) as [existing|] eqn:Hfind.
    + destruct Hf as [Hids [Hks _]]. split; [now rewrite Hids | now rewrite Hks].
    + destruct Hf as [written [-> [Hid Hkey]]].
      split; rewrite map_app; apply NoDup_snoc; try assumption.
      * cbn [map]. now rewrite Hid.
      * cbn [map]. rewrite Hkey. now apply find_key_None.
  - destruct Hwk as [Hnd Hkeys].
    destruct (castObjectId stateId) as [id|] eqn:Hcast;
      [| rewrite (deleteRoute_cast_fails _ _ _ _ Hcast); exact (conj Hnd Hkeys)].
    rewrite (deleteRoute_cast _ _ _ _ _ Hcast).
    destruct fault; try exact (conj Hnd Hkeys);
      destruct (find _ db); try exact (conj Hnd Hkeys);
      split; now apply deleteOne_map_NoDup.
Qed.

(** For a save into a collection of two users, whatever the database
    does. *)
Lemma routes_keep_one_document_per_key_witness :
  let st := {| theme := Some "dental"; toothSystem := Some "FDI";
               numRows := None; numCols := None;
               viewports := None; measurements := None; rest := "" |} in
  let a := "64b7f0c2a1d3e4f5a6b7c8d9" in
  let mk (n : Z) (user session id : string) :=
    {| _id := id; userId := user; studyInstanceUID := "1.2.840.1";
       sessionId := session; state := st; autoSaved := false; version := 1;
       createdAt := n; updatedAt := n |} in
  let db := [mk 1%Z a "s01" "650000000000000000000001";
             mk 3%Z "64b7f0c2a1d3e4f5a6b7c8da" "s02" "650000000000000000000002"] in
  let b := {| body_studyInstanceUID := Some "1.2.840.1"; body_sessionId := Some "s03";
              body_state := Some st; body_autoSaved := None |} in
  wellKeyed (fst (saveRoute NoFault 9 "650000000000000000000003" a b db))
  /\ wellKeyed (fst (autoSaveRoute (WriteFails None) 9 "650000000000000000000003"
                       a b db))
  /\ wellKeyed (fst (deleteRoute NoFault a "650000000000000000000001" db)).
Proof.
  intros st a mk db b.
  assert (Hwk : wellKeyed db).
  { split; simpl; repeat constructor; simpl; intuition discriminate. }
  assert (Hfresh : ~ In "650000000000000000000003" (map _id db)).
  { simpl. intuition discriminate. }
  destruct (routes_keep_one_document_per_key NoFault 9%Z "650000000000000000000003"
              a "650000000000000000000001" b db Hwk Hfresh) as [H1 [_ H3]].
  destruct (routes_keep_one_document_per_key (WriteFails None) 9%Z
              "650000000000000000000003" a "650000000000000000000001" b db
              Hwk Hfresh) as [_ [H2 _]].
  split; [exact H1 |]. split; [exact H2 | exact H3].
Defined.

(** X21. The routes leave the documents of other users.  With one
    document per id, and an id for a new document that no document has,
    the documents of the users other than the requesting one are the
    same, in the same order, after the save route and its clean-up, after
    the auto-save route and after the delete route, whatever the request
    and whatever the database does to it. *)
Theorem routes_leave_the_documents_of_other_users (fault : Fault) (now : Z)
    (freshId user stateId : ObjectId) (b : Body) (db : Db) :
  NoDup (map _id db) ->
  ~ In freshId (map _id db) ->
  let others := filter (fun d => negb (String.eqb (userId d) user)) in
  others (fst (saveRoute fault now freshId user b db)) = others db
  /\ others (fst (autoSaveRoute fault now freshId user b db)) = others db
  /\ others (fst (deleteRoute fault user stateId db)) = others db.
Proof.
  intros Hnd Hfresh others.
  assert (Hkeep : forall x, userId x = user ->
                            negb (String.eqb (userId x) user) = false).
  { intros x ->. now rewrite String.eqb_refl. }
  split; [| split].
  - destruct (saveRoute_cases fault now freshId user b db)
      as [-> | [study [session [st [db1 [d [Hup Hout]]]]]]]; [reflexivity |].
    destruct (upsertState_wellKeyed _ _ _ _ _ _ _ _ _ _ _ Hup Hfresh)
      as [Hnd1 [_ [_ [_ Hsame]]]].
    specialize (Hnd1 Hnd). specialize (Hsame Hnd _ Hkeep).
    destruct Hout as [-> | ->]; [exact Hsame |].
    unfold others, deleteMany. rewrite filter_filter_keep; [exact Hsame |].
    intros x Hx Hother. apply negb_true_iff.
    destruct (existsb (String.eqb (_id x)) (map _id (oldStates db1 user study)))
      eqn:E; [| reflexivity].
    apply existsb_exists in E. destruct E as [i [Hi Hxi]].
    apply String.eqb_eq in Hxi. subst i.
    apply in_map_iff in Hi. destruct Hi as [y [Hy Hin]].
    unfold oldStates in Hin. apply skipn_In in Hin.
    apply (Permutation_in _ (sortByUpdatedAt_perm _)) in Hin.
    apply filter_In in Hin. destruct Hin as [Hin Hof].
    rewrite (id_injective db1 y x Hnd1 Hin Hx Hy) in Hof.
    unfold ofStudy in Hof. apply andb_prop in Hof. destruct Hof as [Hu _].
    apply String.eqb_eq in Hu. rewrite (Hkeep x Hu) in Hother. discriminate.
  - destruct (autoSaveRoute_cases fault now freshId user b db)
      as [-> | [study [session [st [d Hf]]]]]; [reflexivity |].
    apply findOneAndUpdate_cases in Hf.
    destruct (find (hasKey user study session) db) as [existing|] eqn:Hfind.
    + destruct Hf as [_ [_ Hsame]]. exact (Hsame _ Hkeep).
    + destruct Hf as [written [-> [Hid Hkey]]]. unfold others. rewrite filter_app.
      cbn [filter]. unfold keyOf in Hkey. injection Hkey as Hu _ _.
      rewrite (Hkeep written Hu). apply app_nil_r.
  - destruct (castObjectId stateId) as [id|] eqn:Hcast;
      [| now rewrite (deleteRoute_cast_fails _ _ _ _ Hcast)].
    rewrite (deleteRoute_cast _ _ _ _ _ Hcast).
    destruct fault; try reflexivity;
      destruct (find _ db) as [d|] eqn:Hf; try reflexivity.
    all: apply find_some in Hf; destruct Hf as [Hin Hf];
      apply andb_prop in Hf; destruct Hf as [Hid Hu];
      apply String.eqb_eq in Hid, Hu; subst id;
      apply filter_deleteOne; [exact Hnd | exact Hin | now apply Hkeep].
Qed.

(** For the requests of one user on a collection of two users. *)
Lemma routes_leave_the_documents_of_other_users_witness :
  let st := {| theme := Some "dental"; toothSystem := Some "FDI";
               numRows := None; numCols := None;
               viewports := None; measurements := None; rest := "" |} in
  let a := "64b7f0c2a1d3e4f5a6b7c8d9" in
  let mk (n : Z) (user session id : string) :=
    {| _id := id; userId := user; studyInstanceUID := "1.2.840.1";
       sessionId := session; state := st; autoSaved := false; version := 1;
       createdAt := n; updatedAt := n |} in
  let other := mk 3%Z "64b7f0c2a1d3e4f5a6b7c8da" "s02" "650000000000000000000002" in
  let db := [mk 1%Z a "s01" "650000000000000000000001"; other] in
  let b := {| body_studyInstanceUID := Some "1.2.840.1"; body_sessionId := Some "s02";
              body_state := Some st; body_autoSaved := None |} in
  let others := filter (fun d => negb (String.eqb (userId d) a)) in
  others (fst (saveRoute NoFault 9 "650000000000000000000003" a b db)) = [other]
  /\ others (fst (autoSaveRoute NoFault 9 "650000000000000000000003" a b db))
     = [other]
  /\ others (fst (deleteRoute NoFault a "650000000000000000000002" db)) = [other].
Proof.
  intros st a mk other db b others.
  assert (Hnd : NoDup (map _id db)).
  { simpl. repeat constructor; simpl; intuition discriminate. }
  assert (Hfresh : ~ In "650000000000000000000003" (map _id db)).
  { simpl. intuition discriminate. }
  destruct (routes_leave_the_documents_of_other_users NoFault 9%Z
              "650000000000000000000003" a "650000000000000000000002" b db
              Hnd Hfresh) as [H1 [H2 H3]].
  fold others in H1, H2, H3. rewrite H1, H2, H3. repeat split; reflexivity.
Defined.

End Collection.

(** ** Viewer states: a save, then a load *)

Section RoundTrip.
Import ViewerStates.

(** With one document per key, the query by key finds that document
    alone. *)
Lemma filter_key_single (user : ObjectId) (study session : string) (db : Db)
    (d : ViewerState) :
  NoDup (map keyOf db) -> In d db -> hasKey user study session d = true ->
  filter (hasKey user study session) db = [d].
Proof.
  intros Hnd Hin Hkey. apply keyOf_hasKey in Hkey.
  induction db as [| x db IH]; [destruct Hin |].
  simpl in Hnd. apply NoDup_cons_iff in Hnd. destruct Hnd as [Hx Hnd].
  cbn [filter]. destruct Hin as [-> | Hin].
  - rewrite (proj2 (keyOf_hasKey user study session d) Hkey). f_equal.
    assert (H : forall y, In y db -> hasKey user study session y = false).
    { intros y Hy.
      destruct (hasKey user study session y) eqn:E; [| reflexivity].
      apply keyOf_hasKey in E. exfalso. apply Hx.
      rewrite Hkey, <- E. now apply in_map. }
    rewrite (filter_ext_in _ (fun _ => false) db H). apply filter_false.
  - destruct (hasKey user study session x) eqn:E.
    + apply keyOf_hasKey in E. exfalso. apply Hx. rewrite E, <- Hkey.
      now apply in_map.
    + now apply IH.
Qed.

(** The query of GET for a session that is named is the query by key. *)
Lemma queried_session (user : ObjectId) (study session : string) (d : ViewerState) :
  session <> "" ->
  queried user study (Some session) d = hasKey user study session d.
Proof.
  intros Hne. unfold queried, hasKey, keyIs, ofStudy. cbn [JS.truthy_string].
  apply String.eqb_neq in Hne. rewrite Hne. cbn [negb]. reflexivity.
Qed.

Lemma getRoute_by_key (user : ObjectId) (study session : string) (db : Db)
    (d : ViewerState) :
  study <> "" -> session <> "" ->
  NoDup (map keyOf db) -> In d db -> hasKey user study session d = true ->
  getRoute NoFault user (Some study) (Some session) db
  = Http.reply 200 (Http.Data (load (hydrate d))).
Proof.
  intros Hs Hse Hnd Hin Hkey. unfold getRoute. cbn [JS.truthy_string].
  apply String.eqb_neq in Hs. rewrite Hs. cbn [negb].
  unfold latest.
  rewrite (filter_ext _ _ (fun x => queried_session user study session x Hse)).
  rewrite (filter_key_single user study session db d Hnd Hin Hkey). reflexivity.
Qed.

Lemma replace_In (d x : ViewerState) (l : Db) :
  In x l -> _id x = _id d -> In d (replace d l).
Proof.
  induction l as [| y l IH]; intros Hin Hid; [destruct Hin |].
  simpl. destruct (String.eqb (_id y) (_id d)) eqn:E; [now left |].
  destruct Hin as [-> | Hin]; [rewrite Hid, String.eqb_refl in E; discriminate |].
  right. now apply IH.
Qed.

Lemma In_replace (d x : ViewerState) (l : Db) :
  In x (replace d l) -> x = d \/ In x l.
Proof.
  induction l as [| y l IH]; intros Hin; [destruct Hin |].
  simpl in Hin. destruct (String.eqb (_id y) (_id d)).
  - destruct Hin as [<- | Hin]; [now left | right; now right].
  - destruct Hin as [<- | Hin]; [right; now left |].
    destruct (IH Hin) as [-> | H]; [now left | right; now right].
Qed.

(** What a successful upsert leaves: the saved document is in the
    collection under the key, with the flag of the request and with its
    state, up to the defaults of the schema, and is stamped with the time
    of the request; any other document was there before. *)
Lemma upsertState_saved (now : Z) (freshId user : ObjectId)
    (study session : string) (st : State) (auto : bool) (db db1 : Db)
    (d : ViewerState) :
  upsertState NoFault now freshId user study session st auto db = Http.Ok (db1, d) ->
  In d db1 /\ hasKey user study session d = true
  /\ withDefaults (state d) = withDefaults st /\ autoSaved d = auto
  /\ updatedAt d = now
  /\ (forall x, In x db1 -> x = d \/ In x db).
Proof.
  unfold upsertState, findOne. cbn [Http.bind].
  destruct (find (hasKey user study session) db) as [existing|] eqn:Hfind;
    cbn [option_map]; unfold save;
    match goal with |- context [negb (schemaValid ?x)] =>
      destruct (negb (schemaValid x)); [discriminate |] end.
  - pose proof (find_some _ _ Hfind) as [Hin Hk].
    destruct (hasKey_fields _ _ _ _ Hk) as [Hu [Hs Hse]].
    unfold stamp, preSave. cbn [isNew assign doc isModified andb negb].
    intros H. injection H as <- <-.
    split; [now apply (replace_In _ existing) |].
    split; [now apply hasKey_refl |].
    split; [reflexivity |]. split; [reflexivity |]. split; [reflexivity |].
    intros x. apply In_replace.
  - unfold stamp, preSave. cbn [isNew create doc isModified andb negb].
    destruct (existsb _ db); [discriminate |].
    intros H. injection H as <- <-.
    split; [apply in_or_app; right; now left |].
    split; [now apply hasKey_refl |].
    split; [apply withDefaults_twice |]. split; [reflexivity |].
    split; [reflexivity |].
    intros x Hx. apply in_app_or in Hx.
    destruct Hx as [Hx | [<- | []]]; [now right | now left].
Qed.

(** The clean-up of the save route spares the document just saved, which
    is the latest of the study. *)
Lemma saved_document_survives (user : ObjectId) (study : string) (db1 : Db)
    (d : ViewerState) :
  NoDup (map _id db1) ->
  In d db1 ->
  (forall x, In x db1 -> x = d \/ (updatedAt x < updatedAt d)%Z) ->
  In d (deleteMany (map _id (oldStates db1 user study)) db1).
Proof.
  intros Hnd Hin Hnewest.
  destruct (cleanupOldStates_keeps_ten db1 user study Hnd)
    as [db2 [Hclean [Hall [Hkept [_ [_ Hnewer]]]]]].
  rewrite cleanupOldStates_run in Hclean by discriminate.
  injection Hclean as <-.
  apply Hall. split; [exact Hin |]. intros Hold.
  set (sorted := sortByUpdatedAt (filter (ofStudy user study) db1)) in *.
  assert (Hhead : exists k, In k (firstn 10 sorted)).
  { destruct sorted as [| y ys]; [destruct Hold |]. exists y. now left. }
  destruct Hhead as [k Hk].
  assert (Hks : In k sorted) by (apply (firstn_In 10); exact Hk).
  assert (Hof : ofStudy user study k = true).
  { apply (Permutation_in _ (sortByUpdatedAt_perm _)) in Hks.
    apply filter_In in Hks. tauto. }
  pose proof (proj2 (Hkept k Hof) Hk) as Hkin.
  apply Hall in Hkin. destruct Hkin as [Hkdb Hknot].
  specialize (Hnewer k d Hk Hold). unfold newerFirst in Hnewer.
  destruct (Hnewest k Hkdb) as [-> | Hlt]; [contradiction | lia].
Qed.

(** X22. A saved state is loaded back.  On a collection with one document
    per id and per key, all updated before the request, a save of a
    state the schema accepts, for a study and a session that are not
    blank, is answered with the id and the version of a document and the
    time of the request; GET, asked next for the same study and session,
    answers with that id, version and time, with the trimmed session and
    the flag of the request, and with the state of the request with the
    defaults of the schema filled in. *)
Theorem saved_state_is_loaded_back (now : Z) (freshId user : ObjectId)
    (study session : string) (st : State) (auto : bool) (db : Db) :
  JS.trim study <> "" -> JS.trim session <> "" -> stateValid st = true ->
  wellKeyed db ->
  ~ In freshId (map _id db) ->
  (forall d, In d db -> (updatedAt d < now)%Z) ->
  let out := saveRoute NoFault now freshId user
               {| body_studyInstanceUID := Some study;
                  body_sessionId := Some session;
                  body_state := Some st; body_autoSaved := Some auto |} db in
  exists id v loaded,
    snd out = Http.json (Http.StateSaved "Viewer state saved successfully" id v now)
    /\ getRoute NoFault user (Some study) (Some session) (fst out)
       = Http.reply 200 (Http.Data loaded)
    /\ loaded_stateId loaded = id
    /\ loaded_version loaded = v
    /\ loaded_updatedAt loaded = now
    /\ loaded_state loaded = withDefaults st
    /\ loaded_autoSaved loaded = auto
    /\ loaded_sessionId loaded = JS.trim session
    /\ match find (hasKey user study session) db with
       | Some existing => id = _id existing /\ v = (version existing + 1)%Z
       | None => id = freshId /\ v = 1%Z
       end.
Proof.
  intros Hts Htse Hvalid Hwk Hfresh Hold out.
  assert (Hs : study <> "") by (intros ->; now apply Hts).
  assert (Hse : session <> "") by (intros ->; now apply Htse).
  assert (Hrun : exists db1 d,
             upsertState NoFault now freshId user study session st auto db
             = Http.Ok (db1, d)
             /\ match find (hasKey user study session) db with
                | Some existing =>
                    _id d = _id existing /\ version d = (version existing + 1)%Z
                | None => _id d = freshId /\ version d = 1%Z
                end).
  { destruct (find (hasKey user study session) db) as [existing|] eqn:Hfind.
    - destruct (upsertState_existing NoFault now freshId user study session st auto
                  db existing (or_introl eq_refl) Hfind Hvalid)
        as [d [Hup [Hid [_ [_ [_ [Hv _]]]]]]].
      eauto.
    - rewrite (upsertState_new NoFault now freshId user study session st auto db
                 (or_introl eq_refl) Hfind Hvalid Hts Htse).
      eexists. eexists. split; [reflexivity |]. split; reflexivity. }
  destruct Hrun as [db1 [d [Hup Hcase]]].
  destruct (upsertState_saved _ _ _ _ _ _ _ _ _ _ Hup)
    as [Hin [Hkey [Hst [Hauto [Hnow Hrest]]]]].
  destruct (upsertState_wellKeyed _ _ _ _ _ _ _ _ _ _ _ Hup Hfresh)
    as [_ [Hwk1 _]].
  destruct (Hwk1 Hwk) as [Hnd1 Hkeys1].
  assert (Hkept : In d (deleteMany (map _id (oldStates db1 user study)) db1)).
  { apply saved_document_survives; [exact Hnd1 | exact Hin |].
    intros x Hx. destruct (Hrest x Hx) as [-> | Hx']; [now left | right].
    rewrite Hnow. now apply Hold. }
  pose proof (saveRoute_response now freshId user study session st auto db db1 d
                Hs Hse Hup) as Hout.
  fold out in Hout. rewrite Hout. cbn [fst snd].
  exists (_id d), (version d), (load (hydrate d)).
  split; [now rewrite Hnow |]. split.
  - apply getRoute_by_key; try assumption.
    unfold deleteMany. now apply NoDup_map_filter.
  - cbn [load hydrate loaded_stateId loaded_state loaded_version loaded_sessionId
           loaded_autoSaved loaded_updatedAt
           _id state version sessionId autoSaved updatedAt].
    apply hasKey_fields in Hkey. destruct Hkey as [_ [_ Hsession]].
    repeat split; try assumption; reflexivity.
Qed.

(** For the eleventh session of a user on a study, named with a blank
    after it, and a state that leaves the theme and the layout to the
    schema. *)
Lemma saved_state_is_loaded_back_witness :
  let st := {| theme := Some "dental"; toothSystem := Some "FDI";
               numRows := Some 2%Z; numCols := Some 2%Z;
               viewports := Some []; measurements := Some []; rest := "" |} in
  let a := "64b7f0c2a1d3e4f5a6b7c8d9" in
  let mk (n : Z) (session id : string) :=
    {| _id := id; userId := a; studyInstanceUID := "1.2.840.1";
       sessionId := session; state := st; autoSaved := false; version := 1;
       createdAt := n; updatedAt := n |} in
  let db := [ mk 1%Z "s01" "650000000000000000000001";
              mk 2%Z "s02" "650000000000000000000002";
              mk 3%Z "s03" "650000000000000000000003";
              mk 4%Z "s04" "650000000000000000000004";
              mk 5%Z "s05" "650000000000000000000005";
              mk 6%Z "s06" "650000000000000000000006";
              mk 7%Z "s07" "650000000000000000000007";
              mk 8%Z "s08" "650000000000000000000008";
              mk 9%Z "s09" "650000000000000000000009";
              mk 10%Z "s10" "65000000000000000000000a" ] in
  let st' := {| theme := None; toothSystem := Some "Universal";
                numRows := None; numCols := Some 3%Z;
                viewports := None; measurements := None;
                rest := "zoom=2" |} in
  let out := saveRoute NoFault 11 "65000000000000000000000b" a
               {| body_studyInstanceUID := Some "1.2.840.1";
                  body_sessionId := Some "s11 ";
                  body_state := Some st'; body_autoSaved := Some true |} db in
  exists loaded,
    getRoute NoFault a (Some "1.2.840.1") (Some "s11 ") (fst out)
    = Http.reply 200 (Http.Data loaded)
    /\ loaded_stateId loaded = "65000000000000000000000b"
    /\ loaded_sessionId loaded = "s11"
    /\ loaded_state loaded
       = {| theme := Some "dental"; toothSystem := Some "Universal";
            numRows := Some 2%Z; numCols := Some 3%Z;
            viewports := Some []; measurements := Some [];
            rest := "zoom=2" |}.
Proof.
  intros st a mk db st' out.
  assert (Hwk : wellKeyed db).
  { split; simpl; repeat constructor; simpl; intuition discriminate. }
  assert (Hfresh : ~ In "65000000000000000000000b" (map _id db)).
  { simpl. intuition discriminate. }
  assert (Hold : forall d, In d db -> (updatedAt d < 11)%Z).
  { intros d Hd. simpl in Hd.
    repeat (destruct Hd as [<- | Hd]; [simpl; lia |]). destruct Hd. }
  destruct (saved_state_is_loaded_back 11%Z "65000000000000000000000b" a
              "1.2.840.1" "s11 " st' true db
              ltac:(discriminate) ltac:(discriminate) eq_refl Hwk Hfresh Hold)
    as [id [v [loaded [_ [Hget [Hid [_ [_ [Hstate [_ [Hsession Hcase]]]]]]]]]]].
  exists loaded. split; [exact Hget |].
  split; [rewrite Hid; exact (proj1 Hcase) |].
  split; [rewrite Hsession; reflexivity |].
  rewrite Hstate. reflexivity.
Defined.

End RoundTrip.
